(** * MACHIN3tools: alignment, Unity export preparation and cursor operators

    A shallow embedding of [operators/align.py], [operators/unity.py] and
    [ui/operators/cursor.py].  Scalars are the real numbers: every Python
    float is read as the real it denotes, so rounding is idealised away and
    equalities between scalars are equalities of reals. *)

From Stdlib Require Import Reals Lra RNsatz List Bool Arith Lia String.
From stdpp Require Import base option list strings gmap.

(* ===================================================================== *)
(** * The part of [mathutils] the operators call *)
(* ===================================================================== *)

Module Mathutils.
Local Open Scope R_scope.

(** [mathutils.Vector] of size 3. *)
Record Vector := Vec { vx : R; vy : R; vz : R }.

(** A row of a 4x4 matrix. *)
Record Row := MkRow { r0 : R; r1 : R; r2 : R; r3 : R }.

(** [mathutils.Matrix] of size 4x4, row major as Python shows it:
    [mx[i][j]] is field [j] of row [i]. *)
Record Matrix := Mat { row0 : Row; row1 : Row; row2 : Row; row3 : Row }.

(** [mathutils.Quaternion], (w, x, y, z). *)
Record Quaternion := Quat { qw : R; qx : R; qy : R; qz : R }.

(** The three axis names [Matrix.Rotation] accepts. *)
Inductive Axis := AX | AY | AZ.

Definition zero_vector : Vector := Vec 0 0 0.

(** [Matrix()] : the identity. *)
Definition identity : Matrix :=
  Mat (MkRow 1 0 0 0) (MkRow 0 1 0 0) (MkRow 0 0 1 0) (MkRow 0 0 0 1).

Definition dot (a b : Row) : R :=
  r0 a * r0 b + r1 a * r1 b + r2 a * r2 b + r3 a * r3 b.

Definition col0 (m : Matrix) : Row := MkRow (r0 (row0 m)) (r0 (row1 m)) (r0 (row2 m)) (r0 (row3 m)).
Definition col1 (m : Matrix) : Row := MkRow (r1 (row0 m)) (r1 (row1 m)) (r1 (row2 m)) (r1 (row3 m)).
Definition col2 (m : Matrix) : Row := MkRow (r2 (row0 m)) (r2 (row1 m)) (r2 (row2 m)) (r2 (row3 m)).
Definition col3 (m : Matrix) : Row := MkRow (r3 (row0 m)) (r3 (row1 m)) (r3 (row2 m)) (r3 (row3 m)).

Definition row_mul (r : Row) (b : Matrix) : Row :=
  MkRow (dot r (col0 b)) (dot r (col1 b)) (dot r (col2 b)) (dot r (col3 b)).

(** [a @ b] on two matrices. *)
Definition matmul (a b : Matrix) : Matrix :=
  Mat (row_mul (row0 a) b) (row_mul (row1 a) b) (row_mul (row2 a) b) (row_mul (row3 a) b).

(** [mx @ v] on a 4x4 matrix and a 3-vector: the vector is extended by 1
    and the first three entries of the product are returned. *)
Definition mat_vec (m : Matrix) (v : Vector) : Vector :=
  let h := MkRow (vx v) (vy v) (vz v) 1 in
  Vec (dot (row0 m) h) (dot (row1 m) h) (dot (row2 m) h).

(** [mx.translation] / [mx.to_translation()]: the last column. *)
Definition translation (m : Matrix) : Vector :=
  Vec (r3 (row0 m)) (r3 (row1 m)) (r3 (row2 m)).

(** [mx.translation.z -= d], written through to the matrix. *)
Definition sub_translation_z (m : Matrix) (d : R) : Matrix :=
  let r := row2 m in
  Mat (row0 m) (row1 m) (MkRow (r0 r) (r1 r) (r2 r) (r3 r - d)) (row3 m).

(** [math.radians]. *)
Definition radians (deg : R) : R := deg * PI / 180.

(** [Matrix.Rotation(angle, 4, axis)]. *)
Definition Rotation (angle : R) (axis : Axis) : Matrix :=
  let c := cos angle in
  let s := sin angle in
  match axis with
  | AX => Mat (MkRow 1 0 0 0) (MkRow 0 c (- s) 0) (MkRow 0 s c 0) (MkRow 0 0 0 1)
  | AY => Mat (MkRow c 0 s 0) (MkRow 0 1 0 0) (MkRow (- s) 0 c 0) (MkRow 0 0 0 1)
  | AZ => Mat (MkRow c (- s) 0 0) (MkRow s c 0 0) (MkRow 0 0 1 0) (MkRow 0 0 0 1)
  end.

(** [Matrix.Scale(factor, 4)]. *)
Definition Scale (f : R) : Matrix :=
  Mat (MkRow f 0 0 0) (MkRow 0 f 0 0) (MkRow 0 0 f 0) (MkRow 0 0 0 1).

(** [Matrix.Translation(v)]. *)
Definition Translation (v : Vector) : Matrix :=
  Mat (MkRow 1 0 0 (vx v)) (MkRow 0 1 0 (vy v)) (MkRow 0 0 1 (vz v)) (MkRow 0 0 0 1).

(** [v / k] on a vector. *)
Definition vec_div (v : Vector) (k : R) : Vector := Vec (vx v / k) (vy v / k) (vz v / k).

(** [x < y] on floats, as a boolean. *)
Definition Rltb (x y : R) : bool := if Rlt_dec x y then true else false.

(** Length of a 3-vector. *)
Definition norm3 (a b c : R) : R := sqrt (a * a + b * b + c * c).

(** Division used by normalisation: a zero-length vector stays zero. *)
Definition safe_div (a n : R) : R :=
  if Req_dec_T n 0 then 0 else a / n.

(** Determinant of the upper-left 3x3 block. *)
Definition det3 (m : Matrix) : R :=
  let a := row0 m in let b := row1 m in let c := row2 m in
  r0 a * (r1 b * r2 c - r2 b * r1 c)
  - r1 a * (r0 b * r2 c - r2 b * r0 c)
  + r2 a * (r0 b * r1 c - r1 b * r0 c).

(** The 3x3 block of [m] with each column divided by [s]'s entry, as a
    4x4 matrix with no translation. *)
Definition normalized_columns (m : Matrix) (s : Vector) : Matrix :=
  let a := row0 m in let b := row1 m in let c := row2 m in
  Mat (MkRow (safe_div (r0 a) (vx s)) (safe_div (r1 a) (vy s)) (safe_div (r2 a) (vz s)) 0)
      (MkRow (safe_div (r0 b) (vx s)) (safe_div (r1 b) (vy s)) (safe_div (r2 b) (vz s)) 0)
      (MkRow (safe_div (r0 c) (vx s)) (safe_div (r1 c) (vy s)) (safe_div (r2 c) (vz s)) 0)
      (MkRow 0 0 0 1).

(** Lengths of the three columns of the 3x3 block. *)
Definition column_lengths (m : Matrix) : Vector :=
  let a := row0 m in let b := row1 m in let c := row2 m in
  Vec (norm3 (r0 a) (r0 b) (r0 c)) (norm3 (r1 a) (r1 b) (r1 c)) (norm3 (r2 a) (r2 b) (r2 c)).

Definition vec_neg (v : Vector) : Vector := Vec (- vx v) (- vy v) (- vz v).

(** Negation of the 3x3 block. *)
Definition neg3 (m : Matrix) : Matrix :=
  let n r := MkRow (- r0 r) (- r1 r) (- r2 r) (r3 r) in
  Mat (n (row0 m)) (n (row1 m)) (n (row2 m)) (row3 m).

(** Rotation and size of a matrix: the columns are normalised, their
    lengths are the size; a mirrored basis (negative determinant) has both
    negated. *)
Definition rot_size (m : Matrix) : Matrix * Vector :=
  let s := column_lengths m in
  let r := normalized_columns m s in
  if Rltb (det3 r) 0 then (neg3 r, vec_neg s) else (r, s).

(** Sizes as [rot_size] returns them: none negative, or all negative. *)
Definition coherent_size (s : Vector) : Prop :=
  (0 <= vx s /\ 0 <= vy s /\ 0 <= vz s) \/ (vx s < 0 /\ vy s < 0 /\ vz s < 0).

(** [normalize_qt]: a quaternion of length zero becomes (0, 1, 0, 0). *)
Definition normalize_qt (q : Quaternion) : Quaternion :=
  let n := sqrt (qw q * qw q + qx q * qx q + qy q * qy q + qz q * qz q) in
  if Req_dec_T n 0 then Quat 0 1 0 0
  else Quat (qw q / n) (qx q / n) (qy q / n) (qz q / n).

(** A quaternion of length one. *)
Definition unit_quat (q : Quaternion) : Prop :=
  qw q * qw q + qx q * qx q + qy q * qy q + qz q * qz q = 1.

(** Quaternion of a normalised 3x3 block, by the trace method: the branch
    is chosen by the trace and then by the largest diagonal entry, and the
    result is normalised. *)
Definition mat3_to_quat (m : Matrix) : Quaternion :=
  let a := row0 m in let b := row1 m in let c := row2 m in
  let tr := / 4 * (1 + r0 a + r1 b + r2 c) in
  normalize_qt
    (if Rltb (/ 10000) tr then
       let s := sqrt tr in
       let k := / (4 * s) in
       Quat s ((r1 c - r2 b) * k) ((r2 a - r0 c) * k) ((r0 b - r1 a) * k)
     else if Rltb (r1 b) (r0 a) && Rltb (r2 c) (r0 a) then
       let s := 2 * sqrt (1 + r0 a - r1 b - r2 c) in
       Quat ((r1 c - r2 b) * / s) (/ 4 * s) ((r1 a + r0 b) * / s) ((r2 a + r0 c) * / s)
     else if Rltb (r2 c) (r1 b) then
       let s := 2 * sqrt (1 + r1 b - r0 a - r2 c) in
       Quat ((r2 a - r0 c) * / s) ((r1 a + r0 b) * / s) (/ 4 * s) ((r2 b + r1 c) * / s)
     else
       let s := 2 * sqrt (1 + r2 c - r0 a - r1 b) in
       Quat ((r0 b - r1 a) * / s) ((r2 a + r0 c) * / s) ((r2 b + r1 c) * / s) (/ 4 * s)).

(** [Quaternion.to_matrix().to_4x4()]. *)
Definition quat_to_matrix (q : Quaternion) : Matrix :=
  let w := qw q in let x := qx q in let y := qy q in let z := qz q in
  Mat (MkRow (1 - 2 * y * y - 2 * z * z) (2 * x * y - 2 * w * z) (2 * x * z + 2 * w * y) 0)
      (MkRow (2 * x * y + 2 * w * z) (1 - 2 * x * x - 2 * z * z) (2 * y * z - 2 * w * x) 0)
      (MkRow (2 * x * z - 2 * w * y) (2 * y * z + 2 * w * x) (1 - 2 * x * x - 2 * y * y) 0)
      (MkRow 0 0 0 1).

(** [Matrix.decompose()]: (location, rotation quaternion, scale). *)
Definition decompose (m : Matrix) : Vector * Quaternion * Vector :=
  let rs := rot_size m in
  (translation m, mat3_to_quat (fst rs), snd rs).

(** [mathutils.Euler] in the order XYZ, angles in radians. *)
Record Euler := MkEuler { ex : R; ey : R; ez : R }.

(** [Euler((x, y, z), 'XYZ').to_matrix().to_4x4()]: the rotation about X
    first, then about Y, then about Z. *)
Definition euler_to_matrix (e : Euler) : Matrix :=
  matmul (Rotation (ez e) AZ) (matmul (Rotation (ey e) AY) (Rotation (ex e) AX)).

(** [a - b] on vectors. *)
Definition vec_sub (a b : Vector) : Vector :=
  Vec (vx a - vx b) (vy a - vy b) (vz a - vz b).

(** [p @ q] on quaternions: the Hamilton product. *)
Definition quat_mul (p q : Quaternion) : Quaternion :=
  Quat (qw p * qw q - qx p * qx q - qy p * qy q - qz p * qz q)
       (qw p * qx q + qx p * qw q + qy p * qz q - qz p * qy q)
       (qw p * qy q + qy p * qw q + qz p * qx q - qx p * qz q)
       (qw p * qz q + qz p * qw q + qx p * qy q - qy p * qx q).

(** [q @ v]: the vector part of [q * (0, v) * conjugate q]. *)
Definition quat_rotate (q : Quaternion) (v : Vector) : Vector :=
  let r := quat_mul (quat_mul q (Quat 0 (vx v) (vy v) (vz v)))
                    (Quat (qw q) (- qx q) (- qy q) (- qz q)) in
  Vec (qx r) (qy r) (qz r).

(** A 4x4 matrix whose 3x3 block has columns of length one and determinant
    one, with no translation. *)
Definition proper_rotation (m : Matrix) : Prop :=
  row3 m = MkRow 0 0 0 1
  /\ r3 (row0 m) = 0 /\ r3 (row1 m) = 0 /\ r3 (row2 m) = 0
  /\ r0 (row0 m) * r0 (row0 m) + r0 (row1 m) * r0 (row1 m) + r0 (row2 m) * r0 (row2 m) = 1
  /\ r1 (row0 m) * r1 (row0 m) + r1 (row1 m) * r1 (row1 m) + r1 (row2 m) * r1 (row2 m) = 1
  /\ r2 (row0 m) * r2 (row0 m) + r2 (row1 m) * r2 (row1 m) + r2 (row2 m) * r2 (row2 m) = 1
  /\ det3 m = 1.

End Mathutils.

(* ===================================================================== *)
(** * Helpers of [utils/math.py] *)
(* ===================================================================== *)

Module UtilsMath.
Import Mathutils.
Local Open Scope R_scope.

(** Modelled from the spec: [get_loc_matrix] of [utils/math.py] is not among
    the sources; it is the "construction of pure translation matrices". *)
Definition get_loc_matrix (loc : Vector) : Matrix := Translation loc.

(** Modelled from the spec: [get_rot_matrix] of [utils/math.py] is not among
    the sources; it is the "construction of pure rotation matrices", here
    from a quaternion. *)
Definition get_rot_matrix (rot : Quaternion) : Matrix := quat_to_matrix rot.

(** Modelled from the spec: [get_sca_matrix] of [utils/math.py] is not among
    the sources; it is the "construction of pure scale matrices", with one
    factor per axis. *)
Definition get_sca_matrix (sca : Vector) : Matrix :=
  Mat (MkRow (vx sca) 0 0 0) (MkRow 0 (vy sca) 0 0) (MkRow 0 0 (vz sca) 0) (MkRow 0 0 0 1).

(** Modelled from the spec: [flatten_matrix] of [utils/math.py] is not among
    the sources; the saved Transform is "stored verbatim", as the flat
    sequence of the sixteen entries, column after column. *)
Definition flatten_matrix (m : Matrix) : list R :=
  let c k := [r0 k; r1 k; r2 k; r3 k] in
  c (col0 m) ++ c (col1 m) ++ c (col2 m) ++ c (col3 m).

(** Modelled from the spec: assigning the saved flat sequence to
    [matrix_world] reads the sixteen entries back in the order
    [flatten_matrix] wrote them; a missing entry reads as 0. *)
Definition matrix_of_flat (l : list R) : Matrix :=
  let e i := nth i l 0 in
  Mat (MkRow (e 0%nat) (e 4%nat) (e 8%nat) (e 12%nat))
      (MkRow (e 1%nat) (e 5%nat) (e 9%nat) (e 13%nat))
      (MkRow (e 2%nat) (e 6%nat) (e 10%nat) (e 14%nat))
      (MkRow (e 3%nat) (e 7%nat) (e 11%nat) (e 15%nat)).

End UtilsMath.

(* ===================================================================== *)
(** * Scene data: objects, modifiers, mesh blocks *)
(* ===================================================================== *)

Module Scene.
Import Mathutils.
Local Open Scope R_scope.

(** Objects and mesh data blocks are Python references; a handle stands for
    the reference. *)
Definition handle := nat.
Definition mesh_id := nat.

(** [obj.type], as far as the operators tell the values apart. *)
Inductive ObjType := MESH | EMPTY | OTHER.

(** [mod.type], as far as the operators tell the values apart. *)
Inductive ModType := MIRROR | BEVEL | TRIANGULATE | OTHER_MOD.

Definition ObjType_eqb (a b : ObjType) : bool :=
  match a, b with MESH, MESH | EMPTY, EMPTY | OTHER, OTHER => true | _, _ => false end.

Definition ModType_eqb (a b : ModType) : bool :=
  match a, b with
  | MIRROR, MIRROR | BEVEL, BEVEL | TRIANGULATE, TRIANGULATE | OTHER_MOD, OTHER_MOD => true
  | _, _ => false
  end.

(** A three-element boolean vector property such as [use_axis]. *)
Definition Flags := (bool * bool * bool)%type.

(** The settings that belong to one modifier type. *)
Inductive ModParams :=
| MirrorParams (use_axis use_bisect_axis use_bisect_flip_axis : Flags)
| BevelParams (width : R)
| TriangulateParams (keep_custom_normals : bool)
| OtherParams.

Record Modifier := MkModifier {
  mod_name : string;
  show_viewport : bool;
  show_expanded : bool;
  params : ModParams
}.

Definition mod_type (m : Modifier) : ModType :=
  match params m with
  | MirrorParams _ _ _ => MIRROR
  | BevelParams _ => BEVEL
  | TriangulateParams _ => TRIANGULATE
  | OtherParams => OTHER_MOD
  end.

(** A mesh data block: vertex coordinates in local space. *)
Record Mesh := MkMesh { vertices : list Vector }.

(** The [M3] property group attached to every object. *)
Record M3Props := MkM3 {
  unity_exported : bool;
  pre_unity_export_mx : list R;
  pre_unity_export_mesh : option mesh_id
}.

(** [obj.parent_type]. *)
Inductive ParentType := PARENT_OBJECT | PARENT_BONE.

(** A scene object. [parent], [parent_type] and [parent_bone] are what
    [Align.align_to_active_bone] writes; the Unity operators read the
    parent/children relation from the hierarchy of their context. *)
Record Object := MkObject {
  type : ObjType;
  matrix_world : Matrix;
  location : Vector;
  modifiers : list Modifier;
  data : option mesh_id;
  empty_display_size : R;
  select : bool;
  M3 : M3Props;
  parent : option handle;
  parent_type : ParentType;
  parent_bone : string;
  pose_bones : gmap string Matrix
}.

Definition set_matrix_world (mx : Matrix) (o : Object) : Object :=
  MkObject (type o) mx (location o) (modifiers o) (data o) (empty_display_size o)
           (select o) (M3 o) (parent o) (parent_type o) (parent_bone o) (pose_bones o).

Definition set_modifiers (ms : list Modifier) (o : Object) : Object :=
  MkObject (type o) (matrix_world o) (location o) ms (data o) (empty_display_size o)
           (select o) (M3 o) (parent o) (parent_type o) (parent_bone o) (pose_bones o).

Definition set_data (d : option mesh_id) (o : Object) : Object :=
  MkObject (type o) (matrix_world o) (location o) (modifiers o) d (empty_display_size o)
           (select o) (M3 o) (parent o) (parent_type o) (parent_bone o) (pose_bones o).

Definition set_empty_display_size (s : R) (o : Object) : Object :=
  MkObject (type o) (matrix_world o) (location o) (modifiers o) (data o) s
           (select o) (M3 o) (parent o) (parent_type o) (parent_bone o) (pose_bones o).

Definition set_select (b : bool) (o : Object) : Object :=
  MkObject (type o) (matrix_world o) (location o) (modifiers o) (data o) (empty_display_size o)
           b (M3 o) (parent o) (parent_type o) (parent_bone o) (pose_bones o).

Definition set_M3 (p : M3Props) (o : Object) : Object :=
  MkObject (type o) (matrix_world o) (location o) (modifiers o) (data o) (empty_display_size o)
           (select o) p (parent o) (parent_type o) (parent_bone o) (pose_bones o).

Definition set_parenting (p : option handle) (pt : ParentType) (b : string) (o : Object) : Object :=
  MkObject (type o) (matrix_world o) (location o) (modifiers o) (data o) (empty_display_size o)
           (select o) (M3 o) p pt b (pose_bones o).

Definition set_unity_exported (b : bool) (p : M3Props) : M3Props :=
  MkM3 b (pre_unity_export_mx p) (pre_unity_export_mesh p).

Definition set_pre_unity_export_mx (l : list R) (p : M3Props) : M3Props :=
  MkM3 (unity_exported p) l (pre_unity_export_mesh p).

Definition set_pre_unity_export_mesh (d : option mesh_id) (p : M3Props) : M3Props :=
  MkM3 (unity_exported p) (pre_unity_export_mx p) d.

(** The data of the open file: every handle denotes an object, the mesh
    blocks are those of [bpy.data.meshes]. *)
Record Blend := MkBlend {
  objects : handle -> Object;
  meshes : gmap mesh_id Mesh
}.

(** In-place mutation of the object behind [h]. *)
Definition update_object (h : handle) (f : Object -> Object) (st : Blend) : Blend :=
  MkBlend (fun k => if Nat.eqb k h then f (objects st k) else objects st k) (meshes st).

Definition set_meshes (ms : gmap mesh_id Mesh) (st : Blend) : Blend :=
  MkBlend (objects st) ms.

(** The parent/children relation of the scene as the operators walk it:
    [obj.children] are the nodes directly below [obj], and [obj.parent] is
    [None] exactly for the top-level nodes. *)
#[local] Unset Elimination Schemes.
Inductive Tree := Node (obj : handle) (children : list Tree).
#[local] Set Elimination Schemes.

Definition root (t : Tree) : handle := match t with Node h _ => h end.
Definition subtrees (t : Tree) : list Tree := match t with Node _ ts => ts end.

(** Python exceptions the modelled code can raise. *)
Inductive exn := KeyError | ValueError | AttributeError | ReferenceError.

Inductive result (A : Type) := Ok (a : A) | Raise (e : exn).
Arguments Ok {A} a.
Arguments Raise {A} e.

Definition bind {A B} (r : result A) (k : A -> result B) : result B :=
  match r with Ok a => k a | Raise e => Raise e end.

Definition of_option {A} (o : option A) (e : exn) : result A :=
  match o with Some a => Ok a | None => Raise e end.

(** A run of statements that may raise, over a list. *)
Fixpoint for_each {A} (f : A -> Blend -> result Blend) (l : list A) (st : Blend) : result Blend :=
  match l with
  | [] => Ok st
  | a :: l => bind (f a st) (for_each f l)
  end.

End Scene.

(* ===================================================================== *)
(** * [operators/unity.py] *)
(* ===================================================================== *)

Module Unity.
Import Mathutils UtilsMath Scene.
Local Open Scope R_scope.

(** What the operators read from [context] and [context.scene.M3]. The
    hierarchy is the parent/children relation of the objects of the scene. *)
Record Context := MkContext {
  hierarchy : list Tree;
  visible_objects : list handle;
  unity_triangulate : bool;
  unity_export_path : string
}.

Record Event := MkEvent { alt : bool; ctrl : bool }.

Inductive Status := FINISHED | CANCELLED.

(** [context.selected_objects]: the visible objects that are selected. *)
Definition selected_objects (ctx : Context) (st : Blend) : list handle :=
  List.filter (fun h => select (objects st h)) (visible_objects ctx).

(** [f[1:3] = f[2], f[1]] on a three-element flag vector. *)
Definition swap_yz (f : Flags) : Flags :=
  let '(x, y, z) := f in (x, z, y).

Definition with_params (p : ModParams) (m : Modifier) : Modifier :=
  MkModifier (mod_name m) (show_viewport m) (show_expanded m) p.

(** Body of the loop over [mirrors]. *)
Definition swap_mirror_axes (m : Modifier) : Modifier :=
  match params m with
  | MirrorParams a b c => with_params (MirrorParams (swap_yz a) (swap_yz b) (swap_yz c)) m
  | _ => m
  end.

(** [mod.width *= k] on a BEVEL modifier. *)
Definition mul_width (k : R) (m : Modifier) : Modifier :=
  match params m with
  | BevelParams w => with_params (BevelParams (w * k)) m
  | _ => m
  end.

(** [mod.width /= k] on a BEVEL modifier. *)
Definition div_width (k : R) (m : Modifier) : Modifier :=
  match params m with
  | BevelParams w => with_params (BevelParams (w / k)) m
  | _ => m
  end.

(** [mod.type == t and mod.show_viewport]. *)
Definition shown (t : ModType) (m : Modifier) : bool :=
  ModType_eqb (mod_type m) t && show_viewport m.

(** [for mod in [mod for mod in obj.modifiers if mod.type == t and
    mod.show_viewport]: f(mod)], the modifiers being mutated in place. *)
Definition for_shown (t : ModType) (f : Modifier -> Modifier) (ms : list Modifier) : list Modifier :=
  List.map (fun m => if shown t m then f m else m) ms.

(** [obj.modifiers.new(name="Triangulate", type="TRIANGULATE")] followed by
    [keep_custom_normals = True] and [show_expanded = False]. *)
Definition new_triangulate : Modifier :=
  MkModifier "Triangulate" true false (TriangulateParams true).

(** [mesh.transform(mx)]. *)
Definition transform (mx : Matrix) (m : Mesh) : Mesh :=
  MkMesh (List.map (mat_vec mx) (vertices m)).

(** [obj.data = obj.data.copy()] followed by [obj.data.transform(mx)]: the
    copy is a new block of [bpy.data.meshes]. *)
Definition copy_and_transform (obj : handle) (mx : Matrix) (st : Blend) : result Blend :=
  bind (of_option (data (objects st obj)) AttributeError) (fun d =>
  bind (of_option (meshes st !! d) ReferenceError) (fun m =>
  let d' := fresh (dom (meshes st)) in
  Ok (set_meshes (<[d' := transform mx m]> (meshes st))
        (update_object obj (set_data (Some d')) st)))).

(** Lines 59-124 of [prepare_for_export]: what is done to [obj] itself. *)
Definition prepare_object (obj : handle) (matrices : gmap handle Matrix)
    (triangulate : bool) (st : Blend) : result Blend :=
  let st := update_object obj (fun o => set_M3 (set_unity_exported true (M3 o)) o) st in
  bind (of_option (matrices !! obj) KeyError) (fun mx =>
  let st := update_object obj (fun o => set_M3 (set_pre_unity_export_mx (flatten_matrix mx) (M3 o)) o) st in
  let '(loc, rot, sca) := decompose mx in
  let rotation := Rotation (radians 90) AX in
  let scale := get_sca_matrix (vec_div sca 100) in
  let st := update_object obj
              (set_matrix_world (matmul (matmul (matmul (get_loc_matrix loc) (get_rot_matrix rot)) rotation) scale)) st in
  let st := update_object obj (fun o => set_modifiers (for_shown MIRROR swap_mirror_axes (modifiers o)) o) st in
  let st := update_object obj (fun o => set_modifiers (for_shown BEVEL (mul_width 100) (modifiers o)) o) st in
  let st := if triangulate && ObjType_eqb (type (objects st obj)) MESH
            then update_object obj (fun o => set_modifiers (modifiers o ++ [new_triangulate]) o) st
            else st in
  match type (objects st obj) with
  | EMPTY => Ok (update_object obj (fun o => set_empty_display_size (empty_display_size o * 100) o) st)
  | MESH =>
      let st := update_object obj (fun o => set_M3 (set_pre_unity_export_mesh (data o) (M3 o)) o) st in
      copy_and_transform obj (matmul (Rotation (radians (-90)) AX) (Scale 100)) st
  | OTHER => Ok st
  end).

(** What one prepare visit makes of a modifier, per modifier type. *)
Definition prepared_modifier (m : Modifier) : Modifier :=
  match params m with
  | MirrorParams a b c =>
      if show_viewport m
      then with_params (MirrorParams (swap_yz a) (swap_yz b) (swap_yz c)) m
      else m
  | BevelParams w => if show_viewport m then with_params (BevelParams (w * 100)) m else m
  | _ => m
  end.

(** The world matrix a prepare visit assigns, from the collected one. *)
Definition prepared_matrix (mx : Matrix) : Matrix :=
  let '(loc, rot, sca) := decompose mx in
  matmul (matmul (matmul (get_loc_matrix loc) (get_rot_matrix rot)) (Rotation (radians 90) AX))
         (get_sca_matrix (vec_div sca 100)).

(** The object a prepare visit leaves behind, [mx] being the collected
    matrix and [d'] the mesh block made for it. *)
Definition prepared (mx : Matrix) (triangulate : bool) (d' : mesh_id) (o : Object) : Object :=
  MkObject (type o) (prepared_matrix mx) (location o)
    (List.map prepared_modifier (modifiers o)
       ++ (if triangulate && ObjType_eqb (type o) MESH then [new_triangulate] else []))
    (match type o with MESH => Some d' | _ => data o end)
    (match type o with EMPTY => empty_display_size o * 100 | _ => empty_display_size o end)
    (select o)
    (MkM3 true (flatten_matrix mx)
          (match type o with MESH => data o | _ => pre_unity_export_mesh (M3 o) end))
    (parent o) (parent_type o) (parent_bone o) (pose_bones o).

(** [PrepareExport.prepare_for_export]. The [depth] and [child] arguments
    only feed the printed log and are left out. *)
Fixpoint prepare_for_export (t : Tree) (sel : list handle) (matrices : gmap handle Matrix)
    (triangulate : bool) (st : Blend) : result Blend :=
  match t with
  | Node obj children =>
      if bool_decide (obj ∈ sel) then
        bind (prepare_object obj matrices triangulate st) (fun st =>
          for_each
            (fun child st =>
               if bool_decide (root child ∈ sel)
               then prepare_for_export child sel matrices triangulate st
               else Ok st)
            children st)
      else Ok st
  end.

(** The objects a walk from [t] reaches: [t]'s root if it is in scope, and
    then what the walks from its children reach. *)
Fixpoint visited (t : Tree) (scope : list handle) : list handle :=
  match t with
  | Node obj children =>
      if bool_decide (obj ∈ scope)
      then obj :: List.flat_map (fun child => visited child scope) children
      else []
  end.

(** All objects of a tree, parents before children. *)
Fixpoint handles (t : Tree) : list handle :=
  match t with
  | Node obj children => obj :: List.flat_map handles children
  end.

(** [k] lies in [t] and every object on the way from [t]'s root down to
    [k], both included, is in scope. *)
Inductive reaches (scope : list handle) : Tree -> handle -> Prop :=
| reaches_root (obj : handle) (children : list Tree) :
    obj ∈ scope -> reaches scope (Node obj children) obj
| reaches_child (obj : handle) (children : list Tree) (child : Tree) (k : handle) :
    obj ∈ scope -> child ∈ children -> reaches scope child k ->
    reaches scope (Node obj children) k.

(** What one restore visit makes of a modifier, per modifier type. *)
Definition restored_modifier (m : Modifier) : Modifier :=
  match params m with
  | MirrorParams a b c =>
      if show_viewport m
      then with_params (MirrorParams (swap_yz a) (swap_yz b) (swap_yz c)) m
      else m
  | BevelParams w => if show_viewport m then with_params (BevelParams (w / 100)) m else m
  | _ => m
  end.

(** The modifier sequence with its last element dropped if that is a
    TRIANGULATE modifier. *)
Definition without_last_triangulate (ms : list Modifier) : list Modifier :=
  match last ms with
  | Some lastmod => if ModType_eqb (mod_type lastmod) TRIANGULATE then List.removelast ms else ms
  | None => ms
  end.

(** The object a restore visit leaves behind. *)
Definition restored (detriangulate : bool) (o : Object) : Object :=
  let ms := List.map restored_modifier (modifiers o) in
  let back := match type o, pre_unity_export_mesh (M3 o) with
              | MESH, Some _ => true | _, _ => false end in
  MkObject (type o) (matrix_of_flat (pre_unity_export_mx (M3 o))) (location o)
    (if detriangulate then without_last_triangulate ms else ms)
    (if back then pre_unity_export_mesh (M3 o) else data o)
    (match type o with EMPTY => empty_display_size o / 100 | _ => empty_display_size o end)
    (select o)
    (MkM3 false (flatten_matrix identity)
          (if back then None else pre_unity_export_mesh (M3 o)))
    (parent o) (parent_type o) (parent_bone o) (pose_bones o).

(** The modifiers of one type, in sequence order. *)
Definition of_type (t : ModType) (ms : list Modifier) : list Modifier :=
  List.filter (fun m => ModType_eqb (mod_type m) t) ms.

(** The mesh block a restore visit releases, if any. *)
Definition released_by (o : Object) : list mesh_id :=
  match type o, pre_unity_export_mesh (M3 o), data o with
  | MESH, Some _, Some d => [d]
  | _, _, _ => []
  end.

(** [st'] is [st] after prepare visits to exactly the objects [V]: each of
    them is the [prepared] form of what it was, on a mesh block that did not
    exist before, nothing else changed, and the old mesh blocks are all
    still there. *)
Definition prepares (matrices : gmap handle Matrix) (triangulate : bool) (V : list handle)
    (st st' : Blend) : Prop :=
  meshes st ⊆ meshes st'
  /\ (forall k : handle, k ∉ V -> objects st' k = objects st k)
  /\ (forall k : handle, k ∈ V ->
        exists (mx : Matrix) (d' : mesh_id),
          matrices !! k = Some mx
          /\ objects st' k = prepared mx triangulate d' (objects st k)
          /\ (type (objects st k) = MESH -> meshes st !! d' = None)).

(** The objects [V] can be prepared in [st]: their matrix was collected,
    and a MESH among them has its mesh block. *)
Definition ready (matrices : gmap handle Matrix) (V : list handle) (st : Blend) : Prop :=
  forall k : handle, k ∈ V ->
    is_Some (matrices !! k)
    /\ (type (objects st k) = MESH ->
        exists (d : mesh_id) (m : Mesh), data (objects st k) = Some d /\ meshes st !! d = Some m).

(** [acc'] is [acc] after restore visits to exactly the objects [V]. *)
Definition restores (detriangulate : bool) (V : list handle)
    (acc acc' : Blend * list mesh_id) : Prop :=
  meshes (fst acc') = meshes (fst acc)
  /\ (forall k : handle, k ∉ V -> objects (fst acc') k = objects (fst acc) k)
  /\ (forall k : handle, k ∈ V ->
        objects (fst acc') k = restored detriangulate (objects (fst acc) k))
  /\ (forall d : mesh_id, d ∈ snd acc' ->
        d ∈ snd acc \/ exists k : handle, k ∈ V /\ d ∈ released_by (objects (fst acc) k)).

(** The export-state invariant: an object flagged as prepared carries the
    flattened world matrix that was collected for it. *)
Definition annotated (matrices : gmap handle Matrix) (st : Blend) : Prop :=
  forall k : handle,
    unity_exported (M3 (objects st k)) = true ->
    exists mx : Matrix,
      matrices !! k = Some mx /\ pre_unity_export_mx (M3 (objects st k)) = flatten_matrix mx.

(** [obj.parent] is [None]: [obj] is a top-level node of the hierarchy. *)
Definition top_level (forest : list Tree) (h : handle) : option Tree :=
  List.find (fun t => Nat.eqb (root t) h) forest.

(** [[obj for obj in objs if not obj.parent]], each with its subtree. *)
Definition roots_of (forest : list Tree) (objs : list handle) : list Tree :=
  omap (top_level forest) objs.

(** The selection [PrepareExport.invoke] works on: the selected objects,
    or every visible object when none is selected. *)
Definition effective_selection (ctx : Context) (st : Blend) : list handle :=
  match selected_objects ctx st with
  | [] => visible_objects ctx
  | sel => sel
  end.

(** The objects a prepare or restore run reaches from the parentless
    objects of [scope]. *)
Definition reached (ctx : Context) (scope : list handle) : list handle :=
  List.flat_map (fun t => visited t scope) (roots_of (hierarchy ctx) scope).

(** [PrepareExport.poll]. *)
Definition prepare_poll (ctx : Context) (st : Blend) : bool :=
  forallb (fun h => negb (unity_exported (M3 (objects st h)))) (visible_objects ctx).

(** [PrepareExport.invoke]. The FBX exporter is an outside collaborator
    and leaves the data untouched. *)
Definition prepare_invoke (ctx : Context) (event : Event) (st : Blend) : result (Status * Blend) :=
  let st := match selected_objects ctx st with
            | [] => List.fold_left (fun s h => update_object h (set_select true) s) (visible_objects ctx) st
            | _ => st
            end in
  let sel := selected_objects ctx st in
  let matrices : gmap handle Matrix :=
    list_to_map (List.map (fun h => (h, matrix_world (objects st h))) sel) in
  let roots := roots_of (hierarchy ctx) sel in
  bind (for_each (fun t => prepare_for_export t sel matrices (unity_triangulate ctx)) roots st)
       (fun st => Ok (FINISHED, st)).

(** Lines 173-225 of [restore_exported]: what is done to [obj] itself;
    [released] is the shared list [meshes] the walk appends to (a MESH
    object always has data, so nothing is appended for a missing one). *)
Definition restore_object (obj : handle) (detriangulate : bool)
    (st : Blend) (released : list mesh_id) : Blend * list mesh_id :=
  let st := update_object obj (fun o => set_matrix_world (matrix_of_flat (pre_unity_export_mx (M3 o))) o) st in
  let st := update_object obj (fun o => set_M3 (set_pre_unity_export_mx (flatten_matrix identity) (M3 o)) o) st in
  let st := update_object obj (fun o => set_M3 (set_unity_exported false (M3 o)) o) st in
  let st := update_object obj (fun o => set_modifiers (for_shown MIRROR swap_mirror_axes (modifiers o)) o) st in
  let st := update_object obj (fun o => set_modifiers (for_shown BEVEL (div_width 100) (modifiers o)) o) st in
  let st := if detriangulate then
              match last (modifiers (objects st obj)) with
              | Some lastmod =>
                  if ModType_eqb (mod_type lastmod) TRIANGULATE
                  then update_object obj (fun o => set_modifiers (List.removelast (modifiers o)) o) st
                  else st
              | None => st
              end
            else st in
  let o := objects st obj in
  match type o, pre_unity_export_mesh (M3 o) with
  | EMPTY, _ => (update_object obj (fun o => set_empty_display_size (empty_display_size o / 100) o) st, released)
  | MESH, Some saved =>
      let released := released ++ match data o with Some d => [d] | None => [] end in
      let st := update_object obj (set_data (Some saved)) st in
      (update_object obj (fun o => set_M3 (set_pre_unity_export_mesh None (M3 o)) o) st, released)
  | _, _ => (st, released)
  end.

(** [RestoreExport.restore_exported]; the state is the data together with
    the shared list [meshes]. *)
Fixpoint restore_exported (t : Tree) (exported : list handle) (detriangulate : bool)
    (acc : Blend * list mesh_id) : Blend * list mesh_id :=
  match t with
  | Node obj children =>
      if bool_decide (obj ∈ exported) then
        List.fold_left
          (fun acc child =>
             if bool_decide (root child ∈ exported)
             then restore_exported child exported detriangulate acc
             else acc)
          children (restore_object obj detriangulate (fst acc) (snd acc))
      else acc
  end.

(** [RestoreExport.poll]: some visible object is flagged. *)
Definition restore_poll (ctx : Context) (st : Blend) : bool :=
  existsb (fun h => unity_exported (M3 (objects st h))) (visible_objects ctx).

(** [bpy.data.batch_remove(meshes)]. *)
Definition batch_remove (ids : list mesh_id) (st : Blend) : Blend :=
  set_meshes (List.fold_left (fun ms d => delete d ms) ids (meshes st)) st.

(** [RestoreExport.execute]. *)
Definition restore_execute (ctx : Context) (st : Blend) : Status * Blend :=
  let detriangulate := unity_triangulate ctx in
  let exported := List.filter (fun h => unity_exported (M3 (objects st h))) (visible_objects ctx) in
  let roots := roots_of (hierarchy ctx) exported in
  let '(st, released) :=
    List.fold_left (fun acc t => restore_exported t exported detriangulate acc)
                   roots (st, []) in
  (FINISHED, batch_remove released st).

(** The walk [prepare_for_export] makes from [t] returns and prepares
    exactly the objects [visited] lists. *)
Definition prepare_walks (sel : list handle) (matrices : gmap handle Matrix)
    (triangulate : bool) (t : Tree) : Prop :=
  forall st : Blend,
    NoDup (visited t sel) ->
    ready matrices (visited t sel) st ->
    exists st' : Blend,
      prepare_for_export t sel matrices triangulate st = Ok st'
      /\ prepares matrices triangulate (visited t sel) st st'.

(** The walk [restore_exported] makes from [t] restores exactly the
    objects [visited] lists. *)
Definition restore_walks (exported : list handle) (detriangulate : bool) (t : Tree) : Prop :=
  forall acc : Blend * list mesh_id,
    NoDup (visited t exported) ->
    restores detriangulate (visited t exported) acc
             (restore_exported t exported detriangulate acc).

End Unity.

(* ===================================================================== *)
(** * [operators/align.py] *)
(* ===================================================================== *)

Module Align.
Import Mathutils UtilsMath Scene.
Local Open Scope R_scope.

(** The operator properties the modelled methods read. *)
Record Props := MkProps {
  location : bool;
  loc_x : bool;
  loc_y : bool;
  loc_z : bool;
  parent_to_bone : bool;
  align_z_to_y : bool;
  roll : bool;
  roll_amount : R
}.

(** Body of the loop of [align_to_origin]. The Euler angles the source
    also extracts are not used by it. *)
Definition origin_matrix (p : Props) (omx : Matrix) : Matrix :=
  let '(oloc, orot, osca) := decompose omx in
  let loc :=
    if location p then
      let locx := if loc_x p then 0 else vx oloc in
      let locy := if loc_y p then 0 else vy oloc in
      let locz := if loc_z p then 0 else vz oloc in
      get_loc_matrix (Vec locx locy locz)
    else get_loc_matrix oloc in
  let rot := quat_to_matrix orot in
  let sca := get_sca_matrix osca in
  matmul (matmul loc rot) sca.

(** [Align.align_to_origin]. *)
Definition align_to_origin (p : Props) (sel : list handle) (st : Blend) : Blend :=
  List.fold_left
    (fun st obj => update_object obj (fun o => set_matrix_world (origin_matrix p (matrix_world o)) o) st)
    sel st.

(** The matrix [align_to_active_bone] assigns, from the armature's world
    matrix and the pose bone's matrix. *)
Definition bone_matrix (p : Props) (armature_mx bone_mx : Matrix) : Matrix :=
  let angle := radians (if roll p then roll_amount p else 0) in
  if align_z_to_y p then
    matmul (matmul (matmul armature_mx bone_mx) (Rotation (radians (-90)) AX)) (Rotation angle AZ)
  else
    matmul (matmul armature_mx bone_mx) (Rotation angle AY).

(** The matrix the specification describes for the joint variant: joint
    world transform, then the axis correction if enabled, then a roll about
    Z. Written from the specification's words, to be compared with
    [bone_matrix]. *)
Definition spec_bone_matrix (p : Props) (armature_mx bone_mx : Matrix) : Matrix :=
  let joint_world_transform := matmul armature_mx bone_mx in
  let fixed_axis_correction :=
    if align_z_to_y p then Rotation (radians (-90)) AX else identity in
  let optional_roll := Rotation (radians (if roll p then roll_amount p else 0)) AZ in
  matmul (matmul joint_world_transform fixed_axis_correction) optional_roll.

(** Body of the loop of [align_to_active_bone]. *)
Definition bone_step (p : Props) (armature : handle) (bonename : string)
    (bone : Matrix) (st : Blend) (obj : handle) : Blend :=
  let st := if parent_to_bone p
            then update_object obj (set_parenting (Some armature) PARENT_BONE bonename) st
            else st in
  update_object obj
    (set_matrix_world (bone_matrix p (matrix_world (objects st armature)) bone)) st.

(** [Align.align_to_active_bone]. *)
Definition align_to_active_bone (p : Props) (armature : handle) (bonename : string)
    (sel : list handle) (st : Blend) : result Blend :=
  bind (of_option (pose_bones (objects st armature) !! bonename) KeyError) (fun bone =>
  Ok (List.fold_left (bone_step p armature bonename bone) sel st)).

(** Python's [min] over a sequence of floats; empty raises [ValueError]. *)
Definition min_of (l : list R) : result R :=
  match l with
  | [] => Raise ValueError
  | x :: l => Ok (List.fold_left Rmin l x)
  end.

(** Body of the loop of [drop_to_floor]. *)
Definition drop_object (obj : handle) (st : Blend) : result Blend :=
  let o := objects st obj in
  let mx := matrix_world o in
  match type o with
  | MESH =>
      bind (of_option (data o) AttributeError) (fun d =>
      bind (of_option (meshes st !! d) ReferenceError) (fun mesh =>
      bind (min_of (List.map (fun v => vz (mat_vec mx v)) (vertices mesh))) (fun minz =>
      Ok (update_object obj (set_matrix_world (sub_translation_z mx minz)) st))))
  | EMPTY =>
      Ok (update_object obj (set_matrix_world (sub_translation_z mx (vz (Scene.location o)))) st)
  | OTHER => Ok st
  end.

(** [Align.drop_to_floor]. *)
Definition drop_to_floor (selection : list handle) (st : Blend) : result Blend :=
  for_each drop_object selection st.


(** The modes of [modeitems]. *)
Inductive Mode := ORIGIN | CURSOR | ACTIVE | FLOOR.

(** The operator properties beyond those of [Props]. *)
Record Settings := MkSettings {
  props : Props;
  inbetween : bool;
  mode : Mode;
  rotation : bool;
  scale : bool;
  rot_x : bool;
  rot_y : bool;
  rot_z : bool;
  sca_x : bool;
  sca_y : bool;
  sca_z : bool
}.

(** What [Align.execute] reads from [context]; the cursor's rotation is
    its [rotation_euler] in the mode 'XYZ' that [align_to_cursor] sets. *)
Record Context := MkContext {
  active_object : option handle;
  selected_objects : list handle;
  active_bone : option string;
  cursor_location : Vector;
  cursor_rotation_euler : Euler
}.

Inductive Status := FINISHED | CANCELLED.

(** What a run can raise: [IndexError] from [locations[1]], [TypeError]
    from storing [None] in the boolean property [is_inbetween], or one of
    the exceptions of the callees. *)
Inductive failure := IndexError | TypeError | Raised (e : exn).

Section External.

(** [Quaternion.to_euler('XYZ')], [Vector.rotation_difference] and
    [average_locations] of [utils/math.py] are taken as given. *)
Variable to_euler : Quaternion -> Euler.
Variable rotation_difference : Vector -> Vector -> Quaternion.
Variable average_locations : list Vector -> Vector.

(** Body of the loop of [align_to_cursor]. *)
Definition cursor_matrix (s : Settings) (cloc : Vector) (crot : Euler) (omx : Matrix) : Matrix :=
  let '(oloc, orot, osca) := decompose omx in
  let oeul := to_euler orot in
  let loc :=
    if location (props s) then
      let locx := if loc_x (props s) then vx cloc else vx oloc in
      let locy := if loc_y (props s) then vy cloc else vy oloc in
      let locz := if loc_z (props s) then vz cloc else vz oloc in
      get_loc_matrix (Vec locx locy locz)
    else get_loc_matrix oloc in
  let rot :=
    if rotation s then
      let rotx := if rot_x s then ex crot else ex oeul in
      let roty := if rot_y s then ey crot else ey oeul in
      let rotz := if rot_z s then ez crot else ez oeul in
      euler_to_matrix (MkEuler rotx roty rotz)
    else get_rot_matrix orot in
  let sca := get_sca_matrix osca in
  matmul (matmul loc rot) sca.

(** [Align.align_to_cursor]. *)
Definition align_to_cursor (s : Settings) (cloc : Vector) (crot : Euler)
    (sel : list handle) (st : Blend) : Blend :=
  List.fold_left
    (fun st obj =>
       update_object obj (fun o => set_matrix_world (cursor_matrix s cloc crot (matrix_world o)) o) st)
    sel st.

(** Body of the loop of [align_to_active_object], [amx] being the active
    object's world matrix as read before the loop. *)
Definition active_matrix (s : Settings) (amx omx : Matrix) : Matrix :=
  let '(aloc, arot, asca) := decompose amx in
  let aeul := to_euler arot in
  let '(oloc, orot, osca) := decompose omx in
  let oeul := to_euler orot in
  let loc :=
    if location (props s) then
      let locx := if loc_x (props s) then vx aloc else vx oloc in
      let locy := if loc_y (props s) then vy aloc else vy oloc in
      let locz := if loc_z (props s) then vz aloc else vz oloc in
      get_loc_matrix (Vec locx locy locz)
    else get_loc_matrix oloc in
  let rot :=
    if rotation s then
      let rotx := if rot_x s then ex aeul else ex oeul in
      let roty := if rot_y s then ey aeul else ey oeul in
      let rotz := if rot_z s then ez aeul else ez oeul in
      euler_to_matrix (MkEuler rotx roty rotz)
    else get_rot_matrix orot in
  let sca :=
    if scale s then
      let scax := if sca_x s then vx asca else vx osca in
      let scay := if sca_y s then vy asca else vy osca in
      let scaz := if sca_z s then vz asca else vz osca in
      get_sca_matrix (Vec scax scay scaz)
    else get_sca_matrix osca in
  matmul (matmul loc rot) sca.

(** [Align.align_to_active_object]. *)
Definition align_to_active_object (s : Settings) (active : handle) (sel : list handle)
    (st : Blend) : Blend :=
  let amx := matrix_world (objects st active) in
  List.fold_left
    (fun st obj =>
       update_object obj (fun o => set_matrix_world (active_matrix s amx (matrix_world o)) o) st)
    sel st.

(** [Align.align_in_between]. *)
Definition align_in_between (active : handle) (sel : list handle) (st : Blend)
    : failure + Blend :=
  let '(_, rot, sca) := decompose (matrix_world (objects st active)) in
  let locations := List.map (fun obj => translation (matrix_world (objects st obj))) sel in
  let active_up := quat_rotate rot (Vec 0 0 1) in
  match locations with
  | l0 :: l1 :: _ =>
      let sel_up := vec_sub l1 l0 in
      inr (update_object active
             (set_matrix_world
                (matmul (matmul (get_loc_matrix (average_locations locations))
                                (get_rot_matrix (quat_mul (rotation_difference active_up sel_up) rot)))
                        (get_sca_matrix sca))) st)
  | _ => inl IndexError
  end.

(** [sel.remove(active)]: the first occurrence is dropped. *)
Fixpoint remove_first (a : handle) (l : list handle) : list handle :=
  match l with
  | [] => []
  | x :: l => if Nat.eqb x a then l else x :: remove_first a l
  end.

Definition lift (r : result Blend) : failure + Blend :=
  match r with Ok st => inr st | Raise e => inl (Raised e) end.

(** [len(sel) == 3 and active and active in sel] as assigned to the
    boolean property [is_inbetween]: with three objects selected and no
    active object the expression is [None], which the property refuses. *)
Definition decide_inbetween (active : option handle) (sel : list handle) : failure + bool :=
  if Nat.eqb (length sel) 3 then
    match active with
    | Some a => inr (bool_decide (a ∈ sel))
    | None => inl TypeError
    end
  else inr false.

(** [Align.execute]: the status it returns, the value it stores in
    [is_inbetween] and the data it leaves, or what it raises. *)
Definition execute (s : Settings) (ctx : Context) (st : Blend)
    : failure + (Status * bool * Blend) :=
  let active := active_object ctx in
  let sel := selected_objects ctx in
  match decide_inbetween active sel with
  | inl e => inl e
  | inr is_inbetween =>
      let done (r : failure + Blend) :=
        match r with inr st => inr (FINISHED, is_inbetween, st) | inl e => inl e end in
      if is_inbetween && inbetween s then
        match active with
        | Some a =>
            done (align_in_between a (List.filter (fun obj => negb (Nat.eqb obj a)) sel) st)
        | None => done (inr st)
        end
      else
        match mode s with
        | ORIGIN => done (inr (align_to_origin (props s) sel st))
        | CURSOR =>
            done (inr (align_to_cursor s (cursor_location ctx) (cursor_rotation_euler ctx)
                                       sel st))
        | ACTIVE =>
            match active with
            | Some a =>
                if bool_decide (a ∈ sel) then
                  let sel := remove_first a sel in
                  match active_bone ctx with
                  | Some bonename =>
                      done (lift (align_to_active_bone (props s) a bonename sel st))
                  | None => done (inr (align_to_active_object s a sel st))
                  end
                else done (inr st)
            | None => done (inr st)
            end
        | FLOOR => done (lift (drop_to_floor sel st))
        end
  end.

End External.

End Align.

(* ===================================================================== *)
(** * [ui/operators/cursor.py] *)
(* ===================================================================== *)

Module Cursor.
Import Mathutils UtilsMath Scene.
Local Open Scope R_scope.

Inductive Mode := OBJECT | EDIT_MESH | OTHER_MODE.

Inductive Status := FINISHED | CANCELLED.

Record Event := MkEvent { alt : bool; ctrl : bool }.

(** [get_prefs()] and the active tool, read only. *)
Record Prefs := MkPrefs {
  cursor_set_transform_preset : bool;
  cursor_toggle_axes_drawing : bool;
  activate_transform_pie : bool;
  activate_shading_pie : bool;
  hyper_cursor_tool_active : bool
}.

(** Everything the cursor operators can read or write. [saved_preset] is
    the module global [cursor]. *)
Record Session := MkSession {
  blend : Blend;
  selected : list handle;
  active_object : option handle;
  mode : Mode;
  show_cursor : bool;
  cursor_location : Vector;
  cursor_rotation : Quaternion;
  transform_pivot_point : string;
  transform_orientation : string;
  saved_preset : option (string * string);
  axes_handler : bool
}.

(** What an invocation leaves behind: the returned status or the raised
    exception, the messages shown to the user, and the session as it is
    then. *)
Record Outcome := MkOutcome {
  status : result Status;
  messages : list (string * string);
  final : Session
}.

Definition set_show_cursor (b : bool) (s : Session) : Session :=
  MkSession (blend s) (selected s) (active_object s) (mode s) b (cursor_location s)
            (cursor_rotation s) (transform_pivot_point s) (transform_orientation s)
            (saved_preset s) (axes_handler s).

Definition set_active_object (a : option handle) (s : Session) : Session :=
  MkSession (blend s) (selected s) a (mode s) (show_cursor s) (cursor_location s)
            (cursor_rotation s) (transform_pivot_point s) (transform_orientation s)
            (saved_preset s) (axes_handler s).

Definition set_saved_preset (p : option (string * string)) (s : Session) : Session :=
  MkSession (blend s) (selected s) (active_object s) (mode s) (show_cursor s) (cursor_location s)
            (cursor_rotation s) (transform_pivot_point s) (transform_orientation s)
            p (axes_handler s).

Definition set_axes_handler (b : bool) (s : Session) : Session :=
  MkSession (blend s) (selected s) (active_object s) (mode s) (show_cursor s) (cursor_location s)
            (cursor_rotation s) (transform_pivot_point s) (transform_orientation s)
            (saved_preset s) b.

(** Modelled from the spec: [set_cursor] of [utils/scene.py] is not among
    the sources; it writes the "mutated cursor Transform", location and
    rotation. *)
Definition set_cursor (loc : Vector) (rot : Quaternion) (s : Session) : Session :=
  MkSession (blend s) (selected s) (active_object s) (mode s) (show_cursor s) loc
            rot (transform_pivot_point s) (transform_orientation s)
            (saved_preset s) (axes_handler s).

(** Modelled from the spec: the operator [machin3.set_transform_preset] is
    not among the sources; it sets the "pivot/orientation setting". *)
Definition set_transform_preset (pivot orientation : string) (s : Session) : Session :=
  MkSession (blend s) (selected s) (active_object s) (mode s) (show_cursor s) (cursor_location s)
            (cursor_rotation s) pivot orientation
            (saved_preset s) (axes_handler s).

Definition invalid_keys : string * string :=
  ("Invalid Modifier Keys", "Hold down ATL, CTRL or neither, not both!").

(** [CursorToOrigin.invoke]. *)
Definition cursor_to_origin_invoke (prefs : Prefs) (event : Event) (s : Session) : Outcome :=
  if alt event && ctrl event then MkOutcome (Ok CANCELLED) [invalid_keys] s
  else
    let s := if negb (show_cursor s) then set_show_cursor true s else s in
    let s := set_cursor (if ctrl event then cursor_location s else Vec 0 0 0)
                        (if alt event then cursor_rotation s else Quat 1 0 0 0) s in
    let s := if cursor_set_transform_preset prefs then
               match saved_preset s with
               | Some (pivot, orientation) =>
                   set_saved_preset None (set_transform_preset pivot orientation s)
               | None => s
               end
             else s in
    let s := if cursor_toggle_axes_drawing prefs && axes_handler s
             then set_axes_handler false s else s in
    MkOutcome (Ok FINISHED) [] s.

Section CursorToSelected.

(** The mesh-element branch and Blender's own snap operator work on edit
    mesh data that is not modelled; they are taken as given. *)
Variable cursor_to_editmesh : Event -> Session -> Session.
Variable snap_cursor_to_selected : Session -> Session.

(** [CursorToSelected.cursor_to_active_object]. *)
Definition cursor_to_active_object (active : handle) (cloc : Vector) (crot : Quaternion)
    (only_location only_rotation : bool) (s : Session) : Session :=
  let '(loc, rot, _) := decompose (matrix_world (objects (blend s) active)) in
  set_cursor (if only_rotation then cloc else loc) (if only_location then crot else rot) s.

(** [CursorToSelected.set_cursor_transform_preset]. *)
Definition set_cursor_transform_preset (s : Session) : Session :=
  let pivot := transform_pivot_point s in
  let orientation := transform_orientation s in
  let s := if negb (String.eqb pivot "CURSOR") && negb (String.eqb orientation "CURSOR")
           then set_saved_preset (Some (pivot, orientation)) s else s in
  set_transform_preset "CURSOR" "CURSOR" s.

(** [CursorToSelected.enable_cursor_axes_drawing]. *)
Definition enable_cursor_axes_drawing (s : Session) : Session :=
  set_axes_handler true (if axes_handler s then set_axes_handler false s else s).

Definition presets_and_axes (prefs : Prefs) (s : Session) : Session :=
  if negb (hyper_cursor_tool_active prefs) then
    let s := if activate_transform_pie prefs && cursor_set_transform_preset prefs
             then set_cursor_transform_preset s else s in
    if activate_shading_pie prefs && cursor_toggle_axes_drawing prefs
    then enable_cursor_axes_drawing s else s
  else s.

(** [CursorToSelected.invoke]. *)
Definition cursor_to_selected_invoke (prefs : Prefs) (event : Event) (s : Session) : Outcome :=
  let s := if negb (show_cursor s) then set_show_cursor true s else s in
  let active := active_object s in
  let sel := List.filter (fun obj => negb (bool_decide (Some obj = active))) (selected s) in
  let cloc := cursor_location s in
  let crot := cursor_rotation s in
  match sel, active with
  | first :: _, None =>
      (* [sel.remove(active)] with [active] still [None], which [sel] does not hold *)
      MkOutcome (Raise ValueError) [] (set_active_object (Some first) s)
  | _, _ =>
      if alt event && ctrl event then MkOutcome (Ok CANCELLED) [invalid_keys] s
      else
        match mode s, active, sel with
        | OBJECT, Some a, [] =>
            let s := cursor_to_active_object a cloc crot (alt event) (ctrl event) s in
            MkOutcome (Ok FINISHED) [] (presets_and_axes prefs s)
        | EDIT_MESH, _, _ =>
            let s := cursor_to_editmesh event s in
            MkOutcome (Ok FINISHED) [] (presets_and_axes prefs s)
        | _, _, _ => MkOutcome (Ok FINISHED) [] (snap_cursor_to_selected s)
        end
  end.

End CursorToSelected.

End Cursor.

(* ===================================================================== *)
(** * Sample data *)
(* ===================================================================== *)

Module Samples.
Import Mathutils UtilsMath Scene.
Local Open Scope R_scope.

Definition no_M3 : M3Props := MkM3 false (flatten_matrix identity) None.

(** An object of the given type at the world origin, with the given
    modifiers and mesh block. *)
Definition plain (t : ObjType) (ms : list Modifier) (d : option mesh_id) : Object :=
  MkObject t identity (Vec 0 0 0) ms d 1 false no_M3 None PARENT_OBJECT "" ∅.

Definition selected_plain (t : ObjType) (ms : list Modifier) (d : option mesh_id) : Object :=
  set_select true (plain t ms d).

(** A file in which every handle is an EMPTY at the origin. *)
Definition empties : Blend := MkBlend (fun _ => plain EMPTY [] None) ∅.

(** A cursor session over [empties]: object 0 is active, nothing else is
    selected, and the cursor overlay is hidden. *)
Definition hidden_cursor : Cursor.Session :=
  Cursor.MkSession empties [0%nat] (Some 0%nat) Cursor.OBJECT false (Vec 0 0 0) (Quat 1 0 0 0)
                   "MEDIAN_POINT" "GLOBAL" None false.

Definition both_keys : Cursor.Event := Cursor.MkEvent true true.

(** Object 0 is an armature with one pose bone, "Bone", at its origin. *)
Definition rigged : Blend :=
  MkBlend (fun h => if Nat.eqb h 0
                    then MkObject OTHER identity (Vec 0 0 0) [] None 1 false no_M3 None
                                  PARENT_OBJECT "" {["Bone" := identity]}
                    else plain EMPTY [] None) ∅.

(** Mesh block 0 has vertices at local Z -2, 0 and 3; mesh block 1 has no
    vertices at all. *)
Definition floor_meshes : gmap mesh_id Mesh :=
  {[ 0%nat := MkMesh [Vec 0 0 (-2); Vec 1 0 0; Vec 0 1 3]; 1%nat := MkMesh [] ]}.

(** Objects 0 and 1 are MESH objects at the origin using mesh blocks 0 and
    1; every other object is an EMPTY. *)
Definition floor_scene : Blend :=
  MkBlend (fun h => match h with
                    | O => plain MESH [] (Some 0%nat)
                    | S O => plain MESH [] (Some 1%nat)
                    | _ => plain EMPTY [] None
                    end) floor_meshes.

(** Half a turn about Z, placed at [t]. *)
Definition half_turn_at (t : Vector) : Matrix :=
  Mat (MkRow (-1) 0 0 (vx t)) (MkRow 0 (-1) 0 (vy t)) (MkRow 0 0 1 (vz t)) (MkRow 0 0 0 1).

(** Object 0 is an EMPTY at (3, 4, 5), turned by half a turn about Z. *)
Definition turned : Blend :=
  MkBlend (fun h => if Nat.eqb h 0
                    then set_matrix_world (half_turn_at (Vec 3 4 5)) (plain EMPTY [] None)
                    else plain EMPTY [] None) ∅.

(** Location alignment on all three axes, the operator's defaults. *)
Definition all_axes : Align.Props :=
  Align.MkProps true true true true true true false 90.

Definition shown_mirror : Modifier :=
  MkModifier "Mirror" true true
             (MirrorParams (true, true, false) (false, true, false) (false, false, true)).

(** A MIRROR modifier that is switched off in the viewport. *)
Definition hidden_mirror : Modifier :=
  MkModifier "Mirror.001" false true
             (MirrorParams (true, true, false) (false, true, false) (false, false, true)).

Definition shown_bevel : Modifier := MkModifier "Bevel" true true (BevelParams 2).

(** A BEVEL modifier that is switched off in the viewport. *)
Definition hidden_bevel : Modifier := MkModifier "Bevel.001" false true (BevelParams 2).

Definition old_triangulate : Modifier :=
  MkModifier "Triangulate" true true (TriangulateParams false).

(** Object 0 is a selected MESH on mesh block 0 with two MIRROR and two
    BEVEL modifiers, one of each hidden in the viewport; every other object
    is an unselected EMPTY. *)
Definition workshop : Blend :=
  MkBlend (fun h => if Nat.eqb h 0
                    then selected_plain MESH
                           [shown_mirror; hidden_mirror; shown_bevel; hidden_bevel] (Some 0%nat)
                    else plain EMPTY [] None) floor_meshes.

(** Objects 0 and 1 are selected EMPTYs, every other object an unselected
    EMPTY. *)
Definition family : Blend :=
  MkBlend (fun h => if Nat.ltb h 2 then selected_plain EMPTY [] None else plain EMPTY [] None) ∅.

(** Object 0 with the children 1 and 2. *)
Definition family_tree : Tree := Node 0%nat [Node 1%nat []; Node 2%nat []].

(** Only object 1 is selected; in [orphan_context] it is the child of the
    unselected object 0. *)
Definition orphan : Blend :=
  MkBlend (fun h => if Nat.eqb h 1 then selected_plain EMPTY [] None else plain EMPTY [] None) ∅.

Definition orphan_context : Unity.Context :=
  Unity.MkContext [Node 0%nat [Node 1%nat []]] [0%nat; 1%nat] false "".

Definition no_keys : Unity.Event := Unity.MkEvent false false.

(** Object 0 is an EMPTY flagged as prepared, carrying the saved matrix of
    a half turn at (3, 4, 5). *)
Definition flagged : Blend :=
  MkBlend (fun h => if Nat.eqb h 0
                    then set_M3 (MkM3 true (flatten_matrix (half_turn_at (Vec 3 4 5))) None)
                                (plain EMPTY [] None)
                    else plain EMPTY [] None) ∅.

Definition flagged_matrices : gmap handle Matrix := {[ 0%nat := half_turn_at (Vec 3 4 5) ]}.

(** A scene of one parentless visible object, object 0. *)
Definition single_context (triangulate : bool) : Unity.Context :=
  Unity.MkContext [Node 0%nat []] [0%nat] triangulate "".

(** Object 0 is a selected object of type [t] on mesh block 0 whose only
    modifier is a TRIANGULATE modifier of its own. *)
Definition triangulated (t : ObjType) : Blend :=
  MkBlend (fun h => if Nat.eqb h 0
                    then selected_plain t [old_triangulate] (Some 0%nat)
                    else plain EMPTY [] None) floor_meshes.

(** Roll by the default 90 degrees with the Z-to-Y alignment switched off. *)
Definition roll_only : Align.Props :=
  Align.MkProps true true true true false false true 90.

(** Location alignment on X only; rotation and scale are not aligned. *)
Definition only_x : Align.Settings :=
  Align.MkSettings (Align.MkProps true true false false true true false 90)
                   false Align.ACTIVE false false true true true true true true.

(** Location alignment on all axes; rotation and scale are not aligned. *)
Definition location_only (m : Align.Mode) (inb : bool) : Align.Settings :=
  Align.MkSettings all_axes inb m false false true true true true true true.

(** Objects 1 and 2 sit at (0, 0, 0) and (10, 0, 0), object 0 is the half
    turn at (3, 4, 5); every other object is an EMPTY at the origin. *)
Definition trio : Blend :=
  MkBlend (fun h => match h with
                    | O => set_matrix_world (half_turn_at (Vec 3 4 5)) (plain EMPTY [] None)
                    | S (S O) => set_matrix_world (Translation (Vec 10 0 0)) (plain EMPTY [] None)
                    | _ => plain EMPTY [] None
                    end) ∅.

(** The align operator's own defaults for the given mode: location and
    rotation are aligned on all axes, scale is not, in-between is off. *)
Definition defaults (m : Align.Mode) : Align.Settings :=
  Align.MkSettings all_axes false m true false true true true true true true.


(** A conversion to Euler angles that is only right for the identity. *)
Definition flat_euler (q : Quaternion) : Euler := MkEuler 0 0 0.

(** Objects 0, 1 and 2 are selected, with the given active object. *)
Definition three_selected (active : option handle) : Align.Context :=
  Align.MkContext active [0%nat; 1%nat; 2%nat] None (Vec 1 2 3) (MkEuler 0 0 0).

(** Every preference of the cursor operators switched on, the hyper
    cursor tool not being active. *)
Definition all_prefs : Cursor.Prefs := Cursor.MkPrefs true true true true false.

Definition plain_click : Cursor.Event := Cursor.MkEvent false false.

End Samples.

(* ===================================================================== *)
(** * Facts about the matrix primitives *)
(* ===================================================================== *)

Section MatrixFacts.
Import Mathutils UtilsMath.
Local Open Scope R_scope.

Lemma radians_90 : radians 90 = PI / 2.
Proof. unfold radians. lra. Qed.

Lemma radians_0 : radians 0 = 0.
Proof. unfold radians. lra. Qed.

Lemma Matrix_eq (a b : Matrix) :
  row0 a = row0 b -> row1 a = row1 b -> row2 a = row2 b -> row3 a = row3 b -> a = b.
Proof. destruct a, b; simpl; intros; congruence. Qed.

Lemma Row_eq (a b : Row) :
  r0 a = r0 b -> r1 a = r1 b -> r2 a = r2 b -> r3 a = r3 b -> a = b.
Proof. destruct a, b; simpl; intros; congruence. Qed.

Lemma matmul_identity_l (m : Matrix) : matmul identity m = m.
Proof.
  destruct m as [[] [] [] []].
  unfold matmul, row_mul, dot, identity; simpl.
  apply Matrix_eq; simpl; apply Row_eq; simpl; lra.
Qed.

Lemma matmul_identity_r (m : Matrix) : matmul m identity = m.
Proof.
  destruct m as [[] [] [] []].
  unfold matmul, row_mul, dot, identity; simpl.
  apply Matrix_eq; simpl; apply Row_eq; simpl; lra.
Qed.

(** A rotation by the angle zero is the identity, about any axis. *)
Lemma Rotation_0 (axis : Axis) : Rotation 0 axis = identity.
Proof.
  unfold Rotation, identity. rewrite cos_0, sin_0.
  destruct axis; repeat f_equal; lra.
Qed.

End MatrixFacts.

(* ===================================================================== *)
(** * Cursor operators *)
(* ===================================================================== *)

Section CursorFacts.
Import Mathutils UtilsMath Scene Samples.

(** [CursorToOrigin.invoke] checks the keys before anything else: with ALT
    and CTRL both held it shows the message, returns CANCELLED and leaves
    the session as it found it. *)
Lemma cursor_to_origin_rejects_both_keys (prefs : Cursor.Prefs) (s : Cursor.Session) :
  Cursor.cursor_to_origin_invoke prefs (Cursor.MkEvent true true) s
  = Cursor.MkOutcome (Ok Cursor.CANCELLED) [Cursor.invalid_keys] s.
Proof. reflexivity. Qed.

(** C3, at the failing input: [CursorToSelected.invoke] with ALT and CTRL
    both held and the cursor overlay hidden returns CANCELLED with the
    message, but it has already switched the overlay on, so the session it
    leaves differs from the one it was given. *)
Theorem cursor_to_selected_mutates_before_check
    (editmesh : Cursor.Event -> Cursor.Session -> Cursor.Session)
    (snap : Cursor.Session -> Cursor.Session) (prefs : Cursor.Prefs) :
  let out := Cursor.cursor_to_selected_invoke editmesh snap prefs both_keys hidden_cursor in
  Cursor.status out = Ok Cursor.CANCELLED
  /\ Cursor.messages out = [Cursor.invalid_keys]
  /\ Cursor.show_cursor hidden_cursor = false
  /\ Cursor.show_cursor (Cursor.final out) = true
  /\ Cursor.final out <> hidden_cursor.
Proof.
  cbv zeta. repeat split; try reflexivity.
  intros E. apply (f_equal Cursor.show_cursor) in E. discriminate E.
Qed.

(** With a selection and no active object [CursorToSelected.invoke] never
    reaches the key check: it makes the first selected object active and
    then raises. *)
Lemma cursor_to_selected_raises_without_active
    (editmesh : Cursor.Event -> Cursor.Session -> Cursor.Session)
    (snap : Cursor.Session -> Cursor.Session) (prefs : Cursor.Prefs) :
  let s := Cursor.set_active_object None hidden_cursor in
  let out := Cursor.cursor_to_selected_invoke editmesh snap prefs both_keys s in
  Cursor.status out = Raise ValueError
  /\ Cursor.active_object (Cursor.final out) = Some 0%nat.
Proof. cbv zeta. split; reflexivity. Qed.

End CursorFacts.

(* ===================================================================== *)
(** * Alignment to a pose bone *)
(* ===================================================================== *)

Section BoneFacts.
Import Mathutils UtilsMath Scene Samples.
Local Open Scope R_scope.

Lemma objects_update_object (h k : handle) (f : Object -> Object) (st : Blend) :
  objects (update_object h f st) k = if Nat.eqb k h then f (objects st k) else objects st k.
Proof. reflexivity. Qed.

Lemma objects_update_same (h : handle) (f : Object -> Object) (st : Blend) :
  objects (update_object h f st) h = f (objects st h).
Proof. rewrite objects_update_object, Nat.eqb_refl. reflexivity. Qed.

Lemma objects_update_other (h k : handle) (f : Object -> Object) (st : Blend) :
  k <> h -> objects (update_object h f st) k = objects st k.
Proof.
  intros Hne. rewrite objects_update_object.
  destruct (Nat.eqb_spec k h); [contradiction | reflexivity].
Qed.

Lemma bone_step_other p armature bonename bone st obj k :
  k <> obj -> objects (Align.bone_step p armature bonename bone st obj) k = objects st k.
Proof.
  intros Hne. unfold Align.bone_step.
  destruct (Align.parent_to_bone p); repeat rewrite objects_update_other by exact Hne; reflexivity.
Qed.

Lemma bone_step_same p armature bonename bone st obj :
  obj <> armature ->
  let o := objects (Align.bone_step p armature bonename bone st obj) obj in
  matrix_world o = Align.bone_matrix p (matrix_world (objects st armature)) bone
  /\ (Align.parent_to_bone p = true ->
      parent o = Some armature /\ parent_type o = PARENT_BONE /\ parent_bone o = bonename).
Proof.
  intros Hne. cbv zeta. unfold Align.bone_step.
  destruct (Align.parent_to_bone p); rewrite objects_update_same.
  - rewrite (objects_update_other obj armature) by (intros E; apply Hne; symmetry; exact E).
    rewrite objects_update_same. simpl. auto.
  - simpl. split; [reflexivity | discriminate].
Qed.

Lemma bone_loop p armature bonename bone (sel : list handle) :
  forall st : Blend,
  armature ∉ sel ->
  let st' := List.fold_left (Align.bone_step p armature bonename bone) sel st in
  forall obj : handle,
    (obj ∈ sel ->
       matrix_world (objects st' obj)
       = Align.bone_matrix p (matrix_world (objects st armature)) bone
       /\ (Align.parent_to_bone p = true ->
           parent (objects st' obj) = Some armature
           /\ parent_type (objects st' obj) = PARENT_BONE
           /\ parent_bone (objects st' obj) = bonename))
    /\ (obj ∉ sel -> objects st' obj = objects st obj).
Proof.
  induction sel as [|a sel IH]; intros st Hna; cbv zeta; intros obj.
  - simpl. split; [intros H; inversion H | reflexivity].
  - simpl. apply not_elem_of_cons in Hna as [Hne Hna].
    specialize (IH (Align.bone_step p armature bonename bone st a) Hna). cbv zeta in IH.
    destruct (IH obj) as [IHin IHout].
    assert (Harm : objects (Align.bone_step p armature bonename bone st a) armature = objects st armature)
      by (apply bone_step_other; exact Hne).
    split.
    + intros Hin. destruct (decide (obj ∈ sel)) as [Hs|Hs].
      * rewrite <- Harm. apply IHin. exact Hs.
      * apply elem_of_cons in Hin as [->|Hin]; [|contradiction].
        rewrite (IHout Hs).
        apply bone_step_same. intros E. apply Hne. symmetry. exact E.
    + intros Hout. apply not_elem_of_cons in Hout as [Hoa Hos].
      rewrite (IHout Hos). apply bone_step_other. exact Hoa.
Qed.

End BoneFacts.

Section BoneClaims.
Import Mathutils UtilsMath Scene Samples.
Local Open Scope R_scope.

(** With the roll switched off the last factor drops out: the target gets
    the joint's world transform, axis-corrected if that is enabled. *)
Lemma bone_matrix_without_roll (p : Align.Props) (amx bmx : Matrix) :
  Align.roll p = false ->
  Align.bone_matrix p amx bmx
  = if Align.align_z_to_y p
    then matmul (matmul amx bmx) (Rotation (radians (-90)) AX)
    else matmul amx bmx.
Proof.
  intros Hr. unfold Align.bone_matrix. rewrite Hr, radians_0, !Rotation_0.
  destruct (Align.align_z_to_y p); apply matmul_identity_r.
Qed.

(** C5, amended: with a pose bone of that name and the armature not among
    the targets, [align_to_active_bone] returns, and every target's world
    matrix is armature world matrix @ bone matrix @ Rx(-90 deg) @ Rz(angle)
    when Z-to-Y alignment is enabled, but armature world matrix @ bone
    matrix @ Ry(angle) when it is disabled; the angle is the roll amount if
    roll is enabled and zero otherwise.  With parent-to-bone enabled every
    target is parented to the bone; objects that are no targets are left
    alone. *)
Theorem align_to_active_bone_matrix (p : Align.Props) (armature : handle) (bonename : string)
    (sel : list handle) (st : Blend) (bone : Matrix) :
  pose_bones (objects st armature) !! bonename = Some bone ->
  armature ∉ sel ->
  exists st' : Blend,
    Align.align_to_active_bone p armature bonename sel st = Ok st'
    /\ forall obj : handle,
       (obj ∈ sel ->
          let joint := matmul (matrix_world (objects st armature)) bone in
          let angle := radians (if Align.roll p then Align.roll_amount p else 0) in
          matrix_world (objects st' obj)
          = (if Align.align_z_to_y p
             then matmul (matmul joint (Rotation (radians (-90)) AX)) (Rotation angle AZ)
             else matmul joint (Rotation angle AY))
          /\ (Align.parent_to_bone p = true ->
              parent (objects st' obj) = Some armature
              /\ parent_type (objects st' obj) = PARENT_BONE
              /\ parent_bone (objects st' obj) = bonename))
       /\ (obj ∉ sel -> objects st' obj = objects st obj).
Proof.
  intros Hbone Hna. unfold Align.align_to_active_bone. rewrite Hbone. simpl.
  eexists; split; [reflexivity|].
  intros obj. pose proof (bone_loop p armature bonename bone sel st Hna) as H.
  cbv zeta in H. destruct (H obj) as [Hin Hout]. split; [|exact Hout].
  intros Hs. cbv zeta. destruct (Hin Hs) as [Hm Hp]. split; [|exact Hp].
  rewrite Hm. unfold Align.bone_matrix. reflexivity.
Qed.

Lemma rigged_bone : pose_bones (objects rigged 0%nat) !! "Bone" = Some identity.
Proof. apply lookup_singleton_eq. Qed.

Lemma align_to_active_bone_matrix_witness :
  exists st' : Blend,
    Align.align_to_active_bone roll_only 0%nat "Bone" [1%nat] rigged = Ok st'
    /\ forall obj : handle,
       (obj ∈ [1%nat] ->
          let joint := matmul (matrix_world (objects rigged 0%nat)) identity in
          let angle := radians (if Align.roll roll_only then Align.roll_amount roll_only else 0) in
          matrix_world (objects st' obj)
          = (if Align.align_z_to_y roll_only
             then matmul (matmul joint (Rotation (radians (-90)) AX)) (Rotation angle AZ)
             else matmul joint (Rotation angle AY))
          /\ (Align.parent_to_bone roll_only = true ->
              parent (objects st' obj) = Some 0%nat
              /\ parent_type (objects st' obj) = PARENT_BONE
              /\ parent_bone (objects st' obj) = "Bone"))
       /\ (obj ∉ [1%nat] -> objects st' obj = objects rigged obj).
Proof.
  apply (align_to_active_bone_matrix roll_only 0%nat "Bone" [1%nat] rigged identity).
  - exact rigged_bone.
  - intros H. apply list_elem_of_singleton in H. discriminate H.
Defined.

(** C5 as stated fails: with Z-to-Y alignment off and a roll of 90 degrees
    the target's matrix is a rotation about Y, not the rotation about Z the
    claim describes. *)
Lemma align_to_active_bone_roll_axis_counterexample :
  exists st' : Blend,
    Align.align_to_active_bone roll_only 0%nat "Bone" [1%nat] rigged = Ok st'
    /\ matrix_world (objects st' 1%nat)
       <> Align.spec_bone_matrix roll_only (matrix_world (objects rigged 0%nat)) identity.
Proof.
  unfold Align.align_to_active_bone. rewrite rigged_bone.
  eexists; split; [reflexivity|].
  assert (Hna : 0%nat ∉ [1%nat])
    by (intros H; apply list_elem_of_singleton in H; discriminate H).
  pose proof (bone_loop roll_only 0%nat "Bone" identity [1%nat] rigged Hna) as H.
  cbv zeta in H. destruct (H 1%nat) as [[Hm _] _]; [apply list_elem_of_singleton; reflexivity|].
  rewrite Hm. unfold Align.bone_matrix, Align.spec_bone_matrix.
  change (matrix_world (objects rigged 0%nat)) with identity.
  change (Align.align_z_to_y roll_only) with false.
  change (Align.roll roll_only) with true.
  change (Align.roll_amount roll_only) with 90.
  cbv iota. rewrite !matmul_identity_l, radians_90.
  unfold Rotation. rewrite cos_PI2, sin_PI2.
  intros E. apply (f_equal (fun m => r1 (row1 m))) in E. simpl in E. lra.
Qed.

End BoneClaims.

(* ===================================================================== *)
(** * Dropping to the floor *)
(* ===================================================================== *)

Section FloorFacts.
Import Mathutils UtilsMath Scene Samples.
Local Open Scope R_scope.







(** C10: on a MESH object [drop_to_floor]'s loop body takes a minimum over
    the vertices; with no vertex it raises (Python's [min] of an empty
    sequence), and with at least one vertex it returns a result. *)
Theorem drop_object_mesh_needs_vertex (obj : handle) (st : Blend) (d : mesh_id) (mesh : Mesh) :
  type (objects st obj) = MESH ->
  data (objects st obj) = Some d ->
  meshes st !! d = Some mesh ->
  (vertices mesh = [] -> Align.drop_object obj st = Raise ValueError)
  /\ (vertices mesh <> [] -> exists st' : Blend, Align.drop_object obj st = Ok st').
Proof.
  intros Ht Hd Hm. unfold Align.drop_object. rewrite Ht, Hd. simpl. rewrite Hm. simpl.
  split.
  - intros ->. reflexivity.
  - intros Hne. destruct (vertices mesh) as [|v vs]; [contradiction|].
    simpl. eexists. reflexivity.
Qed.

Lemma floor_mesh_0 : floor_meshes !! 0%nat = Some (MkMesh [Vec 0 0 (-2); Vec 1 0 0; Vec 0 1 3]).
Proof. reflexivity. Qed.

Lemma floor_mesh_1 : floor_meshes !! 1%nat = Some (MkMesh []).
Proof. reflexivity. Qed.

Lemma drop_object_mesh_needs_vertex_witness :
  Align.drop_object 1%nat floor_scene = Raise ValueError
  /\ exists st' : Blend, Align.drop_object 0%nat floor_scene = Ok st'.
Proof.
  split.
  - apply (drop_object_mesh_needs_vertex 1%nat floor_scene 1%nat (MkMesh []));
      reflexivity.
  - apply (drop_object_mesh_needs_vertex 0%nat floor_scene 0%nat
             (MkMesh [Vec 0 0 (-2); Vec 1 0 0; Vec 0 1 3])); try reflexivity.
    discriminate.
Defined.

End FloorFacts.

Section FloorClaim.
Import Mathutils UtilsMath Scene Samples.
Local Open Scope R_scope.



(** In the example the minimum found is -2, so the object ends at Z = 2. *)
Lemma floor_example_minimum :
  Align.min_of (List.map (fun v => vz (mat_vec identity v))
                  [Vec 0 0 (-2); Vec 1 0 0; Vec 0 1 3]) = Ok (-2).
Proof.
  unfold Align.min_of, mat_vec, dot, identity. simpl. f_equal.
  unfold Rmin. repeat (destruct (Rle_dec _ _)); lra.
Qed.

End FloorClaim.

(* ===================================================================== *)
(** * Decomposition and recomposition *)
(* ===================================================================== *)

Section QuatFacts.
Import Mathutils UtilsMath.
Local Open Scope R_scope.

Lemma normalize_qt_unit (q : Quaternion) : unit_quat (normalize_qt q).
Proof.
  unfold normalize_qt, unit_quat.
  set (n2 := qw q * qw q + qx q * qx q + qy q * qy q + qz q * qz q).
  destruct (Req_dec_T (sqrt n2) 0) as [Hz|Hnz]; simpl; [lra|].
  assert (Hpos : 0 <= n2) by (unfold n2; nra).
  pose proof (sqrt_sqrt n2 Hpos) as Hs.
  set (n := sqrt n2) in *.
  assert (E : qw q / n * (qw q / n) + qx q / n * (qx q / n) + qy q / n * (qy q / n)
              + qz q / n * (qz q / n) = n2 / (n * n)) by (unfold n2; field; exact Hnz).
  rewrite E, Hs. field. rewrite <- Hs. nra.
Qed.

(** The rotation [decompose] returns always has length one. *)
Lemma mat3_to_quat_unit (m : Matrix) : unit_quat (mat3_to_quat m).
Proof. unfold mat3_to_quat. apply normalize_qt_unit. Qed.

Lemma quat_col0_unit (q : Quaternion) :
  unit_quat q ->
  let m := quat_to_matrix q in
  r0 (row0 m) * r0 (row0 m) + r0 (row1 m) * r0 (row1 m) + r0 (row2 m) * r0 (row2 m) = 1.
Proof. unfold unit_quat. destruct q as [w x y z]. simpl. intros H. nsatz. Qed.

Lemma quat_col1_unit (q : Quaternion) :
  unit_quat q ->
  let m := quat_to_matrix q in
  r1 (row0 m) * r1 (row0 m) + r1 (row1 m) * r1 (row1 m) + r1 (row2 m) * r1 (row2 m) = 1.
Proof. unfold unit_quat. destruct q as [w x y z]. simpl. intros H. nsatz. Qed.

Lemma quat_col2_unit (q : Quaternion) :
  unit_quat q ->
  let m := quat_to_matrix q in
  r2 (row0 m) * r2 (row0 m) + r2 (row1 m) * r2 (row1 m) + r2 (row2 m) * r2 (row2 m) = 1.
Proof. unfold unit_quat. destruct q as [w x y z]. simpl. intros H. nsatz. Qed.

(** The matrix of a unit quaternion is a proper rotation. *)
Lemma quat_det (q : Quaternion) : unit_quat q -> det3 (quat_to_matrix q) = 1.
Proof. unfold unit_quat, det3. destruct q as [w x y z]. simpl. intros H. nsatz. Qed.

(** Length of a unit vector scaled by [s]. *)
Lemma norm3_scaled (a b c s x y z : R) :
  x = a * s -> y = b * s -> z = c * s -> a * a + b * b + c * c = 1 ->
  norm3 x y z = Rabs s.
Proof.
  intros -> -> -> H. unfold norm3.
  replace (a * s * (a * s) + b * s * (b * s) + c * s * (c * s))
    with (Rsqr s * (a * a + b * b + c * c)) by (unfold Rsqr; ring).
  rewrite H, Rmult_1_r. apply sqrt_Rsqr_abs.
Qed.

(** Sign of a size: 0, 1 or -1. *)
Lemma safe_div_scaled (r s : R) :
  safe_div (r * s) (Rabs s) = r * safe_div s (Rabs s).
Proof.
  unfold safe_div. destruct (Req_dec_T (Rabs s) 0) as [Hz|Hnz]; [ring | field; exact Hnz].
Qed.

Lemma sign_nonneg (s : R) : 0 <= s -> 0 <= safe_div s (Rabs s).
Proof.
  intros Hs. unfold safe_div. destruct (Req_dec_T (Rabs s) 0) as [Hz|Hnz]; [lra|].
  rewrite Rabs_right in * by lra. unfold Rdiv.
  apply Rmult_le_pos; [exact Hs|]. apply Rlt_le, Rinv_0_lt_compat. lra.
Qed.

Lemma sign_neg (s : R) : s < 0 -> safe_div s (Rabs s) = -1.
Proof.
  intros Hs. unfold safe_div. rewrite Rabs_left by exact Hs.
  destruct (Req_dec_T (- s) 0) as [Hz|Hnz]; [lra | field; lra].
Qed.

End QuatFacts.

Section RecomposeFacts.
Import Mathutils UtilsMath.
Local Open Scope R_scope.

Lemma Rltb_true (x y : R) : Rltb x y = true <-> x < y.
Proof. unfold Rltb. destruct (Rlt_dec x y); split; intros; try discriminate; tauto. Qed.

Lemma Rltb_false (x y : R) : Rltb x y = false <-> ~ x < y.
Proof. unfold Rltb. destruct (Rlt_dec x y); split; intros; try discriminate; tauto. Qed.

Lemma safe_div_0 (a : R) : safe_div a 0 = 0.
Proof. unfold safe_div. destruct (Req_dec_T 0 0); [reflexivity | contradiction]. Qed.

Lemma norm3_nonneg (a b c : R) : 0 <= norm3 a b c.
Proof. apply sqrt_pos. Qed.

(** The sizes [decompose] returns are never of mixed sign. *)
Lemma rot_size_coherent (m : Matrix) : coherent_size (snd (rot_size m)).
Proof.
  unfold rot_size.
  destruct (Rltb (det3 (normalized_columns m (column_lengths m))) 0) eqn:Hneg; simpl.
  - apply Rltb_true in Hneg. right.
    destruct m as [[a00 a01 a02 a03] [a10 a11 a12 a13] [a20 a21 a22 a23] r].
    unfold column_lengths, normalized_columns, det3 in *. simpl in *.
    pose proof (norm3_nonneg a00 a10 a20) as H0.
    pose proof (norm3_nonneg a01 a11 a21) as H1.
    pose proof (norm3_nonneg a02 a12 a22) as H2.
    destruct (Req_dec_T (norm3 a00 a10 a20) 0) as [Z0|N0];
      [rewrite Z0, !safe_div_0 in Hneg; lra|].
    destruct (Req_dec_T (norm3 a01 a11 a21) 0) as [Z1|N1];
      [rewrite Z1, !safe_div_0 in Hneg; lra|].
    destruct (Req_dec_T (norm3 a02 a12 a22) 0) as [Z2|N2];
      [rewrite Z2, !safe_div_0 in Hneg; lra|].
    lra.
  - left. unfold column_lengths. simpl. repeat split; apply norm3_nonneg.
Qed.

(** Recomposing any translation, a proper rotation and coherent sizes
    gives a matrix whose sizes are the ones put in. *)
Lemma rot_size_recompose (t s : Vector) (R : Matrix) :
  r0 (row3 R) = 0 -> r1 (row3 R) = 0 -> r2 (row3 R) = 0 ->
  r0 (row0 R) * r0 (row0 R) + r0 (row1 R) * r0 (row1 R) + r0 (row2 R) * r0 (row2 R) = 1 ->
  r1 (row0 R) * r1 (row0 R) + r1 (row1 R) * r1 (row1 R) + r1 (row2 R) * r1 (row2 R) = 1 ->
  r2 (row0 R) * r2 (row0 R) + r2 (row1 R) * r2 (row1 R) + r2 (row2 R) * r2 (row2 R) = 1 ->
  det3 R = 1 ->
  coherent_size s ->
  snd (rot_size (matmul (matmul (get_loc_matrix t) R) (get_sca_matrix s))) = s.
Proof.
  destruct R as [[a00 a01 a02 a03] [a10 a11 a12 a13] [a20 a21 a22 a23] [a30 a31 a32 a33]].
  destruct t as [t0 t1 t2], s as [s0 s1 s2]. simpl.
  intros -> -> -> U0 U1 U2 Hdet Hs.
  unfold rot_size.
  set (M := matmul _ _).
  assert (HL : column_lengths M = Vec (Rabs s0) (Rabs s1) (Rabs s2)).
  { unfold column_lengths, M, matmul, row_mul, dot, get_loc_matrix, Translation, get_sca_matrix.
    simpl. f_equal.
    - apply (norm3_scaled a00 a10 a20); try ring; exact U0.
    - apply (norm3_scaled a01 a11 a21); try ring; exact U1.
    - apply (norm3_scaled a02 a12 a22); try ring; exact U2. }
  rewrite HL.
  set (g0 := safe_div s0 (Rabs s0)). set (g1 := safe_div s1 (Rabs s1)).
  set (g2 := safe_div s2 (Rabs s2)).
  assert (HN : normalized_columns M (Vec (Rabs s0) (Rabs s1) (Rabs s2))
               = Mat (MkRow (a00 * g0) (a01 * g1) (a02 * g2) 0)
                     (MkRow (a10 * g0) (a11 * g1) (a12 * g2) 0)
                     (MkRow (a20 * g0) (a21 * g1) (a22 * g2) 0)
                     (MkRow 0 0 0 1)).
  { unfold normalized_columns, M, matmul, row_mul, dot, get_loc_matrix, Translation,
      get_sca_matrix, g0, g1, g2. simpl.
    repeat f_equal; rewrite <- safe_div_scaled; f_equal; ring. }
  rewrite HN.
  assert (HD : det3 (Mat (MkRow (a00 * g0) (a01 * g1) (a02 * g2) 0)
                         (MkRow (a10 * g0) (a11 * g1) (a12 * g2) 0)
                         (MkRow (a20 * g0) (a21 * g1) (a22 * g2) 0)
                         (MkRow 0 0 0 1)) = g0 * g1 * g2).
  { unfold det3 in *. simpl in *.
    transitivity (g0 * g1 * g2 *
                  (a00 * (a11 * a22 - a12 * a21) - a01 * (a10 * a22 - a12 * a20)
                   + a02 * (a10 * a21 - a11 * a20))); [ring|].
    rewrite Hdet. ring. }
  rewrite HD.
  destruct Hs as [(P0 & P1 & P2) | (N0 & N1 & N2)]; simpl in *.
  - pose proof (sign_nonneg s0 P0) as G0. pose proof (sign_nonneg s1 P1) as G1.
    pose proof (sign_nonneg s2 P2) as G2. fold g0 in G0. fold g1 in G1. fold g2 in G2.
    assert (Hnn : ~ g0 * g1 * g2 < 0).
    { apply Rle_not_lt. apply Rmult_le_pos; [apply Rmult_le_pos|]; assumption. }
    apply Rltb_false in Hnn. rewrite Hnn. simpl.
    rewrite !Rabs_right by lra. reflexivity.
  - unfold g0, g1, g2. rewrite !sign_neg by assumption.
    assert (Hn : -1 * -1 * -1 < 0) by lra.
    apply Rltb_true in Hn. rewrite Hn. unfold vec_neg. simpl.
    rewrite !Rabs_left by assumption. f_equal; lra.
Qed.

End RecomposeFacts.

(* ===================================================================== *)
(** * Alignment to the origin *)
(* ===================================================================== *)

Section OriginFacts.
Import Mathutils UtilsMath Scene Samples.
Local Open Scope R_scope.

(** A loop that assigns [F obj] to each object of a duplicate-free list. *)
Lemma fold_update_objects (F : Object -> Object) (sel : list handle) :
  forall st : Blend,
  NoDup sel ->
  let st' := List.fold_left (fun st obj => update_object obj F st) sel st in
  meshes st' = meshes st
  /\ forall k : handle,
       (k ∈ sel -> objects st' k = F (objects st k))
       /\ (k ∉ sel -> objects st' k = objects st k).
Proof.
  induction sel as [|a sel IH]; intros st Hnd; cbv zeta; simpl.
  - split; [reflexivity|]. intros k. split; [intros H; inversion H | reflexivity].
  - apply NoDup_cons in Hnd as [Ha Hnd].
    specialize (IH (update_object a F st) Hnd). cbv zeta in IH.
    destruct IH as [IHm IH]. split; [rewrite IHm; reflexivity|].
    intros k. destruct (IH k) as [IHin IHout]. split.
    + intros Hin. apply elem_of_cons in Hin as [->|Hin].
      * destruct (IH a) as [_ Hout]. rewrite (Hout Ha). apply objects_update_same.
      * rewrite (IHin Hin). rewrite objects_update_other; [reflexivity|].
        intros ->. contradiction.
    + intros Hout. apply not_elem_of_cons in Hout as [Hka Hks].
      rewrite (IHout Hks). apply objects_update_other. exact Hka.
Qed.

Lemma quat_to_matrix_row3 (q : Quaternion) : row3 (quat_to_matrix q) = MkRow 0 0 0 1.
Proof. reflexivity. Qed.

(** What [origin_matrix] builds when location is aligned on all axes. *)
Lemma origin_matrix_all_axes (p : Align.Props) (m : Matrix) :
  Align.location p = true -> Align.loc_x p = true -> Align.loc_y p = true ->
  Align.loc_z p = true ->
  Align.origin_matrix p m
  = matmul (matmul (get_loc_matrix (Vec 0 0 0)) (quat_to_matrix (snd (fst (decompose m)))))
           (get_sca_matrix (snd (decompose m))).
Proof.
  intros Hl Hx Hy Hz. unfold Align.origin_matrix.
  destruct (decompose m) as [[oloc orot] osca]. rewrite Hl, Hx, Hy, Hz. reflexivity.
Qed.

Lemma recomposed_translation (t s : Vector) (q : Quaternion) :
  translation (matmul (matmul (get_loc_matrix t) (quat_to_matrix q)) (get_sca_matrix s)) = t.
Proof.
  destruct t, s, q. unfold translation, matmul, row_mul, dot, get_loc_matrix, Translation,
    get_sca_matrix, quat_to_matrix. simpl. f_equal; ring.
Qed.

Lemma recomposed_scale (t : Vector) (m : Matrix) :
  snd (decompose (matmul (matmul (get_loc_matrix t) (quat_to_matrix (snd (fst (decompose m)))))
                         (get_sca_matrix (snd (decompose m)))))
  = snd (decompose m).
Proof.
  unfold decompose at 1. cbn [snd].
  unfold decompose. cbn [fst snd].
  pose proof (mat3_to_quat_unit (fst (rot_size m))) as Hu.
  apply rot_size_recompose; try reflexivity.
  - apply (quat_col0_unit _ Hu).
  - apply (quat_col1_unit _ Hu).
  - apply (quat_col2_unit _ Hu).
  - apply quat_det, Hu.
  - apply rot_size_coherent.
Qed.

End OriginFacts.

Section OriginClaim.
Import Mathutils UtilsMath Scene Samples.
Local Open Scope R_scope.

(** C2, amended: with location alignment enabled on all three axes
    [align_to_origin] gives every target a world matrix whose translation
    is the zero vector and whose scale is the scale it had; the rotation is
    not reset but passed through, the matrix being recomposed from the zero
    translation, the object's own rotation and its own scale.  Objects that
    are no targets keep their state. *)
Theorem align_to_origin_all_axes (p : Align.Props) (sel : list handle) (st : Blend) :
  Align.location p = true -> Align.loc_x p = true -> Align.loc_y p = true ->
  Align.loc_z p = true -> NoDup sel ->
  forall obj : handle,
    (obj ∈ sel ->
       let mx := matrix_world (objects st obj) in
       let mx' := matrix_world (objects (Align.align_to_origin p sel st) obj) in
       translation mx' = Vec 0 0 0
       /\ snd (decompose mx') = snd (decompose mx)
       /\ mx' = matmul (matmul (get_loc_matrix (Vec 0 0 0))
                               (quat_to_matrix (snd (fst (decompose mx)))))
                       (get_sca_matrix (snd (decompose mx))))
    /\ (obj ∉ sel -> objects (Align.align_to_origin p sel st) obj = objects st obj).
Proof.
  intros Hl Hx Hy Hz Hnd obj. unfold Align.align_to_origin.
  pose proof (fold_update_objects
                (fun o => set_matrix_world (Align.origin_matrix p (matrix_world o)) o)
                sel st Hnd) as H.
  cbv zeta in H. destruct H as [_ H]. destruct (H obj) as [Hin Hout].
  split; [|exact Hout].
  intros Hs. cbv zeta. rewrite (Hin Hs). cbn [matrix_world set_matrix_world].
  rewrite origin_matrix_all_axes by assumption.
  split; [apply recomposed_translation|]. split; [apply recomposed_scale | reflexivity].
Qed.

Lemma align_to_origin_all_axes_witness :
  (let mx := matrix_world (objects turned 0%nat) in
   let mx' := matrix_world (objects (Align.align_to_origin all_axes [0%nat] turned) 0%nat) in
   translation mx' = Vec 0 0 0
   /\ snd (decompose mx') = snd (decompose mx)
   /\ mx' = matmul (matmul (get_loc_matrix (Vec 0 0 0))
                           (quat_to_matrix (snd (fst (decompose mx)))))
                   (get_sca_matrix (snd (decompose mx))))
  /\ objects (Align.align_to_origin all_axes [0%nat] turned) 1%nat = objects turned 1%nat.
Proof.
  pose proof (align_to_origin_all_axes all_axes [0%nat] turned eq_refl eq_refl eq_refl eq_refl
                (NoDup_singleton 0%nat)) as H.
  split.
  - apply (proj1 (H 0%nat)). apply list_elem_of_singleton. reflexivity.
  - apply (proj2 (H 1%nat)). intros E. apply list_elem_of_singleton in E. discriminate E.
Defined.

Lemma sqrt_4 : sqrt 4 = 2.
Proof. replace 4 with (2 * 2) by lra. apply sqrt_square. lra. Qed.

Lemma norm3_axis_a (a : R) : a * a = 1 -> norm3 a 0 0 = 1.
Proof. intros H. unfold norm3. replace (a * a + 0 * 0 + 0 * 0) with 1 by lra. apply sqrt_1. Qed.

Lemma norm3_axis_b (a : R) : a * a = 1 -> norm3 0 a 0 = 1.
Proof. intros H. unfold norm3. replace (0 * 0 + a * a + 0 * 0) with 1 by lra. apply sqrt_1. Qed.

Lemma norm3_axis_c (a : R) : a * a = 1 -> norm3 0 0 a = 1.
Proof. intros H. unfold norm3. replace (0 * 0 + 0 * 0 + a * a) with 1 by lra. apply sqrt_1. Qed.

Lemma safe_div_1 (a : R) : safe_div a 1 = a.
Proof. unfold safe_div. destruct (Req_dec_T 1 0); [lra | field]. Qed.

(** Decomposition of a half turn about Z placed at [t]: location [t], the
    quaternion (0, 0, 0, 1) and unit scale. *)
Lemma decompose_half_turn (t : Vector) :
  decompose (half_turn_at t) = (t, Quat 0 0 0 1, Vec 1 1 1).
Proof.
  assert (Hrs : rot_size (half_turn_at t) = (half_turn_at (Vec 0 0 0), Vec 1 1 1)).
  { unfold rot_size.
    assert (HL : column_lengths (half_turn_at t) = Vec 1 1 1).
    { unfold column_lengths, half_turn_at. simpl.
      rewrite norm3_axis_a, norm3_axis_b, norm3_axis_c by lra. reflexivity. }
    rewrite HL.
    assert (HN : normalized_columns (half_turn_at t) (Vec 1 1 1) = half_turn_at (Vec 0 0 0)).
    { unfold normalized_columns, half_turn_at. simpl. rewrite !safe_div_1. reflexivity. }
    rewrite HN.
    assert (Hd : Rltb (det3 (half_turn_at (Vec 0 0 0))) 0 = false).
    { apply Rltb_false. unfold det3, half_turn_at. simpl. lra. }
    rewrite Hd. reflexivity. }
  assert (Ht : translation (half_turn_at t) = t) by (destruct t; reflexivity).
  assert (Hq : mat3_to_quat (half_turn_at (Vec 0 0 0)) = Quat 0 0 0 1).
  { unfold mat3_to_quat, half_turn_at. cbn [row0 row1 row2 r0 r1 r2].
    assert (H1 : Rltb (/ 10000) (/ 4 * (1 + -1 + -1 + 1)) = false)
      by (apply Rltb_false; lra).
    assert (H2 : Rltb (-1) (-1) = false) by (apply Rltb_false; lra).
    assert (H3 : Rltb 1 (-1) = false) by (apply Rltb_false; lra).
    rewrite H1, H2, H3. cbn [andb].
    replace (1 + 1 - -1 - -1) with 4 by lra. rewrite sqrt_4.
    unfold normalize_qt. cbn [qw qx qy qz].
    replace ((0 - 0) * / (2 * 2) * ((0 - 0) * / (2 * 2))
             + (0 + 0) * / (2 * 2) * ((0 + 0) * / (2 * 2))
             + (0 + 0) * / (2 * 2) * ((0 + 0) * / (2 * 2))
             + / 4 * (2 * 2) * (/ 4 * (2 * 2))) with 1 by lra.
    rewrite sqrt_1. destruct (Req_dec_T 1 0); [lra|].
    f_equal; lra. }
  unfold decompose. rewrite Hrs. cbn [fst snd]. rewrite Ht, Hq. reflexivity.
Qed.

Lemma origin_matrix_half_turn (t : Vector) :
  Align.origin_matrix all_axes (half_turn_at t) = half_turn_at (Vec 0 0 0).
Proof.
  rewrite origin_matrix_all_axes by reflexivity. rewrite decompose_half_turn. cbn [fst snd].
  unfold matmul, row_mul, dot, get_loc_matrix, Translation, get_sca_matrix, quat_to_matrix,
    half_turn_at. simpl.
  apply Matrix_eq; simpl; apply Row_eq; simpl; lra.
Qed.

(** C2 as stated fails: an object turned by half a turn about Z is moved to
    the origin, but its rotation is still the half turn, not the identity
    rotation. *)
Lemma align_to_origin_keeps_rotation_counterexample :
  let mx' := matrix_world (objects (Align.align_to_origin all_axes [0%nat] turned) 0%nat) in
  translation mx' = Vec 0 0 0
  /\ snd (fst (decompose mx')) = Quat 0 0 0 1
  /\ snd (fst (decompose mx')) <> Quat 1 0 0 0
  /\ quat_to_matrix (snd (fst (decompose mx'))) <> identity.
Proof.
  cbv zeta.
  assert (E : matrix_world (objects (Align.align_to_origin all_axes [0%nat] turned) 0%nat)
              = half_turn_at (Vec 0 0 0)).
  { unfold Align.align_to_origin. cbn [List.fold_left]. rewrite objects_update_same.
    cbn [matrix_world set_matrix_world].
    change (matrix_world (objects turned 0%nat)) with (half_turn_at (Vec 3 4 5)).
    apply origin_matrix_half_turn. }
  rewrite E, decompose_half_turn. cbn [fst snd].
  split; [reflexivity|]. split; [reflexivity|]. split.
  - intros H. apply (f_equal qw) in H. simpl in H. lra.
  - intros H. apply (f_equal (fun m => r0 (row0 m))) in H. simpl in H. lra.
Qed.

End OriginClaim.

(* ===================================================================== *)
(** * One prepare visit *)
(* ===================================================================== *)

Lemma meshes_update_object (h : Scene.handle) (f : Scene.Object -> Scene.Object) (st : Scene.Blend) :
  Scene.meshes (Scene.update_object h f st) = Scene.meshes st.
Proof. reflexivity. Qed.

(** Evaluates reads of the object just written and the record setters. *)
Ltac norm_obj Ho :=
  repeat first
    [ rewrite objects_update_same
    | rewrite meshes_update_object
    | rewrite Ho
    | progress cbn [Scene.type Scene.matrix_world Scene.location Scene.modifiers Scene.data
                    Scene.empty_display_size Scene.select Scene.M3 Scene.parent
                    Scene.parent_type Scene.parent_bone Scene.pose_bones
                    Scene.set_matrix_world Scene.set_modifiers Scene.set_data
                    Scene.set_empty_display_size Scene.set_M3 Scene.set_unity_exported
                    Scene.set_pre_unity_export_mx Scene.set_pre_unity_export_mesh
                    Scene.unity_exported Scene.pre_unity_export_mx
                    Scene.pre_unity_export_mesh Scene.meshes Scene.objects Scene.set_meshes
                    Scene.of_option Scene.bind andb Scene.ObjType_eqb] ].

Section PrepareVisit.
Import Mathutils UtilsMath Scene Samples.
Local Open Scope R_scope.

Lemma for_shown_prepare (ms : list Modifier) :
  Unity.for_shown BEVEL (Unity.mul_width 100) (Unity.for_shown MIRROR Unity.swap_mirror_axes ms)
  = List.map Unity.prepared_modifier ms.
Proof.
  unfold Unity.for_shown. rewrite List.map_map. apply List.map_ext. intros [n sv se pa].
  unfold Unity.shown, Unity.prepared_modifier, Unity.swap_mirror_axes, Unity.mul_width, mod_type.
  destruct pa, sv; reflexivity.
Qed.

(** The effect of the statements of one prepare visit, spelled out. *)
Lemma prepare_object_effect (obj : handle) (matrices : gmap handle Matrix) (tri : bool)
    (st st' : Blend) :
  Unity.prepare_object obj matrices tri st = Ok st' ->
  exists mx : Matrix,
    matrices !! obj = Some mx
    /\ objects st' obj = Unity.prepared mx tri (fresh (dom (meshes st))) (objects st obj)
    /\ (forall k : handle, k <> obj -> objects st' k = objects st k)
    /\ match type (objects st obj) with
       | MESH => exists (d : mesh_id) (m : Mesh),
                   data (objects st obj) = Some d /\ meshes st !! d = Some m
                   /\ meshes st' = <[fresh (dom (meshes st)) :=
                                       Unity.transform (matmul (Rotation (radians (-90)) AX) (Scale 100)) m]>
                                   (meshes st)
       | _ => meshes st' = meshes st
       end.
Proof.
  unfold Unity.prepare_object.
  destruct (matrices !! obj) as [mx|] eqn:Hmx; cbn [of_option bind]; [|discriminate].
  intros H. exists mx. split; [reflexivity|].
  unfold Unity.prepared, Unity.prepared_matrix.
  destruct (decompose mx) as [[loc rot] sca].
  rewrite <- (for_shown_prepare (modifiers (objects st obj))).
  revert H. unfold Unity.copy_and_transform.
  destruct (objects st obj) as [ty mw lo ms da eds sl m3 pa pt pb po] eqn:Ho.
  destruct tri, ty; norm_obj Ho.
  all: try (intros H; injection H as <-; norm_obj Ho; rewrite ?app_nil_r;
            split; [reflexivity|]; split;
            [intros k Hk; rewrite ?objects_update_other by exact Hk; reflexivity | reflexivity]).
  all: destruct da as [d|]; norm_obj Ho; [|discriminate].
  all: destruct (meshes st !! d) as [m|] eqn:Hm; norm_obj Ho; [|discriminate].
  all: intros H; injection H as <-.
  all: norm_obj Ho; rewrite ?app_nil_r.
  all: split; [reflexivity|].
  all: split; [intros k Hk; cbn [objects set_meshes]; rewrite ?objects_update_other by exact Hk; reflexivity|].
  all: exists d, m; split; [reflexivity|]; split; [exact Hm | reflexivity].
Qed.


End PrepareVisit.

Section PrepareModifiers.
Import Mathutils UtilsMath Scene Samples.
Local Open Scope R_scope.

(** A prepare visit returns when the matrix of the object was collected
    and, for a MESH, its mesh block exists. *)
Lemma prepare_object_ok (obj : handle) (matrices : gmap handle Matrix) (tri : bool)
    (st : Blend) (mx : Matrix) :
  matrices !! obj = Some mx ->
  (type (objects st obj) = MESH ->
   exists (d : mesh_id) (m : Mesh), data (objects st obj) = Some d /\ meshes st !! d = Some m) ->
  exists st' : Blend, Unity.prepare_object obj matrices tri st = Ok st'.
Proof.
  intros Hmx Hmesh. unfold Unity.prepare_object. rewrite Hmx. cbn [of_option bind].
  destruct (decompose mx) as [[loc rot] sca]. unfold Unity.copy_and_transform.
  destruct (objects st obj) as [ty mw lo ms da eds sl m3 pa pt pb po] eqn:Ho.
  norm_obj Ho.
  destruct tri, ty; norm_obj Ho; try (eexists; reflexivity).
  all: destruct Hmesh as (d & m & Hd & Hm); [reflexivity|].
  all: cbn [data] in Hd; subst da; norm_obj Ho; rewrite Hm; norm_obj Ho.
  all: eexists; reflexivity.
Qed.

Lemma prepared_modifier_cases (m : Modifier) :
  let m' := Unity.prepared_modifier m in
  mod_name m' = mod_name m /\ show_viewport m' = show_viewport m
  /\ show_expanded m' = show_expanded m
  /\ params m'
     = match params m with
       | MirrorParams a b c =>
           if show_viewport m
           then MirrorParams (Unity.swap_yz a) (Unity.swap_yz b) (Unity.swap_yz c)
           else MirrorParams a b c
       | BevelParams w => if show_viewport m then BevelParams (w * 100) else BevelParams w
       | other => other
       end.
Proof.
  destruct m as [n sv se pa]. unfold Unity.prepared_modifier.
  destruct pa, sv; cbn; auto.
Qed.

(** C7, amended: a prepare visit swaps the Y and Z entries of the three
    axis-flag sets of every MIRROR modifier that is shown in the viewport
    and multiplies the width of every BEVEL modifier that is shown in the
    viewport by 100; a modifier with [show_viewport] off, and any other
    modifier, keeps its settings.  Names, visibility and order are kept. *)
Theorem prepare_object_modifiers (obj : handle) (matrices : gmap handle Matrix) (tri : bool)
    (st : Blend) (mx : Matrix) :
  matrices !! obj = Some mx ->
  (type (objects st obj) = MESH ->
   exists (d : mesh_id) (m : Mesh), data (objects st obj) = Some d /\ meshes st !! d = Some m) ->
  exists st' : Blend,
    Unity.prepare_object obj matrices tri st = Ok st'
    /\ forall (i : nat) (m : Modifier),
         modifiers (objects st obj) !! i = Some m ->
         exists m' : Modifier,
           modifiers (objects st' obj) !! i = Some m'
           /\ mod_name m' = mod_name m /\ show_viewport m' = show_viewport m
           /\ show_expanded m' = show_expanded m
           /\ params m'
              = match params m with
                | MirrorParams a b c =>
                    if show_viewport m
                    then MirrorParams (Unity.swap_yz a) (Unity.swap_yz b) (Unity.swap_yz c)
                    else MirrorParams a b c
                | BevelParams w =>
                    if show_viewport m then BevelParams (w * 100) else BevelParams w
                | other => other
                end.
Proof.
  intros Hmx Hmesh.
  destruct (prepare_object_ok obj matrices tri st mx Hmx Hmesh) as [st' Hok].
  exists st'. split; [exact Hok|].
  destruct (prepare_object_effect _ _ _ _ _ Hok) as (mx' & _ & Ho & _).
  intros i m Hi. exists (Unity.prepared_modifier m). split.
  - rewrite Ho. unfold Unity.prepared. cbn [modifiers].
    apply lookup_app_l_Some. rewrite list_lookup_fmap_Some. exists m. split; [reflexivity | exact Hi].
  - apply prepared_modifier_cases.
Qed.

End PrepareModifiers.

Section PrepareModifiersExamples.
Import Mathutils UtilsMath Scene Samples.
Local Open Scope R_scope.

Lemma workshop_mesh :
  type (objects workshop 0%nat) = MESH ->
  exists (d : mesh_id) (m : Mesh),
    data (objects workshop 0%nat) = Some d /\ meshes workshop !! d = Some m.
Proof. intros _. exists 0%nat. eexists. split; [reflexivity | exact floor_mesh_0]. Qed.

Lemma prepare_object_modifiers_witness :
  exists st' : Blend,
    Unity.prepare_object 0%nat {[ 0%nat := identity ]} false workshop = Ok st'
    /\ forall (i : nat) (m : Modifier),
         modifiers (objects workshop 0%nat) !! i = Some m ->
         exists m' : Modifier,
           modifiers (objects st' 0%nat) !! i = Some m'
           /\ mod_name m' = mod_name m /\ show_viewport m' = show_viewport m
           /\ show_expanded m' = show_expanded m
           /\ params m'
              = match params m with
                | MirrorParams a b c =>
                    if show_viewport m
                    then MirrorParams (Unity.swap_yz a) (Unity.swap_yz b) (Unity.swap_yz c)
                    else MirrorParams a b c
                | BevelParams w =>
                    if show_viewport m then BevelParams (w * 100) else BevelParams w
                | other => other
                end.
Proof.
  apply (prepare_object_modifiers 0%nat {[ 0%nat := identity ]} false workshop identity).
  - apply lookup_singleton_eq.
  - exact workshop_mesh.
Defined.

(** C7 as stated fails: a MIRROR and a BEVEL modifier that are hidden in
    the viewport come out of a prepare visit as they went in, flags not
    swapped and width not multiplied. *)
Lemma prepare_object_skips_hidden_counterexample :
  exists st' : Blend,
    Unity.prepare_object 0%nat {[ 0%nat := identity ]} false workshop = Ok st'
    /\ modifiers (objects workshop 0%nat) !! 1%nat = Some hidden_mirror
    /\ mod_type hidden_mirror = MIRROR
    /\ modifiers (objects st' 0%nat) !! 1%nat = Some hidden_mirror
    /\ params hidden_mirror
       <> MirrorParams (Unity.swap_yz (true, true, false)) (Unity.swap_yz (false, true, false))
                       (Unity.swap_yz (false, false, true))
    /\ modifiers (objects workshop 0%nat) !! 3%nat = Some hidden_bevel
    /\ mod_type hidden_bevel = BEVEL
    /\ modifiers (objects st' 0%nat) !! 3%nat = Some hidden_bevel
    /\ params hidden_bevel <> BevelParams (2 * 100).
Proof.
  destruct (prepare_object_ok 0%nat {[ 0%nat := identity ]} false workshop identity)
    as [st' Hok]; [apply lookup_singleton_eq | exact workshop_mesh |].
  exists st'. split; [exact Hok|].
  destruct (prepare_object_effect _ _ _ _ _ Hok) as (mx' & _ & Ho & _).
  rewrite Ho.
  repeat split; try reflexivity.
  - discriminate.
  - intros H. injection H as H. lra.
Qed.

End PrepareModifiersExamples.

(* ===================================================================== *)
(** * One restore visit *)
(* ===================================================================== *)

Section RestoreVisit.
Import Mathutils UtilsMath Scene Samples.
Local Open Scope R_scope.

Lemma for_shown_restore (ms : list Modifier) :
  Unity.for_shown BEVEL (Unity.div_width 100) (Unity.for_shown MIRROR Unity.swap_mirror_axes ms)
  = List.map Unity.restored_modifier ms.
Proof.
  unfold Unity.for_shown. rewrite List.map_map. apply List.map_ext. intros [n sv se pa].
  unfold Unity.shown, Unity.restored_modifier, Unity.swap_mirror_axes, Unity.div_width, mod_type.
  destruct pa, sv; reflexivity.
Qed.

(** The effect of the statements of one restore visit, spelled out. *)
Lemma restore_object_effect (obj : handle) (detri : bool) (st : Blend) (rel : list mesh_id) :
  let r := Unity.restore_object obj detri st rel in
  objects (fst r) obj = Unity.restored detri (objects st obj)
  /\ (forall k : handle, k <> obj -> objects (fst r) k = objects st k)
  /\ meshes (fst r) = meshes st
  /\ snd r = rel ++ Unity.released_by (objects st obj).
Proof.
  cbv zeta. unfold Unity.restore_object, Unity.restored, Unity.released_by,
    Unity.without_last_triangulate.
  rewrite <- (for_shown_restore (modifiers (objects st obj))).
  destruct (objects st obj) as [ty mw lo ms da eds sl [ue pmx pm] pa pt pb po] eqn:Ho.
  norm_obj Ho.
  set (ms' := Unity.for_shown BEVEL (Unity.div_width 100)
                (Unity.for_shown MIRROR Unity.swap_mirror_axes ms)).
  destruct detri;
    [destruct (last ms') as [lastmod|] eqn:Hl;
       [destruct (ModType_eqb (mod_type lastmod) TRIANGULATE)|]|].
  all: norm_obj Ho.
  all: destruct ty, pm as [saved|]; norm_obj Ho; cbn [fst snd]; norm_obj Ho.
  all: repeat split; try reflexivity; try (rewrite app_nil_r; reflexivity).
  all: try (intros k Hk; rewrite ?objects_update_other by exact Hk; reflexivity).
  all: destruct da; reflexivity.
Qed.

End RestoreVisit.

(* ===================================================================== *)
(** * Restoring what a prepare visit did *)
(* ===================================================================== *)

Section RoundTripVisit.
Import Mathutils UtilsMath Scene Samples.
Local Open Scope R_scope.

(** The saved flat sequence read back is the matrix that was saved. *)
Lemma matrix_of_flat_flatten (m : Matrix) : matrix_of_flat (flatten_matrix m) = m.
Proof. destruct m as [[] [] [] []]. reflexivity. Qed.

Lemma swap_yz_involutive (f : Flags) : Unity.swap_yz (Unity.swap_yz f) = f.
Proof. destruct f as [[x y] z]. reflexivity. Qed.

(** Swapping twice and scaling the width up and down give the modifier
    back. *)
Lemma restored_prepared_modifier (m : Modifier) :
  Unity.restored_modifier (Unity.prepared_modifier m) = m.
Proof.
  destruct m as [n sv se pa].
  unfold Unity.restored_modifier, Unity.prepared_modifier, Unity.with_params.
  destruct pa as [a b c|w| |], sv; cbn; try reflexivity.
  - rewrite !swap_yz_involutive. reflexivity.
  - do 2 f_equal. field.
Qed.

Lemma restored_prepared_modifiers (ms : list Modifier) :
  List.map Unity.restored_modifier (List.map Unity.prepared_modifier ms) = ms.
Proof.
  rewrite List.map_map. rewrite <- (List.map_id ms) at 2.
  apply List.map_ext. intros m. apply restored_prepared_modifier.
Qed.

Lemma without_last_triangulate_snoc (ms : list Modifier) (m : Modifier) :
  Unity.without_last_triangulate (ms ++ [m])
  = if ModType_eqb (mod_type m) TRIANGULATE then ms else ms ++ [m].
Proof.
  unfold Unity.without_last_triangulate. rewrite last_snoc.
  destruct (ModType_eqb (mod_type m) TRIANGULATE); [apply List.removelast_last | reflexivity].
Qed.

Lemma without_last_triangulate_cases (ms : list Modifier) :
  Unity.without_last_triangulate ms = ms
  \/ exists (ms' : list Modifier) (m : Modifier),
       ms = ms' ++ [m] /\ mod_type m = TRIANGULATE /\ Unity.without_last_triangulate ms = ms'.
Proof.
  destruct (last ms) as [m|] eqn:Hl.
  - apply last_Some in Hl as [ms' ->]. rewrite without_last_triangulate_snoc.
    destruct (ModType_eqb (mod_type m) TRIANGULATE) eqn:Ht; [right | left; reflexivity].
    exists ms', m. repeat split. destruct (mod_type m); try discriminate Ht. reflexivity.
  - left. unfold Unity.without_last_triangulate. rewrite Hl. reflexivity.
Qed.

(** Dropping a trailing TRIANGULATE modifier leaves the modifiers of every
    other type alone. *)
Lemma of_type_without_last_triangulate (t : ModType) (ms : list Modifier) :
  t <> TRIANGULATE ->
  Unity.of_type t (Unity.without_last_triangulate ms) = Unity.of_type t ms.
Proof.
  intros Ht. destruct (without_last_triangulate_cases ms) as [->|(ms' & m & -> & Hm & ->)];
    [reflexivity|].
  unfold Unity.of_type. rewrite List.filter_app. cbn. rewrite Hm.
  destruct t; try contradiction; cbn; rewrite app_nil_r; reflexivity.
Qed.

Lemma of_type_new_triangulate (t : ModType) (ms : list Modifier) :
  t <> TRIANGULATE ->
  Unity.of_type t (ms ++ [Unity.new_triangulate]) = Unity.of_type t ms.
Proof.
  intros Ht. unfold Unity.of_type. rewrite List.filter_app. cbn.
  destruct t; try contradiction; cbn; rewrite app_nil_r; reflexivity.
Qed.

(** What a restore visit makes of the object a prepare visit left behind,
    field by field. *)
Lemma restored_prepared (mx : Matrix) (tri detri : bool) (d' : mesh_id) (o : Object) :
  (type o = MESH -> data o <> None) ->
  let o' := Unity.restored detri (Unity.prepared mx tri d' o) in
  type o' = type o
  /\ matrix_world o' = mx
  /\ location o' = location o
  /\ data o' = data o
  /\ empty_display_size o' = empty_display_size o
  /\ select o' = select o
  /\ unity_exported (M3 o') = false
  /\ pre_unity_export_mx (M3 o') = flatten_matrix identity
  /\ (type o = MESH -> pre_unity_export_mesh (M3 o') = None)
  /\ (forall t : ModType, t <> TRIANGULATE ->
        Unity.of_type t (modifiers o') = Unity.of_type t (modifiers o))
  /\ modifiers o'
     = (if tri && ObjType_eqb (type o) MESH
        then if detri then modifiers o else modifiers o ++ [Unity.new_triangulate]
        else if detri then Unity.without_last_triangulate (modifiers o) else modifiers o).
Proof.
  intros Hdata. cbv zeta.
  assert (Hms : modifiers (Unity.restored detri (Unity.prepared mx tri d' o))
     = (if tri && ObjType_eqb (type o) MESH
        then if detri then modifiers o else modifiers o ++ [Unity.new_triangulate]
        else if detri then Unity.without_last_triangulate (modifiers o) else modifiers o)).
  { unfold Unity.restored, Unity.prepared. cbn [modifiers].
    rewrite List.map_app, restored_prepared_modifiers.
    destruct (tri && ObjType_eqb (type o) MESH), detri; cbn [List.map];
      rewrite ?app_nil_r; try reflexivity.
    apply without_last_triangulate_snoc. }
  repeat split.
  - unfold Unity.restored, Unity.prepared. cbn. apply matrix_of_flat_flatten.
  - unfold Unity.restored, Unity.prepared. cbn.
    destruct (type o) eqn:Ht; try reflexivity.
    destruct (data o) eqn:Hd; [reflexivity | exfalso; apply Hdata; reflexivity].
  - unfold Unity.restored, Unity.prepared. cbn.
    destruct (type o); try reflexivity. field.
  - intros Ht. unfold Unity.restored, Unity.prepared. cbn. rewrite Ht.
    destruct (data o) eqn:Hd; [reflexivity | exfalso; apply Hdata; [exact Ht | reflexivity]].
  - intros t Ht. rewrite Hms.
    destruct (tri && ObjType_eqb (type o) MESH), detri;
      rewrite ?of_type_without_last_triangulate, ?of_type_new_triangulate by exact Ht;
      reflexivity.
  - exact Hms.
Qed.

End RoundTripVisit.

(* ===================================================================== *)
(** * Walks over the hierarchy *)
(* ===================================================================== *)

Section Walks.
Import Mathutils UtilsMath Scene Samples.
Local Open Scope R_scope.

(** Induction over trees, with the hypothesis for every child. *)
Lemma Tree_ind (P : Tree -> Prop) :
  (forall (obj : handle) (children : list Tree), Forall P children -> P (Node obj children)) ->
  forall t : Tree, P t.
Proof.
  intros H. fix IH 1. intros [obj children]. apply H.
  induction children as [|c cs IHcs]; constructor; [apply IH | exact IHcs].
Qed.

Lemma prepares_nil matrices tri (st : Blend) : Unity.prepares matrices tri [] st st.
Proof.
  split; [reflexivity|]. split; [reflexivity|]. intros k Hk. inversion Hk.
Qed.

Lemma prepares_app matrices tri (V1 V2 : list handle) (st st1 st2 : Blend) :
  Unity.prepares matrices tri V1 st st1 ->
  Unity.prepares matrices tri V2 st1 st2 ->
  (forall k : handle, k ∈ V1 -> k ∉ V2) ->
  Unity.prepares matrices tri (V1 ++ V2) st st2.
Proof.
  intros (Hm1 & Ho1 & Hv1) (Hm2 & Ho2 & Hv2) Hdis. split; [|split].
  - etransitivity; eassumption.
  - intros k Hk. apply not_elem_of_app in Hk as [Hk1 Hk2].
    rewrite (Ho2 k Hk2). apply Ho1. exact Hk1.
  - intros k Hk. destruct (decide (k ∈ V1)) as [Hk1|Hk1].
    + destruct (Hv1 k Hk1) as (mx & d' & Hmx & Hobj & Hfresh).
      exists mx, d'. split; [exact Hmx|]. split; [|exact Hfresh].
      rewrite (Ho2 k (Hdis k Hk1)). exact Hobj.
    + apply elem_of_app in Hk as [Hk|Hk2]; [contradiction|].
      destruct (Hv2 k Hk2) as (mx & d' & Hmx & Hobj & Hfresh).
      exists mx, d'. split; [exact Hmx|]. rewrite (Ho1 k Hk1) in Hobj, Hfresh.
      split; [exact Hobj|]. intros Ht. specialize (Hfresh Ht).
      destruct (meshes st !! d') as [m|] eqn:Hd; [|reflexivity].
      rewrite (lookup_weaken _ _ _ _ Hd Hm1) in Hfresh. discriminate Hfresh.
Qed.

Lemma ready_after matrices tri (V1 V2 : list handle) (st st1 : Blend) :
  Unity.ready matrices V2 st ->
  Unity.prepares matrices tri V1 st st1 ->
  (forall k : handle, k ∈ V2 -> k ∉ V1) ->
  Unity.ready matrices V2 st1.
Proof.
  intros Hr (Hm & Ho & _) Hdis k Hk. destruct (Hr k Hk) as [Hmx Hmesh].
  split; [exact Hmx|]. rewrite (Ho k (Hdis k Hk)). intros Ht.
  destruct (Hmesh Ht) as (d & m & Hd & Hl). exists d, m. split; [exact Hd|].
  exact (lookup_weaken _ _ _ _ Hl Hm).
Qed.

(** One prepare visit, as a walk over a single object. *)
Lemma prepares_visit matrices tri (obj : handle) (st : Blend) :
  Unity.ready matrices [obj] st ->
  exists st' : Blend,
    Unity.prepare_object obj matrices tri st = Ok st'
    /\ Unity.prepares matrices tri [obj] st st'.
Proof.
  intros Hr. destruct (Hr obj) as [[mx Hmx] Hmesh]; [apply list_elem_of_singleton; reflexivity|].
  destruct (prepare_object_ok obj matrices tri st mx Hmx Hmesh) as [st' Hok].
  exists st'. split; [exact Hok|].
  destruct (prepare_object_effect _ _ _ _ _ Hok) as (mx' & Hmx' & Hobj & Hoth & Hms).
  assert (Hfresh : meshes st !! fresh (dom (meshes st)) = None)
    by (apply not_elem_of_dom, is_fresh).
  split; [|split].
  - destruct (type (objects st obj)).
    + destruct Hms as (d & m & _ & _ & ->). apply insert_subseteq. exact Hfresh.
    + rewrite Hms. reflexivity.
    + rewrite Hms. reflexivity.
  - intros k Hk. apply Hoth. intros ->. apply Hk. apply list_elem_of_singleton. reflexivity.
  - intros k Hk. apply list_elem_of_singleton in Hk as ->.
    exists mx', (fresh (dom (meshes st))). split; [exact Hmx'|]. split; [exact Hobj|].
    intros _. exact Hfresh.
Qed.

End Walks.

Section PrepareWalk.
Import Mathutils UtilsMath Scene Samples.
Local Open Scope R_scope.

Variable sel : list handle.
Variable matrices : gmap handle Matrix.
Variable tri : bool.

Lemma visited_out_of_scope (t : Tree) (scope : list handle) :
  root t ∉ scope -> Unity.visited t scope = [].
Proof.
  destruct t as [obj children]. cbn. intros H. rewrite bool_decide_eq_false_2 by exact H.
  reflexivity.
Qed.

Lemma ready_app_inv (V1 V2 : list handle) (st : Blend) :
  Unity.ready matrices (V1 ++ V2) st -> Unity.ready matrices V1 st /\ Unity.ready matrices V2 st.
Proof.
  intros H. split; intros k Hk; apply H; apply elem_of_app; [left | right]; exact Hk.
Qed.

Lemma prepare_children (cs : list Tree) :
  Forall (Unity.prepare_walks sel matrices tri) cs ->
  forall st : Blend,
    NoDup (List.flat_map (fun c => Unity.visited c sel) cs) ->
    Unity.ready matrices (List.flat_map (fun c => Unity.visited c sel) cs) st ->
    exists st' : Blend,
      for_each (fun child st =>
                  if bool_decide (root child ∈ sel)
                  then Unity.prepare_for_export child sel matrices tri st
                  else Ok st) cs st = Ok st'
      /\ Unity.prepares matrices tri (List.flat_map (fun c => Unity.visited c sel) cs) st st'.
Proof.
  induction 1 as [|c cs Hc _ IH]; intros st Hnd Hr; cbn [List.flat_map for_each].
  - exists st. split; [reflexivity | apply prepares_nil].
  - cbn [List.flat_map] in Hnd, Hr.
    apply NoDup_app in Hnd as (Hnd1 & Hdis & Hnd2).
    apply ready_app_inv in Hr as [Hr1 Hr2].
    assert (Hstep : exists st1 : Blend,
               (if bool_decide (root c ∈ sel)
                then Unity.prepare_for_export c sel matrices tri st else Ok st) = Ok st1
               /\ Unity.prepares matrices tri (Unity.visited c sel) st st1).
    { destruct (decide (root c ∈ sel)) as [Hin|Hout].
      - rewrite bool_decide_eq_true_2 by exact Hin. apply Hc; assumption.
      - rewrite bool_decide_eq_false_2 by exact Hout. exists st. split; [reflexivity|].
        rewrite visited_out_of_scope by exact Hout. apply prepares_nil. }
    destruct Hstep as (st1 & Hs1 & Hp1). rewrite Hs1. cbn [bind].
    destruct (IH st1 Hnd2) as (st' & Hs' & Hp').
    { apply (ready_after matrices tri (Unity.visited c sel) _ st); [exact Hr2 | exact Hp1 |].
      intros k Hk2 Hk1. exact (Hdis k Hk1 Hk2). }
    exists st'. split; [exact Hs'|].
    apply (prepares_app matrices tri _ _ st st1 st'); assumption.
Qed.

Lemma prepare_walk (t : Tree) : Unity.prepare_walks sel matrices tri t.
Proof.
  induction t as [obj children IH] using Tree_ind. intros st Hnd Hr.
  cbn [Unity.visited Unity.prepare_for_export] in *.
  destruct (decide (obj ∈ sel)) as [Hin|Hout].
  - rewrite bool_decide_eq_true_2 in * by exact Hin.
    apply NoDup_cons in Hnd as [Hfirst Hnd].
    change (obj :: ?l) with ([obj] ++ l) in Hr. apply ready_app_inv in Hr as [Hr1 Hr2].
    destruct (prepares_visit matrices tri obj st Hr1) as (st1 & Hs1 & Hp1).
    rewrite Hs1. cbn [bind].
    destruct (prepare_children children IH st1 Hnd) as (st' & Hs' & Hp').
    { apply (ready_after matrices tri [obj] _ st); [exact Hr2 | exact Hp1 |].
      intros k Hk2 Hk1. apply list_elem_of_singleton in Hk1 as ->. contradiction. }
    exists st'. split; [exact Hs'|].
    change (obj :: ?l) with ([obj] ++ l).
    apply (prepares_app matrices tri _ _ st st1 st'); try assumption.
    intros k Hk1 Hk2. apply list_elem_of_singleton in Hk1 as ->. contradiction.
  - rewrite bool_decide_eq_false_2 in * by exact Hout.
    exists st. split; [reflexivity | apply prepares_nil].
Qed.

End PrepareWalk.

Section RestoreWalk.
Import Mathutils UtilsMath Scene Samples.
Local Open Scope R_scope.

Variable exported : list handle.
Variable detri : bool.

Lemma restores_nil (acc : Blend * list mesh_id) : Unity.restores detri [] acc acc.
Proof.
  split; [reflexivity|]. split; [reflexivity|]. split; [intros k Hk; inversion Hk|].
  intros d Hd. left. exact Hd.
Qed.

Lemma restores_app (V1 V2 : list handle) (a a1 a2 : Blend * list mesh_id) :
  Unity.restores detri V1 a a1 ->
  Unity.restores detri V2 a1 a2 ->
  (forall k : handle, k ∈ V1 -> k ∉ V2) ->
  Unity.restores detri (V1 ++ V2) a a2.
Proof.
  intros (Hm1 & Ho1 & Hv1 & Hr1) (Hm2 & Ho2 & Hv2 & Hr2) Hdis. split; [|split; [|split]].
  - rewrite Hm2. exact Hm1.
  - intros k Hk. apply not_elem_of_app in Hk as [Hk1 Hk2].
    rewrite (Ho2 k Hk2). apply Ho1. exact Hk1.
  - intros k Hk. destruct (decide (k ∈ V1)) as [Hk1|Hk1].
    + rewrite (Ho2 k (Hdis k Hk1)). apply Hv1. exact Hk1.
    + apply elem_of_app in Hk as [Hk|Hk2]; [contradiction|].
      rewrite (Hv2 k Hk2), (Ho1 k Hk1). reflexivity.
  - intros d Hd. destruct (Hr2 d Hd) as [Hd1|(k & Hk & Hrel)].
    + destruct (Hr1 d Hd1) as [Hd0|(k & Hk & Hrel)]; [left; exact Hd0|].
      right. exists k. split; [apply elem_of_app; left; exact Hk | exact Hrel].
    + right. exists k. split; [apply elem_of_app; right; exact Hk|].
      assert (Hk1 : k ∉ V1) by (intros Hk1; exact (Hdis k Hk1 Hk)).
      rewrite <- (Ho1 k Hk1). exact Hrel.
Qed.

Lemma restores_visit (obj : handle) (acc : Blend * list mesh_id) :
  Unity.restores detri [obj] acc (Unity.restore_object obj detri (fst acc) (snd acc)).
Proof.
  pose proof (restore_object_effect obj detri (fst acc) (snd acc)) as H. cbv zeta in H.
  destruct H as (Hobj & Hoth & Hm & Hrel). split; [exact Hm|]. split; [|split].
  - intros k Hk. apply Hoth. intros ->. apply Hk. apply list_elem_of_singleton. reflexivity.
  - intros k Hk. apply list_elem_of_singleton in Hk as ->. exact Hobj.
  - intros d Hd. rewrite Hrel in Hd. apply elem_of_app in Hd as [Hd|Hd]; [left; exact Hd|].
    right. exists obj. split; [apply list_elem_of_singleton; reflexivity | exact Hd].
Qed.

Lemma restore_children (cs : list Tree) :
  Forall (Unity.restore_walks exported detri) cs ->
  forall acc : Blend * list mesh_id,
    NoDup (List.flat_map (fun c => Unity.visited c exported) cs) ->
    Unity.restores detri (List.flat_map (fun c => Unity.visited c exported) cs) acc
      (List.fold_left
         (fun acc child =>
            if bool_decide (root child ∈ exported)
            then Unity.restore_exported child exported detri acc
            else acc) cs acc).
Proof.
  induction 1 as [|c cs Hc _ IH]; intros acc Hnd; cbn [List.flat_map List.fold_left].
  - apply restores_nil.
  - cbn [List.flat_map] in Hnd. apply NoDup_app in Hnd as (Hnd1 & Hdis & Hnd2).
    apply (restores_app _ _ acc
             (if bool_decide (root c ∈ exported)
              then Unity.restore_exported c exported detri acc else acc)).
    + destruct (decide (root c ∈ exported)) as [Hin|Hout].
      * rewrite bool_decide_eq_true_2 by exact Hin. apply Hc. exact Hnd1.
      * rewrite bool_decide_eq_false_2 by exact Hout.
        rewrite visited_out_of_scope by exact Hout. apply restores_nil.
    + apply IH. exact Hnd2.
    + exact Hdis.
Qed.

Lemma restore_walk (t : Tree) : Unity.restore_walks exported detri t.
Proof.
  induction t as [obj children IH] using Tree_ind. intros acc Hnd.
  cbn [Unity.visited Unity.restore_exported] in *.
  destruct (decide (obj ∈ exported)) as [Hin|Hout].
  - rewrite bool_decide_eq_true_2 in * by exact Hin.
    apply NoDup_cons in Hnd as [Hfirst Hnd].
    change (obj :: ?l) with ([obj] ++ l).
    apply (restores_app _ _ acc (Unity.restore_object obj detri (fst acc) (snd acc))).
    + apply restores_visit.
    + apply restore_children; assumption.
    + intros k Hk1 Hk2. apply list_elem_of_singleton in Hk1 as ->. contradiction.
  - rewrite bool_decide_eq_false_2 in * by exact Hout. apply restores_nil.
Qed.

End RestoreWalk.

Section VisitedFacts.
Import Mathutils UtilsMath Scene Samples.

Lemma elem_of_flat_map {A B} (f : A -> list B) (l : list A) (b : B) :
  b ∈ List.flat_map f l <-> exists a : A, a ∈ l /\ b ∈ f a.
Proof.
  induction l as [|x l IH]; cbn.
  - split; [intros H; inversion H | intros (a & Ha & _); inversion Ha].
  - rewrite elem_of_app, IH. split.
    + intros [H|(a & Ha & Hb)]; [exists x | exists a]; split; auto using list_elem_of_here.
      apply list_elem_of_further. exact Ha.
    + intros (a & Ha & Hb). apply elem_of_cons in Ha as [->|Ha]; [left | right; exists a]; auto.
Qed.

(** The walk visits [k] exactly when [k] and everything above it in the
    tree is in scope. *)
Lemma visited_reaches (scope : list handle) (t : Tree) (k : handle) :
  k ∈ Unity.visited t scope <-> Unity.reaches scope t k.
Proof.
  revert k. induction t as [obj children IH] using Tree_ind. intros k. cbn [Unity.visited].
  destruct (decide (obj ∈ scope)) as [Hin|Hout].
  - rewrite bool_decide_eq_true_2 by exact Hin. rewrite elem_of_cons, elem_of_flat_map. split.
    + intros [->|(c & Hc & Hk)]; [apply Unity.reaches_root; exact Hin|].
      apply (Unity.reaches_child scope obj children c k Hin Hc).
      rewrite Forall_forall in IH. apply (IH c Hc). exact Hk.
    + intros H. inversion H as [o cs Ho|o cs c k' Ho Hc Hr]; subst; [left; reflexivity|].
      right. exists c. split; [exact Hc|]. rewrite Forall_forall in IH. apply (IH c Hc). exact Hr.
  - rewrite bool_decide_eq_false_2 by exact Hout. split; [intros H; inversion H|].
    intros H. inversion H; subst; contradiction.
Qed.

Lemma reaches_in_scope (scope : list handle) (t : Tree) (k : handle) :
  Unity.reaches scope t k -> k ∈ scope.
Proof. induction 1; assumption. Qed.

Lemma visited_in_scope (scope : list handle) (t : Tree) (k : handle) :
  k ∈ Unity.visited t scope -> k ∈ scope.
Proof. intros H. apply visited_reaches in H. exact (reaches_in_scope _ _ _ H). Qed.

Lemma flat_map_sublist {A B} (f g : A -> list B) (l : list A) :
  Forall (fun a => f a `sublist_of` g a) l -> List.flat_map f l `sublist_of` List.flat_map g l.
Proof.
  induction 1 as [|a l Ha _ IH]; cbn; [constructor|]. apply sublist_app; assumption.
Qed.

Lemma visited_sublist (scope : list handle) (t : Tree) :
  Unity.visited t scope `sublist_of` Unity.handles t.
Proof.
  induction t as [obj children IH] using Tree_ind. cbn [Unity.visited Unity.handles].
  destruct (bool_decide (obj ∈ scope)); [|apply sublist_nil_l].
  apply sublist_skip. apply flat_map_sublist. exact IH.
Qed.

Lemma visited_NoDup (scope : list handle) (t : Tree) :
  NoDup (Unity.handles t) -> NoDup (Unity.visited t scope).
Proof. intros H. exact (sublist_NoDup _ _ H (visited_sublist scope t)). Qed.

Lemma visited_in_handles (scope : list handle) (t : Tree) (k : handle) :
  k ∈ Unity.visited t scope -> k ∈ Unity.handles t.
Proof. intros H. exact (elem_of_sublist _ _ _ H (visited_sublist scope t)). Qed.

Lemma flat_map_ext_in {A B} (f g : A -> list B) (l : list A) :
  Forall (fun a => f a = g a) l -> List.flat_map f l = List.flat_map g l.
Proof. induction 1 as [|a l Ha _ IH]; cbn; [reflexivity|]. rewrite Ha, IH. reflexivity. Qed.

(** Narrowing the scope to a list that still holds everything the walk
    visits does not change the walk. *)
Lemma visited_narrow (A B : list handle) (t : Tree) :
  (forall k : handle, k ∈ B -> k ∈ A) ->
  (forall k : handle, k ∈ Unity.visited t A -> k ∈ B) ->
  Unity.visited t B = Unity.visited t A.
Proof.
  intros HBA. induction t as [obj children IH] using Tree_ind. cbn [Unity.visited].
  destruct (decide (obj ∈ A)) as [Hin|Hout].
  - rewrite (bool_decide_eq_true_2 (obj ∈ A)) by exact Hin. intros Hv.
    rewrite bool_decide_eq_true_2 by (apply Hv, list_elem_of_here).
    f_equal. apply flat_map_ext_in. rewrite Forall_forall in *. intros c Hc.
    apply (IH c Hc). intros k Hk. apply Hv. apply list_elem_of_further.
    apply elem_of_flat_map. exists c. split; assumption.
  - rewrite (bool_decide_eq_false_2 (obj ∈ A)) by exact Hout. intros _.
    rewrite bool_decide_eq_false_2; [reflexivity|]. intros H. apply Hout, HBA, H.
Qed.

Lemma root_in_handles (t : Tree) : root t ∈ Unity.handles t.
Proof. destruct t. cbn. apply list_elem_of_here. Qed.

Lemma root_visited (scope : list handle) (t : Tree) :
  root t ∈ scope -> root t ∈ Unity.visited t scope.
Proof.
  destruct t as [obj cs]. cbn. intros H. rewrite bool_decide_eq_true_2 by exact H.
  apply list_elem_of_here.
Qed.

End VisitedFacts.

(* ===================================================================== *)
(** * Which objects export preparation reaches *)
(* ===================================================================== *)

Section PrepareScope.
Import Mathutils UtilsMath Scene Samples.
Local Open Scope R_scope.

(** C4, amended: [prepare_for_export] mutates only objects in the scope,
    and it does not descend through an object that is out of scope: from
    [t] it prepares exactly the objects that are in scope together with
    everything above them in [t]; every other object, in scope or not, is
    left as it was, and a walk from an out-of-scope object changes
    nothing. *)
Theorem prepare_for_export_scope (t : Tree) (sel : list handle) (matrices : gmap handle Matrix)
    (tri : bool) (st : Blend) :
  NoDup (Unity.handles t) ->
  (forall k : handle, k ∈ sel -> is_Some (matrices !! k)) ->
  (forall k : handle, k ∈ Unity.handles t -> type (objects st k) = MESH ->
     exists (d : mesh_id) (m : Mesh), data (objects st k) = Some d /\ meshes st !! d = Some m) ->
  exists st' : Blend,
    Unity.prepare_for_export t sel matrices tri st = Ok st'
    /\ (root t ∉ sel -> st' = st)
    /\ forall k : handle,
         (Unity.reaches sel t k ->
            k ∈ sel
            /\ unity_exported (M3 (objects st' k)) = true
            /\ exists mx : Matrix,
                 matrices !! k = Some mx
                 /\ pre_unity_export_mx (M3 (objects st' k)) = flatten_matrix mx
                 /\ matrix_world (objects st' k) = Unity.prepared_matrix mx)
         /\ (~ Unity.reaches sel t k -> objects st' k = objects st k).
Proof.
  intros Hnd Hmx Hmesh.
  destruct (prepare_walk sel matrices tri t st) as (st' & Hok & Hm & Hout & Hin).
  { apply visited_NoDup. exact Hnd. }
  { intros k Hk. split; [apply Hmx; exact (visited_in_scope _ _ _ Hk)|].
    apply Hmesh. exact (visited_in_handles _ _ _ Hk). }
  exists st'. split; [exact Hok|]. split.
  - intros Hroot. destruct t as [obj cs]. cbn in Hok, Hroot.
    rewrite bool_decide_eq_false_2 in Hok by exact Hroot. injection Hok as <-. reflexivity.
  - intros k. split.
    + intros Hr. split; [exact (reaches_in_scope _ _ _ Hr)|].
      apply visited_reaches in Hr. destruct (Hin k Hr) as (mx & d' & Hk & Hobj & _).
      rewrite Hobj. split; [reflexivity|]. exists mx. repeat split. exact Hk.
    + intros Hr. apply Hout. intros Hv. apply Hr. apply visited_reaches. exact Hv.
Qed.

Lemma family_tree_NoDup : NoDup (Unity.handles family_tree).
Proof.
  cbn. repeat (apply NoDup_cons; split; [intros H; repeat (apply elem_of_cons in H as [H|H]; [discriminate H|]); inversion H|]).
  apply NoDup_nil. exact I.
Qed.

Lemma prepare_for_export_scope_witness :
  exists st' : Blend,
    Unity.prepare_for_export family_tree [0%nat; 1%nat]
      {[ 0%nat := identity; 1%nat := identity ]} false family = Ok st'
    /\ (root family_tree ∉ [0%nat; 1%nat] -> st' = family)
    /\ forall k : handle,
         (Unity.reaches [0%nat; 1%nat] family_tree k ->
            k ∈ [0%nat; 1%nat]
            /\ unity_exported (M3 (objects st' k)) = true
            /\ exists mx : Matrix,
                 ({[ 0%nat := identity; 1%nat := identity ]} : gmap handle Matrix) !! k = Some mx
                 /\ pre_unity_export_mx (M3 (objects st' k)) = flatten_matrix mx
                 /\ matrix_world (objects st' k) = Unity.prepared_matrix mx)
         /\ (~ Unity.reaches [0%nat; 1%nat] family_tree k -> objects st' k = objects family k).
Proof.
  apply (prepare_for_export_scope family_tree [0%nat; 1%nat]
           {[ 0%nat := identity; 1%nat := identity ]} false family).
  - exact family_tree_NoDup.
  - intros k Hk. apply elem_of_cons in Hk as [->|Hk]; [eexists; reflexivity|].
    apply list_elem_of_singleton in Hk as ->. eexists. reflexivity.
  - intros k _ Ht. exfalso. destruct k as [|[|k]]; discriminate Ht.
Defined.

(** C4 as stated fails: object 1 is selected and its parent, object 0, is
    not.  The operator finds no selected object without a parent, walks
    nothing and leaves object 1 unprepared; a walk started at the parent
    stops there as well. *)
Lemma prepare_skips_orphan_counterexample :
  (1%nat ∈ Unity.selected_objects orphan_context orphan)
  /\ (0%nat ∉ Unity.selected_objects orphan_context orphan)
  /\ Unity.prepare_invoke orphan_context no_keys orphan = Ok (Unity.FINISHED, orphan)
  /\ unity_exported (M3 (objects orphan 1%nat)) = false
  /\ Unity.prepare_for_export (Node 0%nat [Node 1%nat []]) [1%nat] {[ 1%nat := identity ]}
       false orphan = Ok orphan.
Proof.
  split; [apply list_elem_of_here|].
  split; [intros H; apply list_elem_of_singleton in H; discriminate H|].
  repeat split; reflexivity.
Qed.

End PrepareScope.

(* ===================================================================== *)
(** * The export-state invariant *)
(* ===================================================================== *)

Section ExportState.
Import Mathutils UtilsMath Scene Samples.
Local Open Scope R_scope.

(** C9: the export-state invariant (a flagged object carries the saved
    pre-export matrix) survives every prepare visit and every restore
    visit.  A prepare visit sets the flag together with the saved matrix; a
    restore visit writes the saved matrix back and clears the flag and the
    saved matrix together, so the flag is never left set without a saved
    matrix. *)
Theorem export_state_invariant (matrices : gmap handle Matrix) (st : Blend) :
  Unity.annotated matrices st ->
  (forall (obj : handle) (tri : bool) (st' : Blend),
     Unity.prepare_object obj matrices tri st = Ok st' ->
     Unity.annotated matrices st'
     /\ unity_exported (M3 (objects st' obj)) = true
     /\ exists mx : Matrix,
          matrices !! obj = Some mx
          /\ pre_unity_export_mx (M3 (objects st' obj)) = flatten_matrix mx)
  /\ (forall (obj : handle) (detri : bool) (released : list mesh_id),
        let st' := fst (Unity.restore_object obj detri st released) in
        Unity.annotated matrices st'
        /\ unity_exported (M3 (objects st' obj)) = false
        /\ pre_unity_export_mx (M3 (objects st' obj)) = flatten_matrix identity
        /\ (unity_exported (M3 (objects st obj)) = true ->
            exists mx : Matrix,
              matrices !! obj = Some mx /\ matrix_world (objects st' obj) = mx)).
Proof.
  intros Hinv. split.
  - intros obj tri st' Hok.
    destruct (prepare_object_effect _ _ _ _ _ Hok) as (mx & Hmx & Hobj & Hoth & _).
    split; [|split].
    + intros k Hk. destruct (decide (k = obj)) as [->|Hne].
      * exists mx. split; [exact Hmx|]. rewrite Hobj. reflexivity.
      * rewrite (Hoth k Hne) in *. apply Hinv. exact Hk.
    + rewrite Hobj. reflexivity.
    + exists mx. split; [exact Hmx|]. rewrite Hobj. reflexivity.
  - intros obj detri released. cbv zeta.
    pose proof (restore_object_effect obj detri st released) as H. cbv zeta in H.
    destruct H as (Hobj & Hoth & _ & _). split; [|split; [|split]].
    + intros k Hk. destruct (decide (k = obj)) as [->|Hne].
      * rewrite Hobj in Hk. discriminate Hk.
      * rewrite (Hoth k Hne) in *. apply Hinv. exact Hk.
    + rewrite Hobj. reflexivity.
    + rewrite Hobj. reflexivity.
    + intros Hflag. destruct (Hinv obj Hflag) as (mx & Hmx & Hsaved).
      exists mx. split; [exact Hmx|]. rewrite Hobj. cbn [Unity.restored matrix_world].
      rewrite Hsaved. apply matrix_of_flat_flatten.
Qed.

Lemma flagged_annotated : Unity.annotated flagged_matrices flagged.
Proof.
  intros k Hk. destruct k; [|discriminate Hk].
  exists (half_turn_at (Vec 3 4 5)). split; [apply lookup_singleton_eq | reflexivity].
Qed.

Lemma export_state_invariant_witness :
  (forall (obj : handle) (tri : bool) (st' : Blend),
     Unity.prepare_object obj flagged_matrices tri flagged = Ok st' ->
     Unity.annotated flagged_matrices st'
     /\ unity_exported (M3 (objects st' obj)) = true
     /\ exists mx : Matrix,
          flagged_matrices !! obj = Some mx
          /\ pre_unity_export_mx (M3 (objects st' obj)) = flatten_matrix mx)
  /\ (forall (obj : handle) (detri : bool) (released : list mesh_id),
        let st' := fst (Unity.restore_object obj detri flagged released) in
        Unity.annotated flagged_matrices st'
        /\ unity_exported (M3 (objects st' obj)) = false
        /\ pre_unity_export_mx (M3 (objects st' obj)) = flatten_matrix identity
        /\ (unity_exported (M3 (objects flagged obj)) = true ->
            exists mx : Matrix,
              flagged_matrices !! obj = Some mx /\ matrix_world (objects st' obj) = mx)).
Proof.
  apply (export_state_invariant flagged_matrices flagged).
  exact flagged_annotated.
Defined.

End ExportState.

(* ===================================================================== *)
(** * Walks from the root objects *)
(* ===================================================================== *)

Section Forest.
Import Mathutils UtilsMath Scene Samples.

Lemma forest_NoDup_tree (forest : list Tree) (t : Tree) :
  NoDup (List.flat_map Unity.handles forest) -> t ∈ forest -> NoDup (Unity.handles t).
Proof.
  induction forest as [|x forest IH]; cbn; intros Hnd Ht; [inversion Ht|].
  apply NoDup_app in Hnd as (Hx & _ & Hrest).
  apply elem_of_cons in Ht as [->|Ht]; [exact Hx | exact (IH Hrest Ht)].
Qed.

(** Two trees of a hierarchy that share an object are the same tree. *)
Lemma forest_disjoint (forest : list Tree) (t t' : Tree) (k : handle) :
  NoDup (List.flat_map Unity.handles forest) ->
  t ∈ forest -> t' ∈ forest -> k ∈ Unity.handles t -> k ∈ Unity.handles t' -> t = t'.
Proof.
  induction forest as [|x forest IH]; cbn; intros Hnd Ht Ht' Hk Hk'; [inversion Ht|].
  apply NoDup_app in Hnd as (Hx & Hdis & Hrest).
  apply elem_of_cons in Ht as [->|Ht]; apply elem_of_cons in Ht' as [->|Ht'].
  - reflexivity.
  - exfalso. apply (Hdis k Hk). apply elem_of_flat_map. exists t'. split; assumption.
  - exfalso. apply (Hdis k Hk'). apply elem_of_flat_map. exists t. split; assumption.
  - exact (IH Hrest Ht Ht' Hk Hk').
Qed.

Lemma top_level_Some (forest : list Tree) (h : handle) (t : Tree) :
  Unity.top_level forest h = Some t -> t ∈ forest /\ root t = h.
Proof.
  unfold Unity.top_level. intros H. apply List.find_some in H as [Hin Hr].
  split; [apply list_elem_of_In; exact Hin | apply Nat.eqb_eq; exact Hr].
Qed.

Lemma roots_of_spec (forest : list Tree) (objs : list handle) (t : Tree) :
  t ∈ Unity.roots_of forest objs -> t ∈ forest /\ root t ∈ objs.
Proof.
  unfold Unity.roots_of. intros H. apply list_elem_of_omap in H as (h & Hh & Ht).
  apply top_level_Some in Ht as [Hin <-]. split; assumption.
Qed.

(** The trees under the parentless objects of a duplicate-free list share
    no object. *)
Lemma roots_of_NoDup (forest : list Tree) (objs : list handle) :
  NoDup (List.flat_map Unity.handles forest) -> NoDup objs ->
  NoDup (List.flat_map Unity.handles (Unity.roots_of forest objs)).
Proof.
  intros Hf. induction objs as [|h objs IH]; intros Hnd; [constructor|].
  apply NoDup_cons in Hnd as [Hh Hnd]. unfold Unity.roots_of. cbn [omap list_omap].
  destruct (Unity.top_level forest h) as [t|] eqn:Ht; [|exact (IH Hnd)].
  cbn [List.flat_map]. apply top_level_Some in Ht as [Hin Hroot].
  apply NoDup_app. split; [exact (forest_NoDup_tree _ _ Hf Hin)|]. split; [|exact (IH Hnd)].
  intros k Hk Hk'. apply elem_of_flat_map in Hk' as (t' & Ht' & Hk').
  apply roots_of_spec in Ht' as [Hin' Hroot'].
  assert (t = t') by exact (forest_disjoint _ _ _ _ Hf Hin Hin' Hk Hk'). subst t'.
  apply Hh. rewrite <- Hroot. exact Hroot'.
Qed.

Lemma visited_forest_NoDup (scope : list handle) (ts : list Tree) :
  NoDup (List.flat_map Unity.handles ts) ->
  NoDup (List.flat_map (fun t => Unity.visited t scope) ts).
Proof.
  intros H. refine (sublist_NoDup _ _ H _). apply flat_map_sublist.
  apply Forall_forall. intros t _. apply visited_sublist.
Qed.

(** The objects parentless in two sub-lists of one list are the same
    when the two selections agree on the parentless objects. *)
Lemma roots_of_filter_agree (forest : list Tree) (p q : handle -> bool) (l : list handle) :
  (forall h : handle, h ∈ l -> is_Some (Unity.top_level forest h) -> p h = q h) ->
  Unity.roots_of forest (List.filter p l) = Unity.roots_of forest (List.filter q l).
Proof.
  unfold Unity.roots_of. induction l as [|h l IH]; intros H; [reflexivity|]. cbn [List.filter].
  assert (IH' : omap (Unity.top_level forest) (List.filter p l)
                = omap (Unity.top_level forest) (List.filter q l)).
  { apply IH. intros k Hk. apply H. apply list_elem_of_further. exact Hk. }
  destruct (Unity.top_level forest h) as [t|] eqn:Ht.
  - rewrite <- (H h); [|apply list_elem_of_here | rewrite Ht; eexists; reflexivity].
    destruct (p h); [|exact IH']. cbn [omap list_omap]. rewrite Ht, <- IH'. reflexivity.
  - destruct (p h), (q h); cbn [omap list_omap]; rewrite ?Ht; exact IH'.
Qed.

End Forest.

Section ForestWalks.
Import Mathutils UtilsMath Scene Samples.

Lemma prepare_forest (sel : list handle) (matrices : gmap handle Matrix) (tri : bool)
    (ts : list Tree) :
  forall st : Blend,
    NoDup (List.flat_map (fun t => Unity.visited t sel) ts) ->
    Unity.ready matrices (List.flat_map (fun t => Unity.visited t sel) ts) st ->
    exists st' : Blend,
      for_each (fun t => Unity.prepare_for_export t sel matrices tri) ts st = Ok st'
      /\ Unity.prepares matrices tri (List.flat_map (fun t => Unity.visited t sel) ts) st st'.
Proof.
  induction ts as [|t ts IH]; intros st Hnd Hr; cbn [List.flat_map for_each].
  - exists st. split; [reflexivity | apply prepares_nil].
  - cbn [List.flat_map] in Hnd, Hr.
    apply NoDup_app in Hnd as (Hnd1 & Hdis & Hnd2).
    apply ready_app_inv in Hr as [Hr1 Hr2].
    destruct (prepare_walk sel matrices tri t st Hnd1 Hr1) as (st1 & Hs1 & Hp1).
    rewrite Hs1. cbn [bind].
    destruct (IH st1 Hnd2) as (st' & Hs' & Hp').
    { apply (ready_after matrices tri (Unity.visited t sel) _ st); [exact Hr2 | exact Hp1 |].
      intros k Hk2 Hk1. exact (Hdis k Hk1 Hk2). }
    exists st'. split; [exact Hs'|].
    apply (prepares_app matrices tri _ _ st st1 st'); assumption.
Qed.

Lemma restore_forest (exported : list handle) (detri : bool) (ts : list Tree) :
  forall acc : Blend * list mesh_id,
    NoDup (List.flat_map (fun t => Unity.visited t exported) ts) ->
    Unity.restores detri (List.flat_map (fun t => Unity.visited t exported) ts) acc
      (List.fold_left (fun acc t => Unity.restore_exported t exported detri acc) ts acc).
Proof.
  induction ts as [|t ts IH]; intros acc Hnd; cbn [List.flat_map List.fold_left].
  - apply restores_nil.
  - cbn [List.flat_map] in Hnd. apply NoDup_app in Hnd as (Hnd1 & Hdis & Hnd2).
    apply (restores_app detri _ _ acc (Unity.restore_exported t exported detri acc)).
    + apply restore_walk. exact Hnd1.
    + apply IH. exact Hnd2.
    + exact Hdis.
Qed.

(** Selecting everything changes no field but [select]. *)
Lemma select_all_effect (l : list handle) :
  forall st : Blend,
  let st' := List.fold_left (fun s h => update_object h (set_select true) s) l st in
  meshes st' = meshes st
  /\ forall k : handle,
       (exists b : bool, objects st' k = set_select b (objects st k))
       /\ (k ∈ l -> select (objects st' k) = true)
       /\ (k ∉ l -> objects st' k = objects st k).
Proof.
  induction l as [|h l IH]; intros st; cbv zeta; cbn [List.fold_left].
  - split; [reflexivity|]. intros k. split; [|split; [intros H; inversion H | reflexivity]].
    exists (select (objects st k)). destruct (objects st k); reflexivity.
  - destruct (IH (update_object h (set_select true) st)) as [IHm IHk].
    split; [rewrite IHm; reflexivity|].
    intros k. destruct (IHk k) as ([b IHo] & IHs & IHn). split; [|split].
    + exists b. rewrite IHo, objects_update_object.
      destruct (Nat.eqb k h); reflexivity.
    + intros Hk. destruct (decide (k ∈ l)) as [Hl|Hl]; [exact (IHs Hl)|].
      apply elem_of_cons in Hk as [->|Hk]; [|contradiction].
      rewrite (IHn Hl), objects_update_same. reflexivity.
    + intros Hk. apply not_elem_of_cons in Hk as [Hne Hk].
      rewrite (IHn Hk). apply objects_update_other. exact Hne.
Qed.

(** The dictionary of collected matrices holds every selected object's
    world matrix. *)
Lemma collected_lookup (f : handle -> Matrix) (l : list handle) (k : handle) :
  k ∈ l ->
  (list_to_map (List.map (fun h => (h, f h)) l) : gmap handle Matrix) !! k = Some (f k).
Proof.
  induction l as [|h l IH]; intros Hk; [inversion Hk|]. cbn [List.map].
  rewrite list_to_map_cons.
  destruct (decide (k = h)) as [->|Hne]; [apply lookup_insert_eq|].
  rewrite lookup_insert_ne by (intros E; apply Hne; symmetry; exact E).
  apply elem_of_cons in Hk as [Hk|Hk]; [contradiction | exact (IH Hk)].
Qed.

Lemma batch_remove_objects (ids : list mesh_id) (st : Blend) :
  objects (Unity.batch_remove ids st) = objects st.
Proof. reflexivity. Qed.

(** Removing blocks keeps every block that is not on the list. *)
Lemma batch_remove_lookup (ids : list mesh_id) (st : Blend) (d : mesh_id) :
  d ∉ ids -> meshes (Unity.batch_remove ids st) !! d = meshes st !! d.
Proof.
  unfold Unity.batch_remove. cbn [meshes set_meshes]. generalize (meshes st).
  induction ids as [|i ids IH]; intros ms Hd; cbn [List.fold_left]; [reflexivity|].
  apply not_elem_of_cons in Hd as [Hne Hd]. rewrite (IH _ Hd).
  apply lookup_delete_ne. intros E. apply Hne. symmetry. exact E.
Qed.

End ForestWalks.

(* ===================================================================== *)
(** * Prepare followed by restore *)
(* ===================================================================== *)

Section RoundTrip.
Import Mathutils UtilsMath Scene Samples.
Local Open Scope R_scope.

Variables (ctx ctx' : Unity.Context) (event : Unity.Event) (st : Blend).
Hypothesis same_hierarchy : Unity.hierarchy ctx' = Unity.hierarchy ctx.
Hypothesis same_visible : Unity.visible_objects ctx' = Unity.visible_objects ctx.
Hypothesis visible_NoDup : NoDup (Unity.visible_objects ctx).
Hypothesis hierarchy_NoDup : NoDup (List.flat_map Unity.handles (Unity.hierarchy ctx)).
Hypothesis poll : Unity.prepare_poll ctx st = true.
Hypothesis meshes_present :
  forall k : handle, k ∈ Unity.visible_objects ctx -> type (objects st k) = MESH ->
    exists (d : mesh_id) (m : Mesh), data (objects st k) = Some d /\ meshes st !! d = Some m.

Let st0 : Blend :=
  match Unity.selected_objects ctx st with
  | [] => List.fold_left (fun s h => update_object h (set_select true) s)
                         (Unity.visible_objects ctx) st
  | _ => st
  end.

Lemma st0_effect :
  meshes st0 = meshes st
  /\ forall k : handle, exists b : bool, objects st0 k = set_select b (objects st k).
Proof.
  unfold st0. destruct (Unity.selected_objects ctx st).
  - destruct (select_all_effect (Unity.visible_objects ctx) st) as [Hm Hk].
    split; [exact Hm|]. intros k. exact (proj1 (Hk k)).
  - split; [reflexivity|]. intros k. exists (select (objects st k)).
    destruct (objects st k); reflexivity.
Qed.

Lemma filter_all {A} (p : A -> bool) (l : list A) :
  (forall a : A, a ∈ l -> p a = true) -> List.filter p l = l.
Proof.
  induction l as [|a l IH]; intros H; [reflexivity|]. cbn.
  rewrite (H a) by apply list_elem_of_here. f_equal. apply IH.
  intros b Hb. apply H. apply list_elem_of_further. exact Hb.
Qed.

Lemma selected_st0 : Unity.selected_objects ctx st0 = Unity.effective_selection ctx st.
Proof.
  unfold st0, Unity.effective_selection.
  destruct (Unity.selected_objects ctx st) eqn:Hs; [|exact Hs].
  unfold Unity.selected_objects. apply filter_all. intros k Hk.
  destruct (select_all_effect (Unity.visible_objects ctx) st) as [_ H].
  exact (proj1 (proj2 (H k)) Hk).
Qed.

Lemma selection_visible (k : handle) :
  k ∈ Unity.effective_selection ctx st -> k ∈ Unity.visible_objects ctx.
Proof.
  unfold Unity.effective_selection.
  destruct (Unity.selected_objects ctx st) eqn:Hs; [tauto|]. rewrite <- Hs.
  unfold Unity.selected_objects. rewrite list_elem_of_In, List.filter_In, <- list_elem_of_In.
  tauto.
Qed.

Lemma selection_NoDup : NoDup (Unity.effective_selection ctx st).
Proof.
  rewrite <- selected_st0. unfold Unity.selected_objects.
  apply NoDup_ListNoDup, List.NoDup_filter, NoDup_ListNoDup. exact visible_NoDup.
Qed.

Let sel : list handle := Unity.effective_selection ctx st.
Let matrices : gmap handle Matrix :=
  list_to_map (List.map (fun h => (h, matrix_world (objects st0 h))) sel).
Let V : list handle := Unity.reached ctx sel.

Lemma reached_selected (k : handle) : k ∈ V -> k ∈ sel.
Proof.
  unfold V, Unity.reached. intros H. apply elem_of_flat_map in H as (t & _ & Hk).
  exact (visited_in_scope _ _ _ Hk).
Qed.

Lemma reached_NoDup : NoDup V.
Proof.
  apply visited_forest_NoDup. apply roots_of_NoDup; [exact hierarchy_NoDup | exact selection_NoDup].
Qed.

Lemma matrices_lookup (k : handle) :
  k ∈ sel -> matrices !! k = Some (matrix_world (objects st k)).
Proof.
  intros Hk. unfold matrices.
  rewrite (collected_lookup (fun h => matrix_world (objects st0 h)) sel k Hk).
  destruct (proj2 st0_effect k) as [b ->]. reflexivity.
Qed.

Lemma reached_ready : Unity.ready matrices V st0.
Proof.
  intros k Hk. apply reached_selected in Hk. split.
  - rewrite (matrices_lookup k Hk). eexists. reflexivity.
  - destruct st0_effect as [Hm Ho]. destruct (Ho k) as [b Hb]. rewrite Hb, Hm.
    cbn [type data set_select]. apply meshes_present. apply selection_visible. exact Hk.
Qed.

(** The prepare operator returns, having prepared exactly the reached
    objects. *)
Lemma prepare_run :
  exists st1 : Blend,
    Unity.prepare_invoke ctx event st = Ok (Unity.FINISHED, st1)
    /\ Unity.prepares matrices (Unity.unity_triangulate ctx) V st0 st1.
Proof.
  destruct (prepare_forest sel matrices (Unity.unity_triangulate ctx)
              (Unity.roots_of (Unity.hierarchy ctx) sel) st0 reached_NoDup reached_ready)
    as (st1 & Hok & Hp).
  exists st1. split; [|exact Hp].
  unfold Unity.prepare_invoke. fold st0. cbv zeta. rewrite selected_st0. fold sel. fold matrices.
  rewrite Hok. reflexivity.
Qed.

Section AfterPrepare.

Variable st1 : Blend.
Hypothesis prepared_st1 : Unity.prepares matrices (Unity.unity_triangulate ctx) V st0 st1.

Let exported : list handle :=
  List.filter (fun h => unity_exported (M3 (objects st1 h))) (Unity.visible_objects ctx').

(** After preparation the flagged visible objects are the reached ones. *)
Lemma flagged_after (k : handle) :
  k ∈ Unity.visible_objects ctx ->
  unity_exported (M3 (objects st1 k)) = bool_decide (k ∈ V).
Proof.
  intros Hk. destruct prepared_st1 as (_ & Hout & Hin).
  destruct (decide (k ∈ V)) as [HV|HV].
  - rewrite bool_decide_eq_true_2 by exact HV.
    destruct (Hin k HV) as (mx & d' & _ & -> & _). reflexivity.
  - rewrite bool_decide_eq_false_2 by exact HV. rewrite (Hout k HV).
    destruct (proj2 st0_effect k) as [b ->]. cbn [M3 set_select].
    unfold Unity.prepare_poll in poll. rewrite List.forallb_forall in poll.
    apply negb_true_iff. apply poll. apply list_elem_of_In. exact Hk.
Qed.

Lemma exported_iff (k : handle) : k ∈ exported <-> k ∈ V.
Proof.
  unfold exported. rewrite same_visible, list_elem_of_In, List.filter_In, <- list_elem_of_In.
  split.
  - intros [Hk Hf]. rewrite (flagged_after k Hk) in Hf. apply bool_decide_eq_true in Hf. exact Hf.
  - intros HV. assert (Hk : k ∈ Unity.visible_objects ctx)
      by (apply selection_visible, reached_selected; exact HV).
    split; [exact Hk|]. rewrite (flagged_after k Hk). apply bool_decide_eq_true_2. exact HV.
Qed.

Lemma exported_roots :
  Unity.roots_of (Unity.hierarchy ctx') exported = Unity.roots_of (Unity.hierarchy ctx) sel.
Proof.
  rewrite same_hierarchy. unfold exported, sel. rewrite same_visible, <- selected_st0.
  unfold Unity.selected_objects. apply roots_of_filter_agree.
  intros h Hh [t Ht]. rewrite (flagged_after h Hh).
  destruct (select (objects st0 h)) eqn:Hs.
  - apply bool_decide_eq_true_2. unfold V, Unity.reached. apply elem_of_flat_map.
    assert (Hsel : h ∈ sel).
    { unfold sel. rewrite <- selected_st0. unfold Unity.selected_objects.
      rewrite list_elem_of_In, List.filter_In, <- list_elem_of_In. split; assumption. }
    exists t. split.
    + unfold Unity.roots_of. apply list_elem_of_omap. exists h. split; assumption.
    + apply top_level_Some in Ht as [_ <-]. apply root_visited. exact Hsel.
  - apply bool_decide_eq_false_2. intros HV. apply reached_selected in HV.
    unfold sel in HV. rewrite <- selected_st0 in HV. unfold Unity.selected_objects in HV.
    rewrite list_elem_of_In, List.filter_In in HV. destruct HV as [_ HV].
    rewrite Hs in HV. discriminate HV.
Qed.

Lemma exported_reached : Unity.reached ctx' exported = V.
Proof.
  unfold Unity.reached. rewrite exported_roots. unfold V, Unity.reached.
  apply flat_map_ext_in. apply Forall_forall. intros t Ht. apply visited_narrow.
  - intros k Hk. apply reached_selected. apply exported_iff. exact Hk.
  - intros k Hk. apply exported_iff. unfold V, Unity.reached. apply elem_of_flat_map.
    exists t. split; assumption.
Qed.

(** The restore operator restores exactly the reached objects and then
    removes the blocks they released. *)
Lemma restore_run :
  exists (st2 : Blend) (released : list mesh_id),
    Unity.restore_execute ctx' st1 = (Unity.FINISHED, Unity.batch_remove released st2)
    /\ Unity.restores (Unity.unity_triangulate ctx') V (st1, []) (st2, released).
Proof.
  pose proof (restore_forest exported (Unity.unity_triangulate ctx')
                (Unity.roots_of (Unity.hierarchy ctx') exported) (st1, [])) as H.
  fold (Unity.reached ctx' exported) in H. rewrite exported_reached in H.
  specialize (H reached_NoDup).
  unfold Unity.restore_execute. fold exported. cbv zeta.
  set (r := List.fold_left
              (fun acc t => Unity.restore_exported t exported (Unity.unity_triangulate ctx') acc)
              (Unity.roots_of (Unity.hierarchy ctx') exported) (st1, [])) in *.
  clearbody r. destruct r as [st2 released]. exists st2, released.
  split; [reflexivity | exact H].
Qed.

End AfterPrepare.

Lemma released_by_prepared (mx : Matrix) (tri : bool) (d' d : mesh_id) (o : Object) :
  d ∈ Unity.released_by (Unity.prepared mx tri d' o) -> type o = MESH /\ d = d'.
Proof.
  unfold Unity.released_by, Unity.prepared. cbn [type M3 pre_unity_export_mesh data].
  destruct (type o); [|intros H; inversion H | intros H; inversion H].
  destruct (data o); [|intros H; inversion H].
  intros H. apply list_elem_of_singleton in H. split; [reflexivity | exact H].
Qed.

(** Prepare followed by restore, for every object of the file. *)
Lemma round_trip :
  exists st1 st2 : Blend,
    Unity.prepare_invoke ctx event st = Ok (Unity.FINISHED, st1)
    /\ Unity.restore_execute ctx' st1 = (Unity.FINISHED, st2)
    /\ (forall (d : mesh_id) (m : Mesh), meshes st !! d = Some m -> meshes st2 !! d = Some m)
    /\ forall k : handle,
         let o := objects st k in
         let o2 := objects st2 k in
         type o2 = type o
         /\ matrix_world o2 = matrix_world o
         /\ data o2 = data o
         /\ empty_display_size o2 = empty_display_size o
         /\ unity_exported (M3 o2) = unity_exported (M3 o)
         /\ (forall t : ModType, t <> TRIANGULATE ->
               Unity.of_type t (modifiers o2) = Unity.of_type t (modifiers o))
         /\ modifiers (objects st1 k)
            = (if bool_decide (k ∈ Unity.reached ctx (Unity.effective_selection ctx st))
               then List.map Unity.prepared_modifier (modifiers o)
                      ++ (if Unity.unity_triangulate ctx && ObjType_eqb (type o) MESH
                          then [Unity.new_triangulate] else [])
               else modifiers o)
         /\ modifiers o2
            = if bool_decide (k ∈ Unity.reached ctx (Unity.effective_selection ctx st))
              then if Unity.unity_triangulate ctx && ObjType_eqb (type o) MESH
                   then if Unity.unity_triangulate ctx'
                        then modifiers o else modifiers o ++ [Unity.new_triangulate]
                   else if Unity.unity_triangulate ctx'
                        then Unity.without_last_triangulate (modifiers o) else modifiers o
              else modifiers o.
Proof.
  destruct prepare_run as (st1 & Hprep & Hp).
  destruct (restore_run st1 Hp) as (st2 & released & Hrest & Hr).
  exists st1, (Unity.batch_remove released st2).
  split; [exact Hprep|]. split; [exact Hrest|].
  destruct Hp as (Hsub & Hout & Hin). destruct Hr as (Hm2 & Hout2 & Hin2 & Hrel).
  cbn [fst snd] in *. destruct st0_effect as [Hm0 Ho0]. split.
  - intros d m Hd. rewrite batch_remove_lookup.
    + rewrite Hm2. apply (lookup_weaken _ _ _ _ (eq_ind_r (fun x => x !! d = Some m) Hd Hm0) Hsub).
    + intros Hd'. destruct (Hrel d Hd') as [Hnil|(k & Hk & Hk')]; [inversion Hnil|].
      destruct (Hin k Hk) as (mx & d' & _ & Hobj & Hfresh). rewrite Hobj in Hk'.
      apply released_by_prepared in Hk' as [Ht ->]. specialize (Hfresh Ht).
      rewrite Hm0, Hd in Hfresh. discriminate Hfresh.
  - intros k. cbv zeta. rewrite batch_remove_objects. fold sel. fold V.
    destruct (Ho0 k) as [b Hb].
    destruct (decide (k ∈ V)) as [HV|HV].
    + rewrite bool_decide_eq_true_2 by exact HV.
      destruct (Hin k HV) as (mx & d' & Hmx & Hobj & _).
      rewrite (Hin2 k HV), Hobj, Hb.
      rewrite (matrices_lookup k (reached_selected k HV)) in Hmx. injection Hmx as <-.
      assert (Hvis : k ∈ Unity.visible_objects ctx)
        by (apply selection_visible, reached_selected; exact HV).
      pose proof (restored_prepared (matrix_world (objects st k)) (Unity.unity_triangulate ctx)
                    (Unity.unity_triangulate ctx') d' (set_select b (objects st k))) as H.
      cbv zeta in H. cbn [type data modifiers location empty_display_size select set_select] in H.
      destruct H as (H1 & H2 & _ & H4 & H5 & _ & H7 & _ & _ & H10 & H11).
      { intros Ht. destruct (meshes_present k Hvis Ht) as (d & m & -> & _). discriminate. }
      repeat split; try assumption.
      rewrite H7. symmetry. apply negb_true_iff.
      unfold Unity.prepare_poll in poll. rewrite List.forallb_forall in poll.
      apply poll. apply list_elem_of_In. exact Hvis.
    + rewrite bool_decide_eq_false_2 by exact HV.
      rewrite (Hout2 k HV), (Hout k HV), Hb. cbn [type matrix_world data empty_display_size M3
        modifiers set_select]. repeat split; reflexivity.
Qed.

End RoundTrip.

Section RoundTripClaims.
Import Mathutils UtilsMath Scene Samples.
Local Open Scope R_scope.

(** C1: in a scene whose visible objects and hierarchy list no object
    twice, where no visible object is flagged (the prepare operator's poll)
    and every visible MESH object has its mesh block, the prepare operator
    followed by the restore operator, run on the same hierarchy and visible
    objects, returns and leaves every object with the world matrix it had,
    with its MIRROR modifiers and its BEVEL modifiers as they were, and on
    the mesh block it had, that block holding what it held. *)
Theorem restore_after_prepare (ctx ctx' : Unity.Context) (event : Unity.Event) (st : Blend) :
  Unity.hierarchy ctx' = Unity.hierarchy ctx ->
  Unity.visible_objects ctx' = Unity.visible_objects ctx ->
  NoDup (Unity.visible_objects ctx) ->
  NoDup (List.flat_map Unity.handles (Unity.hierarchy ctx)) ->
  Unity.prepare_poll ctx st = true ->
  (forall k : handle, k ∈ Unity.visible_objects ctx -> type (objects st k) = MESH ->
     exists (d : mesh_id) (m : Mesh), data (objects st k) = Some d /\ meshes st !! d = Some m) ->
  exists st1 st2 : Blend,
    Unity.prepare_invoke ctx event st = Ok (Unity.FINISHED, st1)
    /\ Unity.restore_execute ctx' st1 = (Unity.FINISHED, st2)
    /\ forall k : handle,
         matrix_world (objects st2 k) = matrix_world (objects st k)
         /\ Unity.of_type MIRROR (modifiers (objects st2 k))
            = Unity.of_type MIRROR (modifiers (objects st k))
         /\ Unity.of_type BEVEL (modifiers (objects st2 k))
            = Unity.of_type BEVEL (modifiers (objects st k))
         /\ data (objects st2 k) = data (objects st k)
         /\ (forall (d : mesh_id) (m : Mesh),
               data (objects st k) = Some d -> meshes st !! d = Some m ->
               meshes st2 !! d = Some m).
Proof.
  intros Hh Hv Hnv Hnf Hpoll Hmesh.
  destruct (round_trip ctx ctx' event st Hh Hv Hnv Hnf Hpoll Hmesh)
    as (st1 & st2 & H1 & H2 & Hkeep & Hk).
  exists st1, st2. split; [exact H1|]. split; [exact H2|].
  intros k. destruct (Hk k) as (_ & Hmx & Hdata & _ & _ & Htypes & _).
  split; [exact Hmx|]. split; [apply Htypes; discriminate|].
  split; [apply Htypes; discriminate|]. split; [exact Hdata|].
  intros d m _ Hd. exact (Hkeep d m Hd).
Qed.

Lemma single_hierarchy_NoDup (tri : bool) :
  NoDup (List.flat_map Unity.handles (Unity.hierarchy (single_context tri))).
Proof. cbn. apply NoDup_singleton. Qed.

Lemma workshop_meshes_present (tri : bool) (k : handle) :
  k ∈ Unity.visible_objects (single_context tri) -> type (objects workshop k) = MESH ->
  exists (d : mesh_id) (m : Mesh), data (objects workshop k) = Some d /\ meshes workshop !! d = Some m.
Proof. intros Hk. apply list_elem_of_singleton in Hk as ->. exact workshop_mesh. Qed.

Lemma restore_after_prepare_witness :
  exists st1 st2 : Blend,
    Unity.prepare_invoke (single_context true) no_keys workshop = Ok (Unity.FINISHED, st1)
    /\ Unity.restore_execute (single_context true) st1 = (Unity.FINISHED, st2)
    /\ forall k : handle,
         matrix_world (objects st2 k) = matrix_world (objects workshop k)
         /\ Unity.of_type MIRROR (modifiers (objects st2 k))
            = Unity.of_type MIRROR (modifiers (objects workshop k))
         /\ Unity.of_type BEVEL (modifiers (objects st2 k))
            = Unity.of_type BEVEL (modifiers (objects workshop k))
         /\ data (objects st2 k) = data (objects workshop k)
         /\ (forall (d : mesh_id) (m : Mesh),
               data (objects workshop k) = Some d -> meshes workshop !! d = Some m ->
               meshes st2 !! d = Some m).
Proof.
  apply (restore_after_prepare (single_context true) (single_context true) no_keys workshop).
  - reflexivity.
  - reflexivity.
  - apply NoDup_singleton.
  - apply single_hierarchy_NoDup.
  - reflexivity.
  - apply workshop_meshes_present.
Defined.

End RoundTripClaims.

Section TriangulateClaims.
Import Mathutils UtilsMath Scene Samples.
Local Open Scope R_scope.

(** C6, amended: under the conditions of C1, the prepare operator appends
    one TRIANGULATE modifier to the end of the modifier sequence of every
    object it reaches that is a MESH, when triangulation is requested, and
    appends nothing otherwise.  The restore operator, when detriangulation
    is requested, drops the last modifier of every object it reaches if
    that modifier is a TRIANGULATE modifier, whoever added it.  So a MESH
    object ends with the modifier sequence it had whenever the two requests
    agree, and so does any object when neither is requested; an object that
    was given no TRIANGULATE modifier loses a trailing one of its own when
    detriangulation is requested. *)
Theorem triangulate_added_and_removed (ctx ctx' : Unity.Context) (event : Unity.Event)
    (st : Blend) :
  Unity.hierarchy ctx' = Unity.hierarchy ctx ->
  Unity.visible_objects ctx' = Unity.visible_objects ctx ->
  NoDup (Unity.visible_objects ctx) ->
  NoDup (List.flat_map Unity.handles (Unity.hierarchy ctx)) ->
  Unity.prepare_poll ctx st = true ->
  (forall k : handle, k ∈ Unity.visible_objects ctx -> type (objects st k) = MESH ->
     exists (d : mesh_id) (m : Mesh), data (objects st k) = Some d /\ meshes st !! d = Some m) ->
  exists st1 st2 : Blend,
    Unity.prepare_invoke ctx event st = Ok (Unity.FINISHED, st1)
    /\ Unity.restore_execute ctx' st1 = (Unity.FINISHED, st2)
    /\ forall k : handle,
         let o := objects st k in
         let is_reached :=
           bool_decide (k ∈ Unity.reached ctx (Unity.effective_selection ctx st)) in
         let triangulate := Unity.unity_triangulate ctx in
         let detriangulate := Unity.unity_triangulate ctx' in
         modifiers (objects st1 k)
         = (if is_reached
            then List.map Unity.prepared_modifier (modifiers o)
                   ++ (if triangulate && ObjType_eqb (type o) MESH
                       then [Unity.new_triangulate] else [])
            else modifiers o)
         /\ modifiers (objects st2 k)
            = (if is_reached
               then if triangulate && ObjType_eqb (type o) MESH
                    then if detriangulate
                         then modifiers o else modifiers o ++ [Unity.new_triangulate]
                    else if detriangulate
                         then Unity.without_last_triangulate (modifiers o) else modifiers o
               else modifiers o)
         /\ (detriangulate = triangulate -> type o = MESH ->
             modifiers (objects st2 k) = modifiers o)
         /\ (detriangulate = false -> triangulate = false ->
             modifiers (objects st2 k) = modifiers o).
Proof.
  intros Hh Hv Hnv Hnf Hpoll Hmesh.
  destruct (round_trip ctx ctx' event st Hh Hv Hnv Hnf Hpoll Hmesh)
    as (st1 & st2 & H1 & H2 & _ & Hk).
  exists st1, st2. split; [exact H1|]. split; [exact H2|].
  intros k. cbv zeta. destruct (Hk k) as (_ & _ & _ & _ & _ & _ & Hm1 & Hm2).
  split; [exact Hm1|]. split; [exact Hm2|]. split.
  - intros Heq Ht. rewrite Hm2, Heq, Ht.
    destruct (bool_decide _), (Unity.unity_triangulate ctx); reflexivity.
  - intros Hd Ht. rewrite Hm2, Hd, Ht. destruct (bool_decide _); reflexivity.
Qed.

Lemma triangulate_added_and_removed_witness :
  exists st1 st2 : Blend,
    Unity.prepare_invoke (single_context true) no_keys workshop = Ok (Unity.FINISHED, st1)
    /\ Unity.restore_execute (single_context true) st1 = (Unity.FINISHED, st2)
    /\ forall k : handle,
         let o := objects workshop k in
         let is_reached :=
           bool_decide (k ∈ Unity.reached (single_context true)
                              (Unity.effective_selection (single_context true) workshop)) in
         let triangulate := Unity.unity_triangulate (single_context true) in
         let detriangulate := Unity.unity_triangulate (single_context true) in
         modifiers (objects st1 k)
         = (if is_reached
            then List.map Unity.prepared_modifier (modifiers o)
                   ++ (if triangulate && ObjType_eqb (type o) MESH
                       then [Unity.new_triangulate] else [])
            else modifiers o)
         /\ modifiers (objects st2 k)
            = (if is_reached
               then if triangulate && ObjType_eqb (type o) MESH
                    then if detriangulate
                         then modifiers o else modifiers o ++ [Unity.new_triangulate]
                    else if detriangulate
                         then Unity.without_last_triangulate (modifiers o) else modifiers o
               else modifiers o)
         /\ (detriangulate = triangulate -> type o = MESH ->
             modifiers (objects st2 k) = modifiers o)
         /\ (detriangulate = false -> triangulate = false ->
             modifiers (objects st2 k) = modifiers o).
Proof.
  apply (triangulate_added_and_removed (single_context true) (single_context true) no_keys
           workshop).
  - reflexivity.
  - reflexivity.
  - apply NoDup_singleton.
  - apply single_hierarchy_NoDup.
  - reflexivity.
  - apply workshop_meshes_present.
Defined.

Lemma triangulated_meshes_present (t : ObjType) (tri : bool) (k : handle) :
  k ∈ Unity.visible_objects (single_context tri) -> type (objects (triangulated t) k) = MESH ->
  exists (d : mesh_id) (m : Mesh),
    data (objects (triangulated t) k) = Some d /\ meshes (triangulated t) !! d = Some m.
Proof.
  intros Hk _. apply list_elem_of_singleton in Hk as ->.
  exists 0%nat. eexists. split; [reflexivity | exact floor_mesh_0].
Qed.

(** C6 as stated fails: restore removes a TRIANGULATE modifier that
    preparation did not add.  First a MESH whose own last modifier is a
    TRIANGULATE modifier, prepared with triangulation off and restored with
    detriangulation on; then an object that is no MESH, so that preparation
    adds nothing to it, with both requests on. *)
Lemma restore_removes_foreign_triangulate_counterexample :
  (exists st1 st2 : Blend,
     Unity.prepare_invoke (single_context false) no_keys (triangulated MESH)
     = Ok (Unity.FINISHED, st1)
     /\ Unity.restore_execute (single_context true) st1 = (Unity.FINISHED, st2)
     /\ modifiers (objects (triangulated MESH) 0%nat) = [old_triangulate]
     /\ modifiers (objects st1 0%nat) = [old_triangulate]
     /\ modifiers (objects st2 0%nat) = [])
  /\ (exists st1 st2 : Blend,
        Unity.prepare_invoke (single_context true) no_keys (triangulated OTHER)
        = Ok (Unity.FINISHED, st1)
        /\ Unity.restore_execute (single_context true) st1 = (Unity.FINISHED, st2)
        /\ modifiers (objects (triangulated OTHER) 0%nat) = [old_triangulate]
        /\ modifiers (objects st1 0%nat) = [old_triangulate]
        /\ modifiers (objects st2 0%nat) = []).
Proof.
  split.
  - destruct (round_trip (single_context false) (single_context true) no_keys
                (triangulated MESH) eq_refl eq_refl (NoDup_singleton 0%nat)
                (single_hierarchy_NoDup false) eq_refl (triangulated_meshes_present MESH false))
      as (st1 & st2 & H1 & H2 & _ & Hk).
    exists st1, st2. split; [exact H1|]. split; [exact H2|]. split; [reflexivity|].
    destruct (Hk 0%nat) as (_ & _ & _ & _ & _ & _ & Hm1 & Hm2).
    split; [exact Hm1 | exact Hm2].
  - destruct (round_trip (single_context true) (single_context true) no_keys
                (triangulated OTHER) eq_refl eq_refl (NoDup_singleton 0%nat)
                (single_hierarchy_NoDup true) eq_refl (triangulated_meshes_present OTHER true))
      as (st1 & st2 & H1 & H2 & _ & Hk).
    exists st1, st2. split; [exact H1|]. split; [exact H2|]. split; [reflexivity|].
    destruct (Hk 0%nat) as (_ & _ & _ & _ & _ & _ & Hm1 & Hm2).
    split; [exact Hm1 | exact Hm2].
Qed.

End TriangulateClaims.

(* ===================================================================== *)
(** * Alignment to the cursor and to the active object *)
(* ===================================================================== *)

Section ProperRotations.
Import Mathutils UtilsMath Scene Samples.
Local Open Scope R_scope.

Lemma euler_to_matrix_proper (e : Euler) : proper_rotation (euler_to_matrix e).
Proof.
  destruct e as [x y z].
  unfold proper_rotation, euler_to_matrix, Rotation, matmul, row_mul, dot, det3. cbn.
  pose proof (sin2_cos2 x) as Hx. pose proof (sin2_cos2 y) as Hy. pose proof (sin2_cos2 z) as Hz.
  unfold Rsqr in *.
  set (cx := cos x) in *. set (sx := sin x) in *. set (cy := cos y) in *.
  set (sy := sin y) in *. set (cz := cos z) in *. set (sz := sin z) in *.
  clearbody cx sx cy sy cz sz.
  repeat split; try (f_equal; ring); try ring; try nsatz.
Qed.

Lemma quat_to_matrix_proper (q : Quaternion) : unit_quat q -> proper_rotation (quat_to_matrix q).
Proof.
  intros Hu. unfold proper_rotation. repeat split.
  - apply (quat_col0_unit _ Hu).
  - apply (quat_col1_unit _ Hu).
  - apply (quat_col2_unit _ Hu).
  - apply quat_det, Hu.
Qed.

(** Translation, a proper rotation and coherent sizes recomposed: the
    matrix has that translation and those sizes. *)
Lemma recompose_proper (t s : Vector) (R : Matrix) :
  proper_rotation R -> coherent_size s ->
  let m := matmul (matmul (get_loc_matrix t) R) (get_sca_matrix s) in
  translation m = t /\ snd (decompose m) = s.
Proof.
  intros (H3 & H03 & H13 & H23 & U0 & U1 & U2 & Hd) Hs. cbv zeta. split.
  - destruct R as [[a00 a01 a02 a03] [a10 a11 a12 a13] [a20 a21 a22 a23] r3'].
    cbn in H3, H03, H13, H23. subst. destruct t, s.
    unfold translation, matmul, row_mul, dot, get_loc_matrix, Translation, get_sca_matrix.
    cbn. f_equal; ring.
  - unfold decompose. cbn [snd]. apply rot_size_recompose; try assumption.
    + rewrite H3. reflexivity.
    + rewrite H3. reflexivity.
    + rewrite H3. reflexivity.
Qed.

End ProperRotations.

Section AlignOverride.
Import Mathutils UtilsMath Scene Samples.
Local Open Scope R_scope.

Variable to_euler : Quaternion -> Euler.

Lemma cursor_matrix_form (s : Align.Settings) (cloc : Vector) (crot : Euler) (omx : Matrix) :
  exists R : Matrix,
    proper_rotation R
    /\ Align.cursor_matrix to_euler s cloc crot omx
       = matmul (matmul (get_loc_matrix
                           (if Align.location (Align.props s)
                            then Vec (if Align.loc_x (Align.props s)
                                      then vx cloc else vx (translation omx))
                                     (if Align.loc_y (Align.props s)
                                      then vy cloc else vy (translation omx))
                                     (if Align.loc_z (Align.props s)
                                      then vz cloc else vz (translation omx))
                            else translation omx))
                        R)
                (get_sca_matrix (snd (decompose omx))).
Proof.
  unfold Align.cursor_matrix.
  pose proof (mat3_to_quat_unit (fst (rot_size omx))) as Hu.
  unfold decompose. cbn [fst snd].
  destruct (Align.rotation s).
  - eexists. split; [apply euler_to_matrix_proper|].
    destruct (Align.location (Align.props s)); reflexivity.
  - eexists. split; [apply (quat_to_matrix_proper _ Hu)|].
    destruct (Align.location (Align.props s)); [reflexivity|].
    destruct (translation omx); reflexivity.
Qed.

Lemma active_matrix_form (s : Align.Settings) (amx omx : Matrix) :
  Align.scale s = false ->
  exists R : Matrix,
    proper_rotation R
    /\ Align.active_matrix to_euler s amx omx
       = matmul (matmul (get_loc_matrix
                           (if Align.location (Align.props s)
                            then Vec (if Align.loc_x (Align.props s)
                                      then vx (translation amx) else vx (translation omx))
                                     (if Align.loc_y (Align.props s)
                                      then vy (translation amx) else vy (translation omx))
                                     (if Align.loc_z (Align.props s)
                                      then vz (translation amx) else vz (translation omx))
                            else translation omx))
                        R)
                (get_sca_matrix (snd (decompose omx))).
Proof.
  intros Hs. unfold Align.active_matrix.
  pose proof (mat3_to_quat_unit (fst (rot_size omx))) as Hu.
  unfold decompose. cbn [fst snd]. rewrite Hs.
  destruct (Align.rotation s).
  - eexists. split; [apply euler_to_matrix_proper|].
    destruct (Align.location (Align.props s)); reflexivity.
  - eexists. split; [apply (quat_to_matrix_proper _ Hu)|].
    destruct (Align.location (Align.props s)); [reflexivity|].
    destruct (translation omx); reflexivity.
Qed.

(** X1: aligning to the cursor, with any settings: every target takes the
    cursor's location on each enabled axis when location alignment is on
    and keeps its own location otherwise, and its scale is the scale it
    had whether or not rotation is aligned.  Objects outside the targets
    keep their state. *)
Theorem align_to_cursor_location_and_scale (s : Align.Settings) (cloc : Vector) (crot : Euler)
    (sel : list handle) (st : Blend) :
  NoDup sel ->
  forall obj : handle,
    (obj ∈ sel ->
       let mx := matrix_world (objects st obj) in
       let mx' := matrix_world (objects (Align.align_to_cursor to_euler s cloc crot sel st) obj) in
       translation mx'
       = (if Align.location (Align.props s)
          then Vec (if Align.loc_x (Align.props s) then vx cloc else vx (translation mx))
                   (if Align.loc_y (Align.props s) then vy cloc else vy (translation mx))
                   (if Align.loc_z (Align.props s) then vz cloc else vz (translation mx))
          else translation mx)
       /\ snd (decompose mx') = snd (decompose mx))
    /\ (obj ∉ sel ->
        objects (Align.align_to_cursor to_euler s cloc crot sel st) obj = objects st obj).
Proof.
  intros Hnd obj. unfold Align.align_to_cursor.
  pose proof (fold_update_objects
                (fun o => set_matrix_world
                            (Align.cursor_matrix to_euler s cloc crot (matrix_world o)) o)
                sel st Hnd) as H.
  cbv zeta in H. destruct H as [_ H]. destruct (H obj) as [Hin Hout].
  split; [|exact Hout].
  intros Hobj. cbv zeta. rewrite (Hin Hobj). cbn [matrix_world set_matrix_world].
  destruct (cursor_matrix_form s cloc crot (matrix_world (objects st obj))) as (R & HR & ->).
  apply (recompose_proper _ _ R HR). unfold decompose. cbn [snd]. apply rot_size_coherent.
Qed.

(** X2: aligning to the active object while scale alignment is off: every
    target takes the active object's location on each enabled axis when
    location alignment is on and keeps its own otherwise, and its scale is
    the scale it had whether or not rotation is aligned.  Objects outside
    the targets keep their state. *)
Theorem align_to_active_object_location_and_scale (s : Align.Settings) (active : handle)
    (sel : list handle) (st : Blend) :
  Align.scale s = false -> NoDup sel ->
  forall obj : handle,
    (obj ∈ sel ->
       let amx := matrix_world (objects st active) in
       let mx := matrix_world (objects st obj) in
       let mx' := matrix_world (objects (Align.align_to_active_object to_euler s active sel st)
                                        obj) in
       translation mx'
       = (if Align.location (Align.props s)
          then Vec (if Align.loc_x (Align.props s)
                    then vx (translation amx) else vx (translation mx))
                   (if Align.loc_y (Align.props s)
                    then vy (translation amx) else vy (translation mx))
                   (if Align.loc_z (Align.props s)
                    then vz (translation amx) else vz (translation mx))
          else translation mx)
       /\ snd (decompose mx') = snd (decompose mx))
    /\ (obj ∉ sel ->
        objects (Align.align_to_active_object to_euler s active sel st) obj = objects st obj).
Proof.
  intros Hs Hnd obj. unfold Align.align_to_active_object.
  pose proof (fold_update_objects
                (fun o => set_matrix_world
                            (Align.active_matrix to_euler s (matrix_world (objects st active))
                                                 (matrix_world o)) o)
                sel st Hnd) as H.
  cbv zeta in H. destruct H as [_ H]. destruct (H obj) as [Hin Hout].
  split; [|exact Hout].
  intros Hobj. cbv zeta. rewrite (Hin Hobj). cbn [matrix_world set_matrix_world].
  destruct (active_matrix_form s (matrix_world (objects st active))
              (matrix_world (objects st obj)) Hs) as (R & HR & ->).
  apply (recompose_proper _ _ R HR). unfold decompose. cbn [snd]. apply rot_size_coherent.
Qed.

End AlignOverride.

Section AlignOverrideExamples.
Import Mathutils UtilsMath Scene Samples.
Local Open Scope R_scope.

Lemma align_to_cursor_location_and_scale_witness :
  (let mx := matrix_world (objects turned 0%nat) in
   let mx' := matrix_world
                (objects (Align.align_to_cursor flat_euler (defaults Align.CURSOR) (Vec 1 2 3)
                            (MkEuler 0 0 0) [0%nat] turned) 0%nat) in
   translation mx' = Vec 1 2 3 /\ snd (decompose mx') = snd (decompose mx))
  /\ objects (Align.align_to_cursor flat_euler (defaults Align.CURSOR) (Vec 1 2 3)
                (MkEuler 0 0 0) [0%nat] turned) 1%nat
     = objects turned 1%nat.
Proof.
  pose proof (align_to_cursor_location_and_scale flat_euler (defaults Align.CURSOR) (Vec 1 2 3)
                (MkEuler 0 0 0) [0%nat] turned (NoDup_singleton 0%nat)) as H.
  split.
  - apply (proj1 (H 0%nat)). apply list_elem_of_singleton. reflexivity.
  - apply (proj2 (H 1%nat)). intros E. apply list_elem_of_singleton in E. discriminate E.
Defined.

Lemma align_to_active_object_location_and_scale_witness :
  (let amx := matrix_world (objects turned 0%nat) in
   let mx := matrix_world (objects turned 1%nat) in
   let mx' := matrix_world
                (objects (Align.align_to_active_object flat_euler only_x 0%nat [1%nat] turned)
                         1%nat) in
   translation mx'
   = Vec (vx (translation amx)) (vy (translation mx)) (vz (translation mx))
   /\ snd (decompose mx') = snd (decompose mx))
  /\ objects (Align.align_to_active_object flat_euler only_x 0%nat [1%nat] turned) 0%nat
     = objects turned 0%nat.
Proof.
  pose proof (align_to_active_object_location_and_scale flat_euler only_x 0%nat [1%nat] turned
                eq_refl (NoDup_singleton 1%nat)) as H.
  split.
  - apply (proj1 (H 1%nat)). apply list_elem_of_singleton. reflexivity.
  - apply (proj2 (H 0%nat)). intros E. apply list_elem_of_singleton in E. discriminate E.
Defined.

End AlignOverrideExamples.

(* ===================================================================== *)
(** * Alignment to the origin on any choice of axes *)
(* ===================================================================== *)

Section OriginAxes.
Import Mathutils UtilsMath Scene Samples.
Local Open Scope R_scope.

Lemma origin_matrix_form (p : Align.Props) (omx : Matrix) :
  Align.origin_matrix p omx
  = matmul (matmul (get_loc_matrix
                      (if Align.location p
                       then Vec (if Align.loc_x p then 0 else vx (translation omx))
                                (if Align.loc_y p then 0 else vy (translation omx))
                                (if Align.loc_z p then 0 else vz (translation omx))
                       else translation omx))
                   (quat_to_matrix (snd (fst (decompose omx)))))
           (get_sca_matrix (snd (decompose omx))).
Proof.
  unfold Align.origin_matrix, decompose. cbn [fst snd].
  destruct (Align.location p); [reflexivity|]. destruct (translation omx); reflexivity.
Qed.

(** X3: aligning to the origin with any choice of axes: every target's
    translation is zero on each enabled axis and its own on the others, or
    its own altogether when location alignment is off, and its scale is
    the scale it had.  Objects outside the targets keep their state, and no
    mesh block changes. *)
Theorem align_to_origin_per_axis (p : Align.Props) (sel : list handle) (st : Blend) :
  NoDup sel ->
  meshes (Align.align_to_origin p sel st) = meshes st
  /\ forall obj : handle,
       (obj ∈ sel ->
          let mx := matrix_world (objects st obj) in
          let mx' := matrix_world (objects (Align.align_to_origin p sel st) obj) in
          translation mx'
          = (if Align.location p
             then Vec (if Align.loc_x p then 0 else vx (translation mx))
                      (if Align.loc_y p then 0 else vy (translation mx))
                      (if Align.loc_z p then 0 else vz (translation mx))
             else translation mx)
          /\ snd (decompose mx') = snd (decompose mx))
       /\ (obj ∉ sel -> objects (Align.align_to_origin p sel st) obj = objects st obj).
Proof.
  intros Hnd. unfold Align.align_to_origin.
  pose proof (fold_update_objects
                (fun o => set_matrix_world (Align.origin_matrix p (matrix_world o)) o)
                sel st Hnd) as H.
  cbv zeta in H. destruct H as [Hm H]. split; [exact Hm|].
  intros obj. destruct (H obj) as [Hin Hout]. split; [|exact Hout].
  intros Hobj. cbv zeta. rewrite (Hin Hobj). cbn [matrix_world set_matrix_world].
  rewrite origin_matrix_form.
  apply recompose_proper.
  - apply quat_to_matrix_proper. unfold decompose. cbn [fst snd]. apply mat3_to_quat_unit.
  - unfold decompose. cbn [snd]. apply rot_size_coherent.
Qed.

Lemma align_to_origin_per_axis_witness :
  (let mx := matrix_world (objects turned 0%nat) in
   let mx' := matrix_world
                (objects (Align.align_to_origin (Align.props only_x) [0%nat] turned) 0%nat) in
   translation mx' = Vec 0 (vy (translation mx)) (vz (translation mx))
   /\ snd (decompose mx') = snd (decompose mx))
  /\ objects (Align.align_to_origin (Align.props only_x) [0%nat] turned) 1%nat
     = objects turned 1%nat.
Proof.
  pose proof (align_to_origin_per_axis (Align.props only_x) [0%nat] turned
                (NoDup_singleton 0%nat)) as [_ H].
  split.
  - apply (proj1 (H 0%nat)). apply list_elem_of_singleton. reflexivity.
  - apply (proj2 (H 1%nat)). intros E. apply list_elem_of_singleton in E. discriminate E.
Defined.

End OriginAxes.

(* ===================================================================== *)
(** * The dispatch of the align operator *)
(* ===================================================================== *)

Section AlignDispatch.
Import Mathutils UtilsMath Scene Samples.
Local Open Scope R_scope.

Variable to_euler : Quaternion -> Euler.
Variable rotation_difference : Vector -> Vector -> Quaternion.
Variable average_locations : list Vector -> Vector.

Lemma remove_first_subset (a k : handle) (l : list handle) :
  k ∈ Align.remove_first a l -> k ∈ l.
Proof.
  induction l as [|x l IH]; cbn; [tauto|].
  destruct (Nat.eqb x a).
  - apply list_elem_of_further.
  - intros H. apply elem_of_cons in H as [->|H].
    + apply list_elem_of_here.
    + apply list_elem_of_further, IH, H.
Qed.

Lemma remove_first_NoDup (a : handle) (l : list handle) :
  NoDup l -> NoDup (Align.remove_first a l) /\ a ∉ Align.remove_first a l.
Proof.
  induction l as [|x l IH]; cbn; intros Hnd.
  - split; [exact Hnd | intros H; inversion H].
  - apply NoDup_cons in Hnd as [Hx Hnd]. destruct (Nat.eqb_spec x a) as [->|Hne].
    + split; assumption.
    + destruct (IH Hnd) as [IH1 IH2]. split.
      * apply NoDup_cons. split; [|exact IH1].
        intros H. apply Hx. exact (remove_first_subset _ _ _ H).
      * intros H. apply elem_of_cons in H as [E|H]; [apply Hne; symmetry; exact E | exact (IH2 H)].
Qed.

Lemma bone_loop_meshes p armature bonename bone (sel : list handle) :
  forall st : Blend,
    meshes (List.fold_left (Align.bone_step p armature bonename bone) sel st) = meshes st.
Proof.
  induction sel as [|x sel IH]; intros st; cbn [List.fold_left]; [reflexivity|].
  rewrite IH. unfold Align.bone_step. destruct (Align.parent_to_bone p); reflexivity.
Qed.

(** X4: in ACTIVE mode, in-between alignment set aside, the operator
    returns whenever no bone is active, and whenever it returns it has left
    the active object itself, every object that is not selected and every
    mesh block as they were; with the active object not among the selected
    ones it has changed nothing at all. *)
Theorem execute_active_keeps_reference (s : Align.Settings) (ctx : Align.Context) (st : Blend)
    (a : handle) :
  Align.mode s = Align.ACTIVE ->
  Align.inbetween s = false ->
  Align.active_object ctx = Some a ->
  NoDup (Align.selected_objects ctx) ->
  let run := Align.execute to_euler rotation_difference average_locations s ctx st in
  (Align.active_bone ctx = None ->
   exists (b : bool) (st' : Blend), run = inr (Align.FINISHED, b, st'))
  /\ forall (status : Align.Status) (b : bool) (st' : Blend),
       run = inr (status, b, st') ->
       status = Align.FINISHED
       /\ meshes st' = meshes st
       /\ objects st' a = objects st a
       /\ (forall k : handle, k ∉ Align.selected_objects ctx -> objects st' k = objects st k)
       /\ (a ∉ Align.selected_objects ctx -> st' = st).
Proof.
  intros Hmode Hinb Ha Hnd. cbv zeta. unfold Align.execute. rewrite Hmode, Hinb, Ha.
  unfold Align.decide_inbetween.
  set (b := if Nat.eqb (length (Align.selected_objects ctx)) 3
            then bool_decide (a ∈ Align.selected_objects ctx) else false).
  replace (if Nat.eqb (length (Align.selected_objects ctx)) 3
           then inr (bool_decide (a ∈ Align.selected_objects ctx))
           else inr false) with (@inr Align.failure bool b)
    by (unfold b; destruct (Nat.eqb (length (Align.selected_objects ctx)) 3); reflexivity).
  rewrite andb_false_r.
  destruct (remove_first_NoDup a _ Hnd) as [Hnd' Hna].
  destruct (decide (a ∈ Align.selected_objects ctx)) as [Hin|Hout].
  - rewrite (bool_decide_eq_true_2 _ Hin).
    destruct (Align.active_bone ctx) as [bonename|].
    + split; [discriminate|]. intros status b' st'.
      unfold Align.align_to_active_bone.
      destruct (pose_bones (objects st a) !! bonename) as [bone|]; cbn [of_option bind Align.lift];
        [|discriminate].
      intros E. injection E as <- _ <-. split; [reflexivity|].
      split; [apply bone_loop_meshes|].
      pose proof (bone_loop (Align.props s) a bonename bone _ st Hna) as H. cbv zeta in H.
      split; [apply (proj2 (H a)); exact Hna|].
      split; [|contradiction].
      intros k Hk. apply (proj2 (H k)). intros Hk'. apply Hk. exact (remove_first_subset _ _ _ Hk').
    + split; [eexists; eexists; reflexivity|]. intros status b' st' E.
      injection E as <- _ <-. split; [reflexivity|].
      unfold Align.align_to_active_object.
      pose proof (fold_update_objects
                    (fun o => set_matrix_world
                                (Align.active_matrix to_euler s (matrix_world (objects st a))
                                                     (matrix_world o)) o)
                    _ st Hnd') as H.
      cbv zeta in H. destruct H as [Hm H]. split; [exact Hm|].
      split; [apply (proj2 (H a)); exact Hna|].
      split; [|contradiction].
      intros k Hk. apply (proj2 (H k)). intros Hk'. apply Hk. exact (remove_first_subset _ _ _ Hk').
  - rewrite (bool_decide_eq_false_2 _ Hout).
    split; [intros _; eexists; eexists; reflexivity|].
    intros status b' st' E. injection E as <- _ <-. repeat split; reflexivity.
Qed.


(** X6: with exactly three objects selected and no active object the
    operator stops at its first assignment, before any alignment: the
    value it would store in the boolean property is [None]. *)
Theorem execute_three_without_active (s : Align.Settings) (ctx : Align.Context) (st : Blend) :
  Align.active_object ctx = None ->
  length (Align.selected_objects ctx) = 3%nat ->
  Align.execute to_euler rotation_difference average_locations s ctx st = inl Align.TypeError.
Proof.
  intros Ha Hlen. unfold Align.execute, Align.decide_inbetween. rewrite Ha, Hlen. reflexivity.
Qed.

End AlignDispatch.

Section AlignDispatchExamples.
Import Mathutils UtilsMath Scene Samples.
Local Open Scope R_scope.

Lemma three_selected_NoDup : NoDup [0%nat; 1%nat; 2%nat].
Proof.
  apply NoDup_cons. split.
  - intros H. apply elem_of_cons in H as [H|H]; [discriminate H|].
    apply list_elem_of_singleton in H. discriminate H.
  - apply NoDup_cons. split; [|apply NoDup_singleton].
    intros H. apply list_elem_of_singleton in H. discriminate H.
Qed.

Lemma execute_active_keeps_reference_witness :
  let run := Align.execute flat_euler (fun _ _ => Quat 1 0 0 0) (fun _ => Vec 0 0 0)
               (defaults Align.ACTIVE) (three_selected (Some 0%nat)) trio in
  (exists (b : bool) (st' : Blend), run = inr (Align.FINISHED, b, st'))
  /\ forall (status : Align.Status) (b : bool) (st' : Blend),
       run = inr (status, b, st') ->
       status = Align.FINISHED
       /\ meshes st' = meshes trio
       /\ objects st' 0%nat = objects trio 0%nat
       /\ (forall k : handle, k ∉ [0%nat; 1%nat; 2%nat] -> objects st' k = objects trio k)
       /\ (0%nat ∉ [0%nat; 1%nat; 2%nat] -> st' = trio).
Proof.
  pose proof (execute_active_keeps_reference flat_euler (fun _ _ => Quat 1 0 0 0)
                (fun _ => Vec 0 0 0) (defaults Align.ACTIVE) (three_selected (Some 0%nat)) trio
                0%nat eq_refl eq_refl eq_refl three_selected_NoDup) as [H1 H2].
  split; [exact (H1 eq_refl) | exact H2].
Defined.


Lemma execute_three_without_active_witness :
  Align.execute flat_euler (fun _ _ => Quat 1 0 0 0) (fun _ => Vec 0 0 0)
    (defaults Align.ACTIVE) (three_selected None) trio
  = inl Align.TypeError.
Proof.
  apply (execute_three_without_active flat_euler (fun _ _ => Quat 1 0 0 0) (fun _ => Vec 0 0 0)
           (defaults Align.ACTIVE) (three_selected None) trio); reflexivity.
Defined.

End AlignDispatchExamples.

(* ===================================================================== *)
(** * Dropping a whole selection to the floor *)
(* ===================================================================== *)

Section FloorLoop.
Import Mathutils UtilsMath Scene Samples.
Local Open Scope R_scope.




Lemma set_matrix_world_twice (m m' : Matrix) (o : Object) :
  set_matrix_world m' (set_matrix_world m o) = set_matrix_world m' o.
Proof. reflexivity. Qed.









End FloorLoop.

(* ===================================================================== *)
(** * The two export operators take turns *)
(* ===================================================================== *)

Section ExportPolls.
Import Mathutils UtilsMath Scene Samples.
Local Open Scope R_scope.

(** X9: at any time exactly one of the two export operators is
    available: the restore operator's poll holds exactly when the prepare
    operator's does not. *)
Theorem polls_exclusive (ctx : Unity.Context) (st : Blend) :
  Unity.restore_poll ctx st = negb (Unity.prepare_poll ctx st).
Proof.
  unfold Unity.restore_poll, Unity.prepare_poll.
  induction (Unity.visible_objects ctx) as [|h l IH]; cbn [existsb forallb]; [reflexivity|].
  rewrite IH. destruct (unity_exported (M3 (objects st h))), (forallb _ l); reflexivity.
Qed.

Lemma filter_none {A} (p : A -> bool) (l : list A) :
  forallb (fun a => negb (p a)) l = true -> List.filter p l = [].
Proof.
  induction l as [|a l IH]; cbn [forallb List.filter]; [reflexivity|].
  intros H. apply andb_true_iff in H as [Ha Hl]. apply negb_true_iff in Ha.
  rewrite Ha. exact (IH Hl).
Qed.

(** X10: where the prepare operator's poll holds, no visible object
    being flagged, the restore operator has nothing to restore: it
    returns and the data is exactly what it was. *)
Theorem restore_execute_clean (ctx : Unity.Context) (st : Blend) :
  Unity.prepare_poll ctx st = true ->
  Unity.restore_execute ctx st = (Unity.FINISHED, st).
Proof.
  intros Hpoll. unfold Unity.restore_execute, Unity.prepare_poll in *.
  rewrite (filter_none _ _ Hpoll). cbn. destruct st; reflexivity.
Qed.

Lemma restore_execute_clean_witness :
  Unity.restore_execute (single_context true) workshop = (Unity.FINISHED, workshop).
Proof. apply (restore_execute_clean (single_context true) workshop). reflexivity. Defined.

(** X11: under the conditions of the round trip, once the prepare
    operator has reached at least one object its own poll fails and the
    restore operator's holds, and once the restore operator has run the
    prepare operator's poll holds again and the restore operator's
    fails. *)
Theorem polls_alternate (ctx ctx' : Unity.Context) (event : Unity.Event) (st : Blend) :
  Unity.hierarchy ctx' = Unity.hierarchy ctx ->
  Unity.visible_objects ctx' = Unity.visible_objects ctx ->
  NoDup (Unity.visible_objects ctx) ->
  NoDup (List.flat_map Unity.handles (Unity.hierarchy ctx)) ->
  Unity.prepare_poll ctx st = true ->
  (forall k : handle, k ∈ Unity.visible_objects ctx -> type (objects st k) = MESH ->
     exists (d : mesh_id) (m : Mesh), data (objects st k) = Some d /\ meshes st !! d = Some m) ->
  exists st1 st2 : Blend,
    Unity.prepare_invoke ctx event st = Ok (Unity.FINISHED, st1)
    /\ Unity.restore_execute ctx' st1 = (Unity.FINISHED, st2)
    /\ (Unity.reached ctx (Unity.effective_selection ctx st) <> [] ->
        Unity.prepare_poll ctx' st1 = false /\ Unity.restore_poll ctx' st1 = true)
    /\ Unity.prepare_poll ctx' st2 = true
    /\ Unity.restore_poll ctx' st2 = false.
Proof.
  intros Hh Hv Hnv Hnf Hpoll Hmesh.
  destruct (prepare_run ctx event st Hnv Hnf Hmesh) as (st1 & Hprep & Hp).
  destruct (round_trip ctx ctx' event st Hh Hv Hnv Hnf Hpoll Hmesh)
    as (st1' & st2 & H1 & H2 & _ & Hk).
  rewrite Hprep in H1. injection H1 as <-.
  exists st1, st2. split; [exact Hprep|]. split; [exact H2|].
  assert (Hclean : Unity.prepare_poll ctx' st2 = true).
  { unfold Unity.prepare_poll in *. rewrite Hv. rewrite List.forallb_forall in *.
    intros x Hx. destruct (Hk x) as (_ & _ & _ & _ & -> & _). exact (Hpoll x Hx). }
  assert (Hflagged : Unity.reached ctx (Unity.effective_selection ctx st) <> [] ->
                     Unity.restore_poll ctx' st1 = true).
  { intros Hne.
    assert (Hex : exists k : handle, k ∈ Unity.reached ctx (Unity.effective_selection ctx st)).
    { clear -Hne. destruct (Unity.reached ctx (Unity.effective_selection ctx st)) as [|k V];
        [contradiction|]. exists k. apply list_elem_of_here. }
    destruct Hex as [k Hin].
    assert (Hvis : k ∈ Unity.visible_objects ctx)
      by (apply (selection_visible ctx st), (reached_selected ctx st); exact Hin).
    unfold Unity.restore_poll. rewrite Hv. apply List.existsb_exists. exists k.
    split; [apply list_elem_of_In; exact Hvis|].
    rewrite (flagged_after ctx st Hpoll st1 Hp k Hvis). apply bool_decide_eq_true_2. exact Hin. }
  split; [|split].
  - intros Hne. specialize (Hflagged Hne).
    unfold Unity.restore_poll, Unity.prepare_poll in *. split; [|exact Hflagged].
    apply List.existsb_exists in Hflagged as (k & Hk1 & Hk2).
    apply not_true_is_false. intros Hall. rewrite List.forallb_forall in Hall.
    specialize (Hall k Hk1). rewrite Hk2 in Hall. discriminate Hall.
  - exact Hclean.
  - unfold Unity.restore_poll, Unity.prepare_poll in *.
    apply not_true_is_false. intros Hex. apply List.existsb_exists in Hex as (k & Hk1 & Hk2).
    rewrite List.forallb_forall in Hclean. specialize (Hclean k Hk1).
    rewrite Hk2 in Hclean. discriminate Hclean.
Qed.

Lemma polls_alternate_witness :
  Unity.reached (single_context true) (Unity.effective_selection (single_context true) workshop)
  <> []
  /\ exists st1 st2 : Blend,
       Unity.prepare_invoke (single_context true) no_keys workshop = Ok (Unity.FINISHED, st1)
       /\ Unity.restore_execute (single_context true) st1 = (Unity.FINISHED, st2)
       /\ (Unity.reached (single_context true)
             (Unity.effective_selection (single_context true) workshop) <> [] ->
           Unity.prepare_poll (single_context true) st1 = false
           /\ Unity.restore_poll (single_context true) st1 = true)
       /\ Unity.prepare_poll (single_context true) st2 = true
       /\ Unity.restore_poll (single_context true) st2 = false.
Proof.
  split; [discriminate|].
  apply (polls_alternate (single_context true) (single_context true) no_keys workshop).
  - reflexivity.
  - reflexivity.
  - apply NoDup_singleton.
  - apply single_hierarchy_NoDup.
  - reflexivity.
  - apply workshop_meshes_present.
Defined.

(** X12: the round trip does not give the selection back.  The prepare
    operator selects every visible object when none is selected, and
    neither operator changes a selection flag otherwise; so with nothing
    selected beforehand every visible object is selected after the prepare
    operator and still after the restore operator, and with something
    selected every object's flag is what it was. *)
Theorem round_trip_selection (ctx ctx' : Unity.Context) (event : Unity.Event) (st : Blend) :
  Unity.hierarchy ctx' = Unity.hierarchy ctx ->
  Unity.visible_objects ctx' = Unity.visible_objects ctx ->
  NoDup (Unity.visible_objects ctx) ->
  NoDup (List.flat_map Unity.handles (Unity.hierarchy ctx)) ->
  Unity.prepare_poll ctx st = true ->
  (forall k : handle, k ∈ Unity.visible_objects ctx -> type (objects st k) = MESH ->
     exists (d : mesh_id) (m : Mesh), data (objects st k) = Some d /\ meshes st !! d = Some m) ->
  exists st1 st2 : Blend,
    Unity.prepare_invoke ctx event st = Ok (Unity.FINISHED, st1)
    /\ Unity.restore_execute ctx' st1 = (Unity.FINISHED, st2)
    /\ (forall k : handle, select (objects st2 k) = select (objects st1 k))
    /\ (Unity.selected_objects ctx st = [] ->
        forall k : handle,
          (k ∈ Unity.visible_objects ctx ->
           select (objects st k) = false /\ select (objects st1 k) = true)
          /\ (k ∉ Unity.visible_objects ctx -> select (objects st1 k) = select (objects st k)))
    /\ (Unity.selected_objects ctx st <> [] ->
        forall k : handle, select (objects st1 k) = select (objects st k)).
Proof.
  intros Hh Hv Hnv Hnf Hpoll Hmesh.
  destruct (prepare_run ctx event st Hnv Hnf Hmesh) as (st1 & Hprep & Hp).
  destruct (restore_run ctx ctx' st Hh Hv Hnv Hnf Hpoll st1 Hp) as (st2 & released & Hrest & Hr).
  exists st1, (Unity.batch_remove released st2).
  split; [exact Hprep|]. split; [exact Hrest|].
  destruct Hp as (_ & Hout & Hin). destruct Hr as (_ & Hout2 & Hin2 & _). cbn [fst snd] in *.
  set (V := Unity.reached ctx (Unity.effective_selection ctx st)) in *.
  assert (H1 : forall k : handle,
             select (objects st1 k)
             = select (objects
                         match Unity.selected_objects ctx st with
                         | [] => List.fold_left
                                   (fun s h => update_object h (set_select true) s)
                                   (Unity.visible_objects ctx) st
                         | _ :: _ => st
                         end k)).
  { intros k. destruct (decide (k ∈ V)) as [HV|HV].
    - destruct (Hin k HV) as (mx & d' & _ & -> & _). reflexivity.
    - rewrite (Hout k HV). reflexivity. }
  split; [|split].
  - intros k. rewrite batch_remove_objects. destruct (decide (k ∈ V)) as [HV|HV].
    + rewrite (Hin2 k HV). reflexivity.
    + rewrite (Hout2 k HV). reflexivity.
  - intros Hnone k. rewrite H1, Hnone.
    destruct (select_all_effect (Unity.visible_objects ctx) st) as [_ Hsel]. cbv zeta in Hsel.
    destruct (Hsel k) as (_ & Hyes & Hno). split.
    + intros Hk. split; [|exact (Hyes Hk)].
      destruct (select (objects st k)) eqn:Hs; [|reflexivity].
      assert (Hk' : k ∈ Unity.selected_objects ctx st).
      { unfold Unity.selected_objects. rewrite list_elem_of_In, List.filter_In, <- list_elem_of_In.
        split; assumption. }
      rewrite Hnone in Hk'. inversion Hk'.
    + intros Hk. rewrite (Hno Hk). reflexivity.
  - intros Hsome k. rewrite H1.
    destruct (Unity.selected_objects ctx st); [contradiction | reflexivity].
Qed.

Lemma empties_meshes_present (tri : bool) (k : handle) :
  k ∈ Unity.visible_objects (single_context tri) -> type (objects empties k) = MESH ->
  exists (d : mesh_id) (m : Mesh), data (objects empties k) = Some d /\ meshes empties !! d = Some m.
Proof. intros _ Ht. discriminate Ht. Qed.

Lemma round_trip_selection_witness :
  Unity.selected_objects (single_context false) empties = []
  /\ exists st1 st2 : Blend,
       Unity.prepare_invoke (single_context false) no_keys empties = Ok (Unity.FINISHED, st1)
       /\ Unity.restore_execute (single_context false) st1 = (Unity.FINISHED, st2)
       /\ (forall k : handle, select (objects st2 k) = select (objects st1 k))
       /\ (Unity.selected_objects (single_context false) empties = [] ->
           forall k : handle,
             (k ∈ Unity.visible_objects (single_context false) ->
              select (objects empties k) = false /\ select (objects st1 k) = true)
             /\ (k ∉ Unity.visible_objects (single_context false) ->
                 select (objects st1 k) = select (objects empties k)))
       /\ (Unity.selected_objects (single_context false) empties <> [] ->
           forall k : handle, select (objects st1 k) = select (objects empties k)).
Proof.
  split; [reflexivity|].
  apply (round_trip_selection (single_context false) (single_context false) no_keys empties).
  - reflexivity.
  - reflexivity.
  - apply NoDup_singleton.
  - apply single_hierarchy_NoDup.
  - reflexivity.
  - apply empties_meshes_present.
Defined.



End ExportPolls.

(* ===================================================================== *)
(** * What a prepare visit does to the geometry *)
(* ===================================================================== *)

Section PrepareGeometry.
Import Mathutils UtilsMath Scene Samples.
Local Open Scope R_scope.

Lemma radians_minus_90 : radians (-90) = - (PI / 2).
Proof. unfold radians. lra. Qed.

Lemma quarter_turns :
  Rotation (radians 90) AX = Mat (MkRow 1 0 0 0) (MkRow 0 0 (-1) 0) (MkRow 0 1 0 0) (MkRow 0 0 0 1)
  /\ Rotation (radians (-90)) AX
     = Mat (MkRow 1 0 0 0) (MkRow 0 0 1 0) (MkRow 0 (-1) 0 0) (MkRow 0 0 0 1).
Proof.
  rewrite radians_90, radians_minus_90. unfold Rotation.
  rewrite cos_neg, sin_neg, cos_PI2, sin_PI2.
  split; apply Matrix_eq; cbn [row0 row1 row2 row3]; apply Row_eq; cbn [r0 r1 r2 r3]; lra.
Qed.

(** Applying a product to a point, the right factor being affine. *)
Lemma mat_vec_matmul (a b : Matrix) (v : Vector) :
  row3 b = MkRow 0 0 0 1 -> mat_vec (matmul a b) v = mat_vec a (mat_vec b v).
Proof.
  intros Hb.
  destruct a as [[a00 a01 a02 a03] [a10 a11 a12 a13] [a20 a21 a22 a23] a3].
  destruct b as [[b00 b01 b02 b03] [b10 b11 b12 b13] [b20 b21 b22 b23] b3].
  cbn [row3] in Hb. subst b3. destruct v as [x y z].
  unfold mat_vec, matmul, row_mul, dot.
  cbn [row0 row1 row2 row3 r0 r1 r2 r3 col0 col1 col2 col3 vx vy vz].
  match goal with |- Vec ?p ?q ?r = Vec ?p' ?q' ?r' =>
    replace p with p' by ring; replace q with q' by ring; replace r with r' by ring
  end.
  reflexivity.
Qed.

Lemma mat_vec_entries (a b c d e f g h i j k l : R) (r : Row) (x y z : R) :
  mat_vec (Mat (MkRow a b c d) (MkRow e f g h) (MkRow i j k l) r) (Vec x y z)
  = Vec (a * x + b * y + c * z + d * 1) (e * x + f * y + g * z + h * 1)
        (i * x + j * y + k * z + l * 1).
Proof. reflexivity. Qed.

(** The mesh transform of a prepare visit undoes what the visit does to
    the world matrix, as long as the Y and Z scales agree. *)
Lemma compensated_point (sca v : Vector) :
  vy sca = vz sca ->
  mat_vec (Rotation (radians 90) AX)
    (mat_vec (get_sca_matrix (vec_div sca 100))
       (mat_vec (Rotation (radians (-90)) AX) (mat_vec (Scale 100) v)))
  = mat_vec (get_sca_matrix sca) v.
Proof.
  intros Hs. destruct quarter_turns as [-> ->].
  destruct sca as [sx sy sz], v as [a b c]. cbn [vy vz] in Hs. subst sz.
  unfold get_sca_matrix, vec_div, Scale. cbn [vx vy vz].
  rewrite !mat_vec_entries. f_equal; field.
Qed.

Lemma compensated_vertex (p : Matrix) (sca v : Vector) :
  vy sca = vz sca ->
  mat_vec (matmul (matmul p (Rotation (radians 90) AX)) (get_sca_matrix (vec_div sca 100)))
          (mat_vec (matmul (Rotation (radians (-90)) AX) (Scale 100)) v)
  = mat_vec (matmul p (get_sca_matrix sca)) v.
Proof.
  intros Hs.
  rewrite !mat_vec_matmul by reflexivity.
  rewrite (compensated_point sca v Hs). reflexivity.
Qed.

(** X14: a prepare visit to a MESH object whose collected world matrix is
    free of shear and scales Y and Z alike returns, leaves the original
    mesh block as it was, and puts the object on a new block whose
    vertices, under the new world matrix, are where the original vertices
    were under the collected one. *)
Theorem prepare_object_keeps_world_vertices (obj : handle) (matrices : gmap handle Matrix)
    (tri : bool) (st : Blend) (mx : Matrix) (loc : Vector) (rot : Quaternion) (sca : Vector)
    (d : mesh_id) (m : Mesh) :
  matrices !! obj = Some mx ->
  type (objects st obj) = MESH ->
  data (objects st obj) = Some d ->
  meshes st !! d = Some m ->
  decompose mx = (loc, rot, sca) ->
  mx = matmul (matmul (get_loc_matrix loc) (get_rot_matrix rot)) (get_sca_matrix sca) ->
  vy sca = vz sca ->
  exists (st' : Blend) (d' : mesh_id) (m' : Mesh),
    Unity.prepare_object obj matrices tri st = Ok st'
    /\ data (objects st' obj) = Some d'
    /\ d' <> d
    /\ meshes st' !! d = Some m
    /\ meshes st' !! d' = Some m'
    /\ List.map (mat_vec (matrix_world (objects st' obj))) (vertices m')
       = List.map (mat_vec mx) (vertices m).
Proof.
  intros Hmx Ht Hd Hm Hdec Hrec Hs.
  destruct (prepare_object_ok obj matrices tri st mx Hmx) as [st' Hok].
  { intros _. exists d, m. split; assumption. }
  destruct (prepare_object_effect _ _ _ _ _ Hok) as (mx' & Hmx' & Ho & _ & Hmeshes).
  rewrite Hmx in Hmx'. injection Hmx' as <-.
  rewrite Ht in Hmeshes. destruct Hmeshes as (d0 & m0 & Hd0 & Hm0 & Hmeshes).
  rewrite Hd in Hd0. injection Hd0 as <-. rewrite Hm in Hm0. injection Hm0 as <-.
  assert (Hfresh : fresh (dom (meshes st)) <> d).
  { intros E. pose proof (is_fresh (dom (meshes st))) as Hf. rewrite E in Hf.
    apply Hf. apply elem_of_dom. exists m. exact Hm. }
  exists st', (fresh (dom (meshes st))). eexists.
  split; [exact Hok|]. rewrite Ho, Hmeshes.
  unfold Unity.prepared. cbn [data matrix_world]. rewrite Ht.
  split; [reflexivity|]. split; [exact Hfresh|].
  split; [rewrite lookup_insert_ne by exact Hfresh; exact Hm|].
  split; [apply lookup_insert_eq|].
  unfold Unity.transform. cbn [vertices]. rewrite List.map_map.
  apply List.map_ext. intros v.
  unfold Unity.prepared_matrix. rewrite Hdec. rewrite (compensated_vertex _ sca v Hs).
  rewrite <- Hrec. reflexivity.
Qed.

Lemma half_turn_recomposed (t : Vector) :
  half_turn_at t
  = matmul (matmul (get_loc_matrix t) (get_rot_matrix (Quat 0 0 0 1))) (get_sca_matrix (Vec 1 1 1)).
Proof.
  destruct t as [x y z].
  unfold matmul, row_mul, dot, get_loc_matrix, Translation, get_sca_matrix, get_rot_matrix,
    quat_to_matrix, half_turn_at.
  cbn [row0 row1 row2 row3 r0 r1 r2 r3 col0 col1 col2 col3 vx vy vz qw qx qy qz].
  apply Matrix_eq; cbn [row0 row1 row2 row3]; apply Row_eq; cbn [r0 r1 r2 r3]; lra.
Qed.

Lemma prepare_object_keeps_world_vertices_witness :
  exists (st' : Blend) (d' : mesh_id) (m' : Mesh),
    Unity.prepare_object 0%nat {[ 0%nat := half_turn_at (Vec 3 4 5) ]} true workshop = Ok st'
    /\ data (objects st' 0%nat) = Some d'
    /\ d' <> 0%nat
    /\ meshes st' !! 0%nat = Some (MkMesh [Vec 0 0 (-2); Vec 1 0 0; Vec 0 1 3])
    /\ meshes st' !! d' = Some m'
    /\ List.map (mat_vec (matrix_world (objects st' 0%nat))) (vertices m')
       = List.map (mat_vec (half_turn_at (Vec 3 4 5)))
                  (vertices (MkMesh [Vec 0 0 (-2); Vec 1 0 0; Vec 0 1 3])).
Proof.
  apply (prepare_object_keeps_world_vertices 0%nat {[ 0%nat := half_turn_at (Vec 3 4 5) ]} true
           workshop (half_turn_at (Vec 3 4 5)) (Vec 3 4 5) (Quat 0 0 0 1) (Vec 1 1 1)).
  - apply lookup_singleton_eq.
  - reflexivity.
  - reflexivity.
  - exact floor_mesh_0.
  - apply decompose_half_turn.
  - apply half_turn_recomposed.
  - reflexivity.
Defined.

End PrepareGeometry.

(* ===================================================================== *)
(** * The cursor operators and the saved transform preset *)
(* ===================================================================== *)

Section CursorPresets.
Import Mathutils UtilsMath Scene Samples.
Local Open Scope R_scope.

Variable cursor_to_editmesh : Cursor.Event -> Cursor.Session -> Cursor.Session.
Variable snap_cursor_to_selected : Cursor.Session -> Cursor.Session.

(** X15: with objects selected and none of them active,
    [CursorToSelected.invoke] raises whatever the keys, the mode and the
    preferences are: it shows no message and moves no cursor, but it has
    switched the cursor overlay on and made the first selected object the
    active one. *)
Theorem cursor_to_selected_needs_active (prefs : Cursor.Prefs) (event : Cursor.Event)
    (s : Cursor.Session) (first : handle) (others : list handle) :
  Cursor.active_object s = None ->
  Cursor.selected s = first :: others ->
  let out := Cursor.cursor_to_selected_invoke cursor_to_editmesh snap_cursor_to_selected
               prefs event s in
  Cursor.status out = Raise ValueError
  /\ Cursor.messages out = []
  /\ Cursor.active_object (Cursor.final out) = Some first
  /\ Cursor.show_cursor (Cursor.final out) = true
  /\ Cursor.cursor_location (Cursor.final out) = Cursor.cursor_location s
  /\ Cursor.cursor_rotation (Cursor.final out) = Cursor.cursor_rotation s
  /\ Cursor.blend (Cursor.final out) = Cursor.blend s
  /\ Cursor.selected (Cursor.final out) = Cursor.selected s
  /\ Cursor.saved_preset (Cursor.final out) = Cursor.saved_preset s.
Proof.
  intros Ha Hsel. cbv zeta. unfold Cursor.cursor_to_selected_invoke.
  assert (E : forall s' : Cursor.Session,
             Cursor.active_object s' = None -> Cursor.selected s' = first :: others ->
             List.filter (fun obj => negb (bool_decide (Some obj = Cursor.active_object s')))
                         (Cursor.selected s')
             = first :: others).
  { intros s' Ha' Hs'. rewrite Ha', Hs'. apply filter_all. intros k _. reflexivity. }
  destruct (Cursor.show_cursor s) eqn:Hshow; cbn [negb].
  - rewrite (E s Ha Hsel), Ha. cbn. rewrite Hshow. repeat split; reflexivity.
  - rewrite (E (Cursor.set_show_cursor true s) Ha Hsel).
    cbn [Cursor.active_object Cursor.set_show_cursor]. rewrite Ha. cbn. repeat split; reflexivity.
Qed.

(** X16: [set_cursor_transform_preset] saves a preset at most once:
    run a second time it finds pivot and orientation on the cursor and
    leaves the saved preset alone, so the session is the one the first run
    left. *)
Theorem set_cursor_transform_preset_idempotent (s : Cursor.Session) :
  Cursor.set_cursor_transform_preset (Cursor.set_cursor_transform_preset s)
  = Cursor.set_cursor_transform_preset s.
Proof.
  unfold Cursor.set_cursor_transform_preset.
  cbn [Cursor.transform_pivot_point Cursor.transform_orientation Cursor.set_transform_preset].
  change (String.eqb "CURSOR" "CURSOR") with true. cbn [negb andb].
  destruct (negb (String.eqb (Cursor.transform_pivot_point s) "CURSOR")
            && negb (String.eqb (Cursor.transform_orientation s) "CURSOR")); reflexivity.
Qed.

(** X17: [CursorToOrigin.invoke] is idempotent: invoked again with the
    same keys and preferences it returns the same status and messages and
    leaves the session as the first invocation left it. *)
Theorem cursor_to_origin_twice (prefs : Cursor.Prefs) (event : Cursor.Event)
    (s : Cursor.Session) :
  let once := Cursor.cursor_to_origin_invoke prefs event s in
  Cursor.cursor_to_origin_invoke prefs event (Cursor.final once) = once.
Proof.
  cbv zeta. unfold Cursor.cursor_to_origin_invoke.
  destruct (Cursor.alt event && Cursor.ctrl event) eqn:Hkeys; [reflexivity|].
  destruct s as [b sl ao md sc cl cr pv ori sp ah].
  cbn [Cursor.show_cursor Cursor.set_show_cursor Cursor.set_cursor Cursor.saved_preset
       Cursor.set_saved_preset Cursor.set_transform_preset Cursor.axes_handler
       Cursor.set_axes_handler Cursor.cursor_location Cursor.cursor_rotation
       Cursor.blend Cursor.selected Cursor.active_object Cursor.mode
       Cursor.transform_pivot_point Cursor.transform_orientation].
  destruct sc, (Cursor.cursor_set_transform_preset prefs),
    (Cursor.cursor_toggle_axes_drawing prefs), ah, sp as [[pivot orientation]|];
    cbn; destruct (Cursor.ctrl event), (Cursor.alt event); reflexivity.
Qed.

(** X18: the preset that [CursorToSelected.invoke] saves is the one
    [CursorToOrigin.invoke] puts back.  In object mode, on the active
    object alone, with the transform pie and the preset preference on and
    the hyper cursor tool off: if neither pivot nor orientation was on the
    cursor, both are on the cursor after the first operator and back at
    their old values after the second, with nothing left saved; if one of
    them was on the cursor already, nothing new is saved and the second
    operator puts back whatever was saved before, if anything. *)
Theorem cursor_preset_round_trip (prefs : Cursor.Prefs) (e1 e2 : Cursor.Event)
    (s : Cursor.Session) (a : handle) :
  Cursor.mode s = Cursor.OBJECT ->
  Cursor.active_object s = Some a ->
  (forall obj : handle, obj ∈ Cursor.selected s -> obj = a) ->
  Cursor.alt e1 && Cursor.ctrl e1 = false ->
  Cursor.alt e2 && Cursor.ctrl e2 = false ->
  Cursor.hyper_cursor_tool_active prefs = false ->
  Cursor.activate_transform_pie prefs = true ->
  Cursor.cursor_set_transform_preset prefs = true ->
  let out1 := Cursor.cursor_to_selected_invoke cursor_to_editmesh snap_cursor_to_selected
                prefs e1 s in
  let out2 := Cursor.cursor_to_origin_invoke prefs e2 (Cursor.final out1) in
  let free := negb (String.eqb (Cursor.transform_pivot_point s) "CURSOR")
              && negb (String.eqb (Cursor.transform_orientation s) "CURSOR") in
  Cursor.status out1 = Ok Cursor.FINISHED
  /\ Cursor.status out2 = Ok Cursor.FINISHED
  /\ Cursor.transform_pivot_point (Cursor.final out1) = "CURSOR"
  /\ Cursor.transform_orientation (Cursor.final out1) = "CURSOR"
  /\ Cursor.saved_preset (Cursor.final out2) = None
  /\ (free = true ->
      Cursor.transform_pivot_point (Cursor.final out2) = Cursor.transform_pivot_point s
      /\ Cursor.transform_orientation (Cursor.final out2) = Cursor.transform_orientation s)
  /\ (free = false ->
      (Cursor.transform_pivot_point (Cursor.final out2),
       Cursor.transform_orientation (Cursor.final out2))
      = match Cursor.saved_preset s with
        | Some preset => preset
        | None => ("CURSOR", "CURSOR")
        end).
Proof.
  intros Hmode Hactive Honly Hk1 Hk2 Hhyper Hpie Hpreset. cbv zeta.
  assert (Hnone : forall s' : Cursor.Session,
             Cursor.active_object s' = Some a -> Cursor.selected s' = Cursor.selected s ->
             List.filter (fun obj => negb (bool_decide (Some obj = Cursor.active_object s')))
                         (Cursor.selected s')
             = []).
  { intros s' Ha' Hs'. rewrite Ha', Hs'. clear -Honly.
    induction (Cursor.selected s) as [|x l IH]; [reflexivity|]. cbn [List.filter].
    rewrite (Honly x (list_elem_of_here _ _)).
    rewrite (bool_decide_eq_true_2 _ eq_refl). cbn [negb]. apply IH.
    intros obj Hobj. apply Honly. apply list_elem_of_further. exact Hobj. }
  unfold Cursor.cursor_to_selected_invoke.
  set (s1 := if negb (Cursor.show_cursor s) then Cursor.set_show_cursor true s else s).
  assert (H1 : Cursor.active_object s1 = Some a /\ Cursor.selected s1 = Cursor.selected s
               /\ Cursor.mode s1 = Cursor.OBJECT
               /\ Cursor.transform_pivot_point s1 = Cursor.transform_pivot_point s
               /\ Cursor.transform_orientation s1 = Cursor.transform_orientation s
               /\ Cursor.saved_preset s1 = Cursor.saved_preset s).
  { unfold s1. destruct (negb (Cursor.show_cursor s)); repeat split; assumption. }
  destruct H1 as (Ha1 & Hs1 & Hm1 & Hp1 & Ho1 & Hsp1).
  rewrite (Hnone s1 Ha1 Hs1), Ha1, Hk1, Hm1.
  unfold Cursor.presets_and_axes. rewrite Hhyper, Hpie, Hpreset. cbn [negb andb].
  unfold Cursor.cursor_to_active_object.
  destruct (decompose (matrix_world (objects (Cursor.blend s1) a))) as [[loc rot] sca].
  set (s2 := Cursor.set_cursor _ _ s1).
  assert (H2 : Cursor.transform_pivot_point s2 = Cursor.transform_pivot_point s
               /\ Cursor.transform_orientation s2 = Cursor.transform_orientation s
               /\ Cursor.saved_preset s2 = Cursor.saved_preset s).
  { unfold s2. cbn. repeat split; assumption. }
  destruct H2 as (Hp2 & Ho2 & Hsp2). clearbody s2.
  set (s3 := Cursor.set_cursor_transform_preset s2).
  assert (H3 : Cursor.transform_pivot_point s3 = "CURSOR"
               /\ Cursor.transform_orientation s3 = "CURSOR"
               /\ Cursor.saved_preset s3
                  = if negb (String.eqb (Cursor.transform_pivot_point s) "CURSOR")
                       && negb (String.eqb (Cursor.transform_orientation s) "CURSOR")
                    then Some (Cursor.transform_pivot_point s, Cursor.transform_orientation s)
                    else Cursor.saved_preset s).
  { unfold s3, Cursor.set_cursor_transform_preset. rewrite Hp2, Ho2.
    destruct (negb (String.eqb (Cursor.transform_pivot_point s) "CURSOR")
              && negb (String.eqb (Cursor.transform_orientation s) "CURSOR"));
      cbn; repeat split; try reflexivity. exact Hsp2. }
  destruct H3 as (Hp3 & Ho3 & Hsp3). clearbody s3.
  set (s4 := if Cursor.activate_shading_pie prefs && Cursor.cursor_toggle_axes_drawing prefs
             then Cursor.enable_cursor_axes_drawing s3 else s3).
  assert (H4 : Cursor.transform_pivot_point s4 = "CURSOR"
               /\ Cursor.transform_orientation s4 = "CURSOR"
               /\ Cursor.saved_preset s4 = Cursor.saved_preset s3).
  { unfold s4, Cursor.enable_cursor_axes_drawing.
    destruct (Cursor.activate_shading_pie prefs && Cursor.cursor_toggle_axes_drawing prefs),
      (Cursor.axes_handler s3); cbn; repeat split; assumption. }
  destruct H4 as (Hp4 & Ho4 & Hsp4). clearbody s4.
  cbn [Cursor.status Cursor.final].
  unfold Cursor.cursor_to_origin_invoke. rewrite Hk2, Hpreset.
  set (s5 := Cursor.set_cursor _ _ _).
  assert (H5 : Cursor.transform_pivot_point s5 = "CURSOR"
               /\ Cursor.transform_orientation s5 = "CURSOR"
               /\ Cursor.saved_preset s5 = Cursor.saved_preset s3).
  { unfold s5. destruct (negb (Cursor.show_cursor s4)); cbn; repeat split; assumption. }
  destruct H5 as (Hp5 & Ho5 & Hsp5). clearbody s5.
  rewrite Hsp5, Hsp3.
  split; [reflexivity|]. split; [reflexivity|]. split; [exact Hp4|]. split; [exact Ho4|].
  destruct (negb (String.eqb (Cursor.transform_pivot_point s) "CURSOR")
            && negb (String.eqb (Cursor.transform_orientation s) "CURSOR")).
  - cbn [Cursor.final].
    destruct (Cursor.cursor_toggle_axes_drawing prefs && _); cbn;
      (split; [reflexivity|]); (split; [intros _; split; reflexivity | discriminate]).
  - destruct (Cursor.saved_preset s) as [[pivot orientation]|] eqn:Hsaved; cbn [Cursor.final].
    + destruct (Cursor.cursor_toggle_axes_drawing prefs && _); cbn;
        (split; [reflexivity|]); (split; [discriminate | intros _; reflexivity]).
    + destruct (Cursor.cursor_toggle_axes_drawing prefs && _); cbn;
        (split; [congruence|]);
        (split; [discriminate | intros _; rewrite Hp5, Ho5; reflexivity]).
Qed.

End CursorPresets.

Section CursorPresetExamples.
Import Mathutils UtilsMath Scene Samples.
Local Open Scope R_scope.

Lemma cursor_to_selected_needs_active_witness :
  let s := Cursor.set_active_object None hidden_cursor in
  let out := Cursor.cursor_to_selected_invoke (fun _ s => s) (fun s => s) all_prefs plain_click s in
  Cursor.status out = Raise ValueError
  /\ Cursor.messages out = []
  /\ Cursor.active_object (Cursor.final out) = Some 0%nat
  /\ Cursor.show_cursor (Cursor.final out) = true
  /\ Cursor.cursor_location (Cursor.final out) = Cursor.cursor_location s
  /\ Cursor.cursor_rotation (Cursor.final out) = Cursor.cursor_rotation s
  /\ Cursor.blend (Cursor.final out) = Cursor.blend s
  /\ Cursor.selected (Cursor.final out) = Cursor.selected s
  /\ Cursor.saved_preset (Cursor.final out) = Cursor.saved_preset s.
Proof.
  cbv zeta.
  apply (cursor_to_selected_needs_active (fun _ s => s) (fun s => s) all_prefs plain_click
           (Cursor.set_active_object None hidden_cursor) 0%nat []); reflexivity.
Defined.

Lemma cursor_preset_round_trip_witness :
  let out1 := Cursor.cursor_to_selected_invoke (fun _ s => s) (fun s => s) all_prefs plain_click
                hidden_cursor in
  let out2 := Cursor.cursor_to_origin_invoke all_prefs plain_click (Cursor.final out1) in
  let free := negb (String.eqb (Cursor.transform_pivot_point hidden_cursor) "CURSOR")
              && negb (String.eqb (Cursor.transform_orientation hidden_cursor) "CURSOR") in
  free = true
  /\ Cursor.status out1 = Ok Cursor.FINISHED
  /\ Cursor.status out2 = Ok Cursor.FINISHED
  /\ Cursor.transform_pivot_point (Cursor.final out1) = "CURSOR"
  /\ Cursor.transform_orientation (Cursor.final out1) = "CURSOR"
  /\ Cursor.saved_preset (Cursor.final out2) = None
  /\ (free = true ->
      Cursor.transform_pivot_point (Cursor.final out2)
      = Cursor.transform_pivot_point hidden_cursor
      /\ Cursor.transform_orientation (Cursor.final out2)
         = Cursor.transform_orientation hidden_cursor)
  /\ (free = false ->
      (Cursor.transform_pivot_point (Cursor.final out2),
       Cursor.transform_orientation (Cursor.final out2))
      = match Cursor.saved_preset hidden_cursor with
        | Some preset => preset
        | None => ("CURSOR", "CURSOR")
        end).
Proof.
  cbv zeta. split; [reflexivity|].
  apply (cursor_preset_round_trip (fun _ s => s) (fun s => s) all_prefs plain_click plain_click
           hidden_cursor 0%nat); try reflexivity.
  intros obj Hobj. apply list_elem_of_singleton in Hobj. exact Hobj.
Defined.

End CursorPresetExamples.

(* ===================================================================== *)
(** * The walks as loops over the visited objects *)
(* ===================================================================== *)

Section FlatWalks.
Import Mathutils UtilsMath Scene Samples.
Local Open Scope R_scope.

Lemma for_each_app {A} (f : A -> Blend -> result Blend) (l1 l2 : list A) (st : Blend) :
  for_each f (l1 ++ l2) st = bind (for_each f l1 st) (for_each f l2).
Proof.
  revert st. induction l1 as [|a l1 IH]; intros st; cbn [for_each app bind]; [reflexivity|].
  destruct (f a st) as [st1|e]; cbn [bind]; [apply IH | reflexivity].
Qed.

Lemma for_each_flat_map {A B} (g : B -> Blend -> result Blend) (h : A -> list B)
    (f : A -> Blend -> result Blend) (l : list A) :
  Forall (fun a => forall st : Blend, f a st = for_each g (h a) st) l ->
  forall st : Blend, for_each f l st = for_each g (List.flat_map h l) st.
Proof.
  induction 1 as [|a l Ha _ IH]; intros st; cbn [for_each List.flat_map]; [reflexivity|].
  rewrite for_each_app, Ha. destruct (for_each g (h a) st) as [st1|e]; cbn [bind];
    [apply IH | reflexivity].
Qed.

Lemma fold_left_flat_map {A B S} (g : S -> B -> S) (h : A -> list B) (f : S -> A -> S)
    (l : list A) :
  Forall (fun a => forall acc : S, f acc a = List.fold_left g (h a) acc) l ->
  forall acc : S, List.fold_left f l acc = List.fold_left g (List.flat_map h l) acc.
Proof.
  induction 1 as [|a l Ha _ IH]; intros acc; cbn [List.fold_left List.flat_map]; [reflexivity|].
  rewrite List.fold_left_app, Ha. apply IH.
Qed.

(** The recursion of [prepare_for_export] is a plain loop over the
    objects [visited] lists. *)
Lemma prepare_walk_loop (sel : list handle) (matrices : gmap handle Matrix)
    (triangulate : bool) (t : Tree) (st : Blend) :
  Unity.prepare_for_export t sel matrices triangulate st
  = for_each (fun obj => Unity.prepare_object obj matrices triangulate) (Unity.visited t sel) st.
Proof.
  revert st. induction t as [obj children IH] using Tree_ind. intros st.
  cbn [Unity.prepare_for_export Unity.visited].
  destruct (bool_decide (obj ∈ sel)); [|reflexivity].
  cbn [for_each]. destruct (Unity.prepare_object obj matrices triangulate st) as [st1|e];
    cbn [bind]; [|reflexivity].
  apply for_each_flat_map. clear st st1.
  induction IH as [|c cs Hc _ IHcs]; constructor; [|exact IHcs].
  intros st. destruct (decide (root c ∈ sel)) as [Hin|Hout].
  - rewrite bool_decide_eq_true_2 by exact Hin. apply Hc.
  - rewrite bool_decide_eq_false_2 by exact Hout.
    rewrite visited_out_of_scope by exact Hout. reflexivity.
Qed.

Lemma prepare_forest_loop (sel : list handle) (matrices : gmap handle Matrix)
    (triangulate : bool) (ts : list Tree) (st : Blend) :
  for_each (fun t => Unity.prepare_for_export t sel matrices triangulate) ts st
  = for_each (fun obj => Unity.prepare_object obj matrices triangulate)
             (List.flat_map (fun t => Unity.visited t sel) ts) st.
Proof.
  apply for_each_flat_map. apply Forall_forall. intros t _ st'. apply prepare_walk_loop.
Qed.

(** The recursion of [restore_exported] is a plain loop as well. *)
Lemma restore_walk_loop (exported : list handle) (detriangulate : bool) (t : Tree)
    (acc : Blend * list mesh_id) :
  Unity.restore_exported t exported detriangulate acc
  = List.fold_left
      (fun acc obj => Unity.restore_object obj detriangulate (fst acc) (snd acc))
      (Unity.visited t exported) acc.
Proof.
  revert acc. induction t as [obj children IH] using Tree_ind. intros acc.
  cbn [Unity.restore_exported Unity.visited].
  destruct (bool_decide (obj ∈ exported)); [|reflexivity].
  cbn [List.fold_left].
  apply (fold_left_flat_map
           (fun acc obj => Unity.restore_object obj detriangulate (fst acc) (snd acc))
           (fun c => Unity.visited c exported)).
  clear acc.
  induction IH as [|c cs Hc _ IHcs]; constructor; [|exact IHcs].
  intros acc. destruct (decide (root c ∈ exported)) as [Hin|Hout].
  - rewrite bool_decide_eq_true_2 by exact Hin. apply Hc.
  - rewrite bool_decide_eq_false_2 by exact Hout.
    rewrite visited_out_of_scope by exact Hout. reflexivity.
Qed.

Lemma restore_forest_loop (exported : list handle) (detriangulate : bool) (ts : list Tree)
    (acc : Blend * list mesh_id) :
  List.fold_left (fun acc t => Unity.restore_exported t exported detriangulate acc) ts acc
  = List.fold_left
      (fun acc obj => Unity.restore_object obj detriangulate (fst acc) (snd acc))
      (List.flat_map (fun t => Unity.visited t exported) ts) acc.
Proof.
  apply (fold_left_flat_map
           (fun acc obj => Unity.restore_object obj detriangulate (fst acc) (snd acc))
           (fun t => Unity.visited t exported)).
  apply Forall_forall. intros t _ acc'. apply restore_walk_loop.
Qed.

(** X19: the recursion of the prepare operator is a plain loop: whatever
    the scene, [PrepareExport.invoke] does what visiting the objects of
    [reached], one after the other in that order, does to the data once
    the selection is settled, and raises what that loop raises. *)
Theorem prepare_invoke_flat (ctx : Unity.Context) (event : Unity.Event) (st : Blend) :
  let st0 := match Unity.selected_objects ctx st with
             | [] => List.fold_left (fun s h => update_object h (set_select true) s)
                                    (Unity.visible_objects ctx) st
             | _ => st
             end in
  let sel := Unity.selected_objects ctx st0 in
  let matrices : gmap handle Matrix :=
    list_to_map (List.map (fun h => (h, matrix_world (objects st0 h))) sel) in
  Unity.prepare_invoke ctx event st
  = bind (for_each (fun obj => Unity.prepare_object obj matrices (Unity.unity_triangulate ctx))
                   (Unity.reached ctx sel) st0)
         (fun st' => Ok (Unity.FINISHED, st')).
Proof.
  cbv zeta. unfold Unity.prepare_invoke, Unity.reached. rewrite prepare_forest_loop. reflexivity.
Qed.

(** X20: the recursion of the restore operator is a plain loop as well:
    [RestoreExport.execute] visits the objects [reached] lists for the
    flagged visible objects, one after the other, and then removes the
    blocks those visits released. *)
Theorem restore_execute_flat (ctx : Unity.Context) (st : Blend) :
  let exported :=
    List.filter (fun h => unity_exported (M3 (objects st h))) (Unity.visible_objects ctx) in
  let run :=
    List.fold_left
      (fun acc obj => Unity.restore_object obj (Unity.unity_triangulate ctx) (fst acc) (snd acc))
      (Unity.reached ctx exported) (st, []) in
  Unity.restore_execute ctx st = (Unity.FINISHED, Unity.batch_remove (snd run) (fst run)).
Proof.
  cbv zeta. unfold Unity.restore_execute, Unity.reached. rewrite restore_forest_loop.
  destruct (List.fold_left _ _ _) as [st' released]. reflexivity.
Qed.

End FlatWalks.

(* ===================================================================== *)
(** * No mesh block is left behind *)
(* ===================================================================== *)

Section MeshBlocks.
Import Mathutils UtilsMath Scene Samples.
Local Open Scope R_scope.

Lemma prepare_loop_frame (matrices : gmap handle Matrix) (tri : bool) (V : list handle) :
  forall st st1 : Blend,
    for_each (fun obj => Unity.prepare_object obj matrices tri) V st = Ok st1 ->
    forall k : handle, k ∉ V -> objects st1 k = objects st k.
Proof.
  induction V as [|v V IH]; intros st st1; cbn [for_each].
  - intros E. injection E as <-. reflexivity.
  - destruct (Unity.prepare_object v matrices tri st) as [sta|e] eqn:Hv; cbn [bind];
      [|discriminate].
    intros Hrest k Hk. apply not_elem_of_cons in Hk as [Hkv HkV].
    rewrite (IH sta st1 Hrest k HkV).
    destruct (prepare_object_effect _ _ _ _ _ Hv) as (_ & _ & _ & Hoth & _).
    apply Hoth. exact Hkv.
Qed.

(** Every block there is after the prepare loop was there before or is
    the block a later restore visit to one of the visited objects
    releases. *)
Lemma prepare_loop_blocks (matrices : gmap handle Matrix) (tri : bool) (V : list handle) :
  NoDup V ->
  forall st st1 : Blend,
    for_each (fun obj => Unity.prepare_object obj matrices tri) V st = Ok st1 ->
    forall d : mesh_id,
      is_Some (meshes st1 !! d) ->
      is_Some (meshes st !! d)
      \/ exists k : handle, k ∈ V /\ d ∈ Unity.released_by (objects st1 k).
Proof.
  induction V as [|v V IH]; intros Hnd st st1; cbn [for_each].
  - intros E. injection E as <-. intros d Hd. left. exact Hd.
  - apply NoDup_cons in Hnd as [Hv Hnd].
    destruct (Unity.prepare_object v matrices tri st) as [sta|e] eqn:Hrun; cbn [bind];
      [|discriminate].
    intros Hrest d Hd.
    destruct (IH Hnd sta st1 Hrest d Hd) as [Hd1|(k & Hk & Hrel)].
    + destruct (prepare_object_effect _ _ _ _ _ Hrun) as (mx & _ & Hobj & _ & Hms).
      destruct (type (objects st v)) eqn:Ht.
      * destruct Hms as (d0 & m0 & Hd0 & _ & Hms). rewrite Hms in Hd1.
        destruct (decide (d = fresh (dom (meshes st)))) as [->|Hne].
        -- right. exists v. split; [apply list_elem_of_here|].
           rewrite (prepare_loop_frame matrices tri V sta st1 Hrest v Hv), Hobj.
           unfold Unity.released_by, Unity.prepared.
           cbn [type M3 pre_unity_export_mesh data]. rewrite Ht, Hd0.
           apply list_elem_of_here.
        -- left. rewrite lookup_insert_ne in Hd1 by (intros E; apply Hne; symmetry; exact E).
           exact Hd1.
      * left. rewrite Hms in Hd1. exact Hd1.
      * left. rewrite Hms in Hd1. exact Hd1.
    + right. exists k. split; [apply list_elem_of_further; exact Hk | exact Hrel].
Qed.

(** The restore loop releases, for each visited object, what
    [released_by] names. *)
Lemma restore_loop_released (detri : bool) (V : list handle) :
  NoDup V ->
  forall acc : Blend * list mesh_id,
    let r := List.fold_left
               (fun acc obj => Unity.restore_object obj detri (fst acc) (snd acc)) V acc in
    meshes (fst r) = meshes (fst acc)
    /\ snd r = snd acc ++ List.flat_map (fun k => Unity.released_by (objects (fst acc) k)) V.
Proof.
  induction V as [|v V IH]; intros Hnd acc; cbv zeta; cbn [List.fold_left List.flat_map].
  - rewrite app_nil_r. split; reflexivity.
  - apply NoDup_cons in Hnd as [Hv Hnd].
    pose proof (restore_object_effect v detri (fst acc) (snd acc)) as H. cbv zeta in H.
    destruct H as (_ & Hoth & Hm & Hrel).
    specialize (IH Hnd (Unity.restore_object v detri (fst acc) (snd acc))). cbv zeta in IH.
    destruct IH as [IHm IHr]. split; [rewrite IHm; exact Hm|].
    rewrite IHr, Hrel, <- app_assoc. f_equal. f_equal.
    clear -Hv Hoth. induction V as [|k V IHV]; cbn [List.flat_map]; [reflexivity|].
    apply not_elem_of_cons in Hv as [Hne Hv].
    rewrite (Hoth k) by (intros E; apply Hne; symmetry; exact E).
    f_equal. apply IHV. exact Hv.
Qed.

Lemma batch_remove_removed (ids : list mesh_id) (st : Blend) (d : mesh_id) :
  d ∈ ids -> meshes (Unity.batch_remove ids st) !! d = None.
Proof.
  unfold Unity.batch_remove. cbn [meshes set_meshes]. generalize (meshes st).
  induction ids as [|i ids IH]; intros ms Hd; [inversion Hd|]. cbn [List.fold_left].
  destruct (decide (d ∈ ids)) as [Hin|Hout]; [apply IH; exact Hin|].
  apply elem_of_cons in Hd as [->|Hd]; [|contradiction].
  pose proof (batch_remove_lookup ids (MkBlend (fun _ => plain EMPTY [] None) (delete i ms)) i Hout)
    as H.
  unfold Unity.batch_remove in H. cbn [meshes set_meshes] in H. rewrite H.
  apply lookup_delete_eq.
Qed.

(** X21: the round trip leaves no mesh block behind and takes none
    away: under the conditions of the round trip, after the prepare
    operator and then the restore operator the mesh blocks of the file are
    exactly the ones there were, each holding what it held. *)
Theorem round_trip_meshes (ctx ctx' : Unity.Context) (event : Unity.Event) (st : Blend) :
  Unity.hierarchy ctx' = Unity.hierarchy ctx ->
  Unity.visible_objects ctx' = Unity.visible_objects ctx ->
  NoDup (Unity.visible_objects ctx) ->
  NoDup (List.flat_map Unity.handles (Unity.hierarchy ctx)) ->
  Unity.prepare_poll ctx st = true ->
  (forall k : handle, k ∈ Unity.visible_objects ctx -> type (objects st k) = MESH ->
     exists (d : mesh_id) (m : Mesh), data (objects st k) = Some d /\ meshes st !! d = Some m) ->
  exists st1 st2 : Blend,
    Unity.prepare_invoke ctx event st = Ok (Unity.FINISHED, st1)
    /\ Unity.restore_execute ctx' st1 = (Unity.FINISHED, st2)
    /\ meshes st2 = meshes st.
Proof.
  intros Hh Hv Hnv Hnf Hpoll Hmesh.
  destruct (prepare_run ctx event st Hnv Hnf Hmesh) as (st1 & Hprep & Hp).
  destruct (round_trip ctx ctx' event st Hh Hv Hnv Hnf Hpoll Hmesh)
    as (st1' & st2 & H1 & H2 & Hkeep & _).
  rewrite Hprep in H1. injection H1 as <-.
  exists st1, st2. split; [exact Hprep|]. split; [exact H2|].
  pose proof (exported_reached ctx ctx' st Hh Hv Hpoll st1 Hp) as Hreach.
  pose proof (reached_NoDup ctx st Hnv Hnf) as HndV.
  pose proof (selected_st0 ctx st) as Hsel0.
  destruct (st0_effect ctx st) as [Hm0 _].
  (* the prepare run as a loop *)
  unfold Unity.prepare_invoke in Hprep. cbv zeta in Hprep.
  rewrite prepare_forest_loop in Hprep.
  set (st0 := match Unity.selected_objects ctx st with
              | [] => List.fold_left (fun s h => update_object h (set_select true) s)
                                     (Unity.visible_objects ctx) st
              | _ :: _ => st
              end) in *.
  rewrite Hsel0 in Hprep. fold (Unity.reached ctx (Unity.effective_selection ctx st)) in Hprep.
  set (V := Unity.reached ctx (Unity.effective_selection ctx st)) in *.
  destruct (for_each _ V st0) as [st1'|e] eqn:Hloop; cbn [bind] in Hprep; [|discriminate].
  injection Hprep as ->.
  pose proof (prepare_loop_blocks _ _ V HndV st0 st1 Hloop) as Hblocks.
  (* the restore run as a loop *)
  unfold Unity.restore_execute in H2. rewrite restore_forest_loop in H2.
  fold (Unity.reached ctx'
          (List.filter (fun h => unity_exported (M3 (objects st1 h)))
                       (Unity.visible_objects ctx'))) in H2.
  rewrite Hreach in H2.
  pose proof (restore_loop_released (Unity.unity_triangulate ctx') V HndV (st1, [])) as Hrel.
  cbv zeta in Hrel. cbn [fst snd app] in Hrel.
  destruct (List.fold_left _ V (st1, [])) as [st2' released]. cbn [fst snd] in Hrel.
  destruct Hrel as [Hm2 Hrel]. injection H2 as <-.
  apply map_eq. intros d.
  destruct (meshes st !! d) as [m|] eqn:Hd; [exact (Hkeep d m Hd)|].
  destruct (decide (d ∈ released)) as [Hin|Hout]; [apply batch_remove_removed; exact Hin|].
  rewrite (batch_remove_lookup released st2' d Hout), Hm2.
  destruct (meshes st1 !! d) as [m|] eqn:Hd1; [|reflexivity].
  exfalso. destruct (Hblocks d) as [Hold|(k & Hk & Hkrel)].
  - eexists. exact Hd1.
  - rewrite Hm0, Hd in Hold. destruct Hold as [? Hold]. discriminate Hold.
  - apply Hout. rewrite Hrel. apply elem_of_flat_map. exists k. split; assumption.
Qed.

Lemma round_trip_meshes_witness :
  exists st1 st2 : Blend,
    Unity.prepare_invoke (single_context true) no_keys workshop = Ok (Unity.FINISHED, st1)
    /\ Unity.restore_execute (single_context true) st1 = (Unity.FINISHED, st2)
    /\ meshes st2 = meshes workshop.
Proof.
  apply (round_trip_meshes (single_context true) (single_context true) no_keys workshop).
  - reflexivity.
  - reflexivity.
  - apply NoDup_singleton.
  - apply single_hierarchy_NoDup.
  - reflexivity.
  - apply workshop_meshes_present.
Defined.

End MeshBlocks.
